(** * NPS dashboard: the data pipeline of [sheetUtils.ts] and [npsUtils.ts]

    A shallow embedding of the address converter, the delimited-text
    tokenizer, the table builder, the cleaner, the sheet information, the
    score parser, the column identifier, the NPS calculator and the
    qualitative classification, with the address test of the page, and the
    properties of the specification stated over them.

    Conventions of the embedding.
    - A JavaScript string is a Rocq [string] holding the UTF-8 bytes of its
      text.  Every character the code compares against (quote, separators,
      line breaks, digits, keywords) is matched bytewise; the helpers that
      depend on code points ([trim], [toLowerCase], the regular expression
      dot) decode the byte sequences they need.
    - A JavaScript number is [NaN], an infinity, or a finite binary64 value
      held as the rational it denotes; [round64] is round-to-nearest-even
      onto binary64.  Negative zero is identified with zero (no code here
      tells them apart).  Counters (incremented by one from zero) are
      natural numbers.
    - A plain object keyed by strings is an association list in own-property
      order; an object keyed by grades is a [gmap Z].
    - A thrown exception is the [Throw] case of [result].
    - The regular expressions of the address patterns are searched as the
      engine does: leftmost position first, the identifier run as long as it
      goes. *)

From Stdlib Require Import ZArith QArith Qround Qabs Qpower String Ascii List Bool.
From Stdlib Require Import DecimalString Lia Lqa.
From stdpp Require Import base gmap.
Import ListNotations.

Local Open Scope string_scope.
Local Open Scope list_scope.

(** ** Strings *)

Module Str.

Definition code (c : ascii) : N := N_of_ascii c.

Definition chr (n : N) : ascii := ascii_of_N n.

Definition LF : ascii := chr 10.
Definition CR : ascii := chr 13.
Definition TAB : ascii := chr 9.
Definition QUOTE : ascii := chr 34.

Definition of_list (l : list ascii) : string := string_of_list_ascii l.
Definition to_list (s : string) : list ascii := list_ascii_of_string s.

(** One-byte white space and line terminators: U+0009..U+000D, U+0020. *)
Definition is_ws1 (c : ascii) : bool :=
  let n := code c in ((9 <=? n) && (n <=? 13) || (n =? 32))%N.

(** U+00A0, as the bytes C2 A0. *)
Definition is_ws2 (c1 c2 : ascii) : bool :=
  ((code c1 =? 194) && (code c2 =? 160))%N.

(** U+1680, U+2000..U+200A, U+2028, U+2029, U+202F, U+205F, U+3000, U+FEFF. *)
Definition is_ws3 (c1 c2 c3 : ascii) : bool :=
  let a := code c1 in let b := code c2 in let c := code c3 in
  ((a =? 225) && (b =? 154) && (c =? 128)
   || (a =? 226) && (b =? 128)
      && ((128 <=? c) && (c <=? 138) || (c =? 168) || (c =? 169) || (c =? 175))
   || (a =? 226) && (b =? 129) && (c =? 159)
   || (a =? 227) && (b =? 128) && (c =? 128)
   || (a =? 239) && (b =? 187) && (c =? 191))%N.

(** [String.prototype.trimStart] on a list of bytes. *)
Fixpoint trimStart_list (l : list ascii) : list ascii :=
  match l with
  | [] => []
  | c1 :: r1 =>
    if is_ws1 c1 then trimStart_list r1 else
    match r1 with
    | [] => l
    | c2 :: r2 =>
      if is_ws2 c1 c2 then trimStart_list r2 else
      match r2 with
      | [] => l
      | c3 :: r3 => if is_ws3 c1 c2 c3 then trimStart_list r3 else l
      end
    end
  end.

(** The same scan from the other end: the argument is the reversed text, so
    a white-space character shows its bytes last first. *)
Fixpoint trimEnd_rev (l : list ascii) : list ascii :=
  match l with
  | [] => []
  | c1 :: r1 =>
    if is_ws1 c1 then trimEnd_rev r1 else
    match r1 with
    | [] => l
    | c2 :: r2 =>
      if is_ws2 c2 c1 then trimEnd_rev r2 else
      match r2 with
      | [] => l
      | c3 :: r3 => if is_ws3 c3 c2 c1 then trimEnd_rev r3 else l
      end
    end
  end.

Definition trimStart (s : string) : string := of_list (trimStart_list (to_list s)).

Definition trimEnd (s : string) : string :=
  of_list (rev (trimEnd_rev (rev (to_list s)))).

(** [String.prototype.trim]. *)
Definition trim (s : string) : string := trimEnd (trimStart s).

Definition is_empty (s : string) : bool :=
  match s with EmptyString => true | String _ _ => false end.

(** [s.trim() === ''] *)
Definition blank (s : string) : bool := is_empty (trim s).

Fixpoint starts_with (p s : string) : bool :=
  match p, s with
  | EmptyString, _ => true
  | String a p', String b s' => Ascii.eqb a b && starts_with p' s'
  | String _ _, EmptyString => false
  end.

(** [s.includes(p)] *)
Fixpoint includes (s p : string) : bool :=
  starts_with p s ||
  match s with
  | EmptyString => false
  | String _ s' => includes s' p
  end.

(** [String.prototype.toLowerCase] on the Basic Latin and Latin-1 Supplement
    blocks: A..Z, and U+00C0..U+00DE but the multiplication sign U+00D7
    (bytes C3 80 .. C3 9E), move up by 32.  Other characters are left as
    they are: the Unicode case tables beyond Latin-1 are not embedded. *)
Fixpoint toLowerCase (s : string) : string :=
  match s with
  | EmptyString => EmptyString
  | String c r =>
    let n := code c in
    if ((65 <=? n) && (n <=? 90))%N then String (chr (n + 32)) (toLowerCase r)
    else
      match r with
      | String d r' =>
        let m := code d in
        if ((n =? 195) && (128 <=? m) && (m <=? 158) && negb (m =? 151))%N
        then String c (String (chr (m + 32)) (toLowerCase r'))
        else String c (toLowerCase r)
      | EmptyString => String c EmptyString
      end
  end.

(** [s.split(/\r?\n/)]: a line feed, with the carriage return before it when
    there is one, ends a line; a carriage return alone does not. *)
Fixpoint split_lines (s : string) : list string :=
  match s with
  | EmptyString => [EmptyString]
  | String c r =>
    if Ascii.eqb c LF then EmptyString :: split_lines r
    else
      let keep :=
        match split_lines r with
        | l :: ls => String c l :: ls
        | [] => [String c EmptyString]
        end in
      match r with
      | String d r' =>
        if Ascii.eqb c CR && Ascii.eqb d LF then EmptyString :: split_lines r'
        else keep
      | EmptyString => keep
      end
  end.

(** [(s.match(/c/g) || []).length] for a single character [c]. *)
Fixpoint count_char (c : ascii) (s : string) : nat :=
  match s with
  | EmptyString => 0
  | String d r => (if Ascii.eqb c d then 1 else 0) + count_char c r
  end.

Definition is_digit (c : ascii) : bool :=
  let n := code c in ((48 <=? n) && (n <=? 57))%N.

Definition digit_val (c : ascii) : Z := Z.of_N (code c) - 48.

(** The longest run of decimal digits at the head of [s], and the rest. *)
Fixpoint span_digits (s : string) : list ascii * string :=
  match s with
  | String c r =>
    if is_digit c then let '(ds, rest) := span_digits r in (c :: ds, rest)
    else ([], s)
  | EmptyString => ([], EmptyString)
  end.

(** The value of a run of decimal digits. *)
Definition digits_val (ds : list ascii) : Z :=
  fold_left (fun acc c => 10 * acc + digit_val c)%Z ds 0%Z.

End Str.

(** ** Numbers *)

Inductive number : Type :=
  | NaN
  | PInf
  | NInf
  | Fin (q : Q).

Module Num.

(** [(n/d) * 2^k] as a fraction with a positive denominator. *)
Definition shift_frac (n d : positive) (k : Z) : Z * Z :=
  if (0 <=? k)%Z then (Zpos n * 2 ^ k, Zpos d)%Z
  else (Zpos n, Zpos d * 2 ^ (- k))%Z.

(** [floor (log2 (n/d))] *)
Definition ilog2 (n d : positive) : Z :=
  let e0 := (Z.log2 (Zpos n) - Z.log2 (Zpos d))%Z in
  let '(a, b) := shift_frac n d (- e0) in
  if (a <? b)%Z then (e0 - 1)%Z else e0.

(** The integer nearest to [a/b], ties to the even one ([0 < b]). *)
Definition rne (a b : Z) : Z :=
  let q := (a / b)%Z in
  match (2 * (a mod b) ?= b)%Z with
  | Lt => q
  | Gt => (q + 1)%Z
  | Eq => if Z.even q then q else (q + 1)%Z
  end.

(** Round-to-nearest-even of the positive rational [n/d] onto binary64:
    53 significant bits, least exponent -1074 (the subnormal grid), and
    Infinity once the rounded value reaches [2^1024]. *)
Definition round64_pos (n d : positive) : number :=
  let e := ilog2 n d in
  let p := Z.max (e - 52) (-1074) in
  let '(a, b) := shift_frac n d (- p) in
  let v := (inject_Z (rne a b) * 2 ^ p)%Q in
  if Qle_bool (2 ^ 1024) v then PInf else Fin (Qred v).

Definition neg (x : number) : number :=
  match x with
  | NaN => NaN
  | PInf => NInf
  | NInf => PInf
  | Fin q => Fin (- q)
  end.

Definition round64 (q : Q) : number :=
  match Qnum q with
  | Z0 => Fin 0
  | Zpos n => round64_pos n (Qden q)
  | Zneg n => neg (round64_pos n (Qden q))
  end.

Definition of_nat (n : nat) : number := Fin (inject_Z (Z.of_nat n)).

Definition of_Z (z : Z) : number := Fin (inject_Z z).

Definition isNaN (x : number) : bool :=
  match x with NaN => true | _ => false end.

(** [x <= y]; every comparison with [NaN] is false. *)
Definition leb (x y : number) : bool :=
  match x, y with
  | NaN, _ | _, NaN => false
  | NInf, _ => true
  | _, PInf => true
  | PInf, _ => false
  | Fin _, NInf => false
  | Fin a, Fin b => Qle_bool a b
  end.

(** [x >= y] *)
Definition geb (x y : number) : bool := leb y x.

Definition sign_of (q : Q) (pos : number) : number :=
  match Qnum q with
  | Z0 => NaN
  | Zpos _ => pos
  | Zneg _ => neg pos
  end.

(** [x + y] *)
Definition add (x y : number) : number :=
  match x, y with
  | NaN, _ | _, NaN => NaN
  | PInf, NInf | NInf, PInf => NaN
  | PInf, _ | _, PInf => PInf
  | NInf, _ | _, NInf => NInf
  | Fin a, Fin b => round64 (a + b)
  end.

(** [x - y] *)
Definition sub (x y : number) : number := add x (neg y).

(** [x * y] *)
Definition mul (x y : number) : number :=
  match x, y with
  | NaN, _ | _, NaN => NaN
  | PInf, PInf | NInf, NInf => PInf
  | PInf, NInf | NInf, PInf => NInf
  | PInf, Fin b | Fin b, PInf => sign_of b PInf
  | NInf, Fin b | Fin b, NInf => sign_of b NInf
  | Fin a, Fin b => round64 (a * b)
  end.

(** [x / y]; a zero divisor is taken as [+0]. *)
Definition div (x y : number) : number :=
  match x, y with
  | NaN, _ | _, NaN => NaN
  | (PInf | NInf), (PInf | NInf) => NaN
  | PInf, Fin b => if (Qnum b <? 0)%Z then NInf else PInf
  | NInf, Fin b => if (Qnum b <? 0)%Z then PInf else NInf
  | Fin _, (PInf | NInf) => Fin 0
  | Fin a, Fin b =>
    if (Qnum b =? 0)%Z then sign_of a PInf else round64 (a / b)
  end.

(** [Math.round] of a finite value: the nearest integer, ties upwards. *)
Definition round_half_up (q : Q) : Z := Qfloor (q + (1 # 2)).

(** [Math.round] *)
Definition Math_round (x : number) : number :=
  match x with
  | Fin q => of_Z (round_half_up q)
  | _ => x
  end.

Definition finite (x : number) : option Q :=
  match x with Fin q => Some q | _ => None end.

End Num.

(** ** Parsing numbers out of text *)

Module Parse.

(** An optional sign; [true] is for a minus. *)
Definition take_sign (s : string) : bool * string :=
  match s with
  | String c r =>
    if Ascii.eqb c "-" then (true, r)
    else if Ascii.eqb c "+" then (false, r)
    else (false, s)
  | EmptyString => (false, s)
  end.

(** The value of an ExponentPart at the head of [s]: [e] or [E], an optional
    sign and at least one digit; [0] when there is none. *)
Definition exponent_part (s : string) : Z :=
  match s with
  | String c r =>
    if Ascii.eqb c "e" || Ascii.eqb c "E" then
      let '(minus, r') := take_sign r in
      let '(ds, _) := Str.span_digits r' in
      match ds with
      | [] => 0%Z
      | _ => if minus then (- Str.digits_val ds)%Z else Str.digits_val ds
      end
    else 0%Z
  | EmptyString => 0%Z
  end.

(** The longest prefix of [s] that is a StrUnsignedDecimalLiteral, as the
    number it denotes:
    [Infinity], [digits . digits? exp?], [. digits exp?] or [digits exp?]. *)
Definition unsigned_literal (s : string) : option number :=
  if Str.starts_with "Infinity" s then Some PInf else
  let '(ds1, r1) := Str.span_digits s in
  let whole :=
    match ds1 with
    | [] => None
    | _ => Some (Num.round64 (inject_Z (Str.digits_val ds1) * 10 ^ exponent_part r1))
    end in
  match r1 with
  | String c r2 =>
    if Ascii.eqb c "." then
      let '(ds2, r3) := Str.span_digits r2 in
      match ds1, ds2 with
      | [], [] => None
      | _, _ =>
        Some (Num.round64 (inject_Z (Str.digits_val (ds1 ++ ds2))
                           * 10 ^ (exponent_part r3 - Z.of_nat (length ds2))))
      end
    else whole
  | EmptyString => whole
  end.

(** [parseFloat] *)
Definition parseFloat (s : string) : number :=
  let '(minus, r) := take_sign (Str.trimStart s) in
  match unsigned_literal r with
  | None => NaN
  | Some v => if minus then Num.neg v else v
  end.

(** [s.match(/^(\d+)/)]: the first capture group, when the text starts
    with a digit. *)
Definition match_leading_digits (s : string) : option (list ascii) :=
  match Str.span_digits s with
  | ([], _) => None
  | (ds, _) => Some ds
  end.

(** [parseInt(ds, 10)] on a run of decimal digits. *)
Definition parseInt_digits (ds : list ascii) : number :=
  Num.round64 (inject_Z (Str.digits_val ds)).

End Parse.

(** ** Exceptions *)

Inductive exn : Type :=
  | TypeError.

Inductive result (A : Type) : Type :=
  | Ok (a : A)
  | Throw (e : exn).

Arguments Ok {A} a.
Arguments Throw {A} e.

#[export] Instance result_ret : MRet result := fun A a => Ok a.

#[export] Instance result_bind : MBind result := fun A B f m =>
  match m with
  | Ok a => f a
  | Throw e => Throw e
  end.

#[export] Instance result_fmap : FMap result := fun A B f m =>
  match m with
  | Ok a => Ok (f a)
  | Throw e => Throw e
  end.

(** A [for ... of] loop whose body may throw. *)
Fixpoint for_of {A St : Type} (body : St -> A -> result St) (l : list A) (s : St)
  : result St :=
  match l with
  | [] => Ok s
  | x :: l' => s' ← body s x; for_of body l' s'
  end.

(** ** Plain objects keyed by strings *)

Module Obj.

(** The own properties of an object, in the order [Object.keys] lists them:
    array-index keys by ascending value, then the other keys in the order
    they were created. *)
Abbreviation t := (list (string * string)).

Definition has (k : string) (o : t) : bool :=
  existsb (fun kv => String.eqb k (fst kv)) o.

(** [o[k]] for an own property; [None] is [undefined]. *)
Fixpoint get (o : t) (k : string) : option string :=
  match o with
  | [] => None
  | (k', v) :: r => if String.eqb k k' then Some v else get r k
  end.

Definition keys (o : t) : list string := map fst o.
Definition values (o : t) : list string := map snd o.

(** [k] is an array index: the canonical decimal form of an integer below
    [2^32 - 1]. *)
Definition array_index (k : string) : option Z :=
  match Str.span_digits k with
  | ((c :: rest) as ds, EmptyString) =>
    let v := Str.digits_val ds in
    if Ascii.eqb c "0" && negb (match rest with [] => true | _ => false end)
    then None
    else if (v <=? 2 ^ 32 - 2)%Z then Some v else None
  | _ => None
  end.

Fixpoint replace (k v : string) (o : t) : t :=
  match o with
  | [] => []
  | (k', v') :: r =>
    if String.eqb k k' then (k, v) :: r else (k', v') :: replace k v r
  end.

Fixpoint insert_index (i : Z) (k v : string) (o : t) : t :=
  match o with
  | [] => [(k, v)]
  | (k', v') :: r =>
    match array_index k' with
    | Some j => if (j <? i)%Z then (k', v') :: insert_index i k v r
                else (k, v) :: o
    | None => (k, v) :: o
    end
  end.

(** [o[k] = v].  An existing own property keeps its place; a new one goes
    where the key order puts it.  A new [__proto__] reaches the accessor of
    [Object.prototype], which ignores a string. *)
Definition set (k v : string) (o : t) : t :=
  if has k o then replace k v o
  else if String.eqb k "__proto__" then o
  else
    match array_index k with
    | Some i => insert_index i k v o
    | None => o ++ [(k, v)]
    end.

(** [o.hasOwnProperty(k)].  The method is looked up on the object first: an
    own property of that name holds a string, and calling it is a
    [TypeError]. *)
Definition hasOwnProperty (o : t) (k : string) : result bool :=
  if has "hasOwnProperty" o then Throw TypeError else Ok (has k o).

End Obj.

(** The values [parseNPSValue] tells apart. *)
Inductive jsval : Type :=
  | JUndefined
  | JNull
  | JNum (n : number)
  | JStr (s : string).

(** A cell read off a record: a string, or [undefined]. *)
Definition cell (c : option string) : jsval :=
  match c with
  | Some s => JStr s
  | None => JUndefined
  end.

(** ** npsUtils.ts *)

Inductive NPSCategory : Type :=
  | DETRATOR
  | NEUTRO
  | PROMOTOR.

Record NPSDebug : Type := {
  colunasAnalisadas : list string;
  valoresIgnorados : list string
}.

Record NPSData : Type := {
  score : number;
  detratores : nat;
  neutros : nat;
  promotores : nat;
  totalRespostas : nat;
  percentualDetratores : number;
  percentualNeutros : number;
  percentualPromotores : number;
  respostasPorNota : gmap Z nat;
  categoriaPorNota : gmap Z NPSCategory;
  colunasIdentificadas : list string;
  respostasInvalidas : nat;
  debug : NPSDebug
}.

(** [getNPSCategory].  The argument is a number, so the tests against
    [null] and [undefined] never fire. *)
Definition getNPSCategory (score : number) : NPSCategory :=
  if Num.isNaN score then NEUTRO
  else
    let roundedScore := Num.Math_round score in
    if Num.geb roundedScore (Num.of_Z 0) && Num.leb roundedScore (Num.of_Z 6)
    then DETRATOR
    else if Num.geb roundedScore (Num.of_Z 7) && Num.leb roundedScore (Num.of_Z 8)
    then NEUTRO
    else if Num.geb roundedScore (Num.of_Z 9) && Num.leb roundedScore (Num.of_Z 10)
    then PROMOTOR
    else NEUTRO.

(** The result of [parseNPSValue]: [value] is the number when [valid], and
    [null] otherwise.  A number that passed the range test is finite, so the
    field holds its rational. *)
Record ParseResult : Type := {
  valid : bool;
  value : option Q
}.

(** [{ valid: isValid, value: isValid ? numValue : null }] with
    [isValid = !isNaN(numValue) && numValue >= 0 && numValue <= 10] *)
Definition range_checked (numValue : number) : ParseResult :=
  let isValid :=
    negb (Num.isNaN numValue)
    && Num.geb numValue (Num.of_Z 0) && Num.leb numValue (Num.of_Z 10) in
  {| valid := isValid; value := if isValid then Num.finite numValue else None |}.

(** The keyword table of [parseNPSValue], in the order [Object.entries]
    lists it (no key is an array index, so this is the order of the
    literal). *)
Definition wordToValue : list (string * Z) :=
  [ ("péssimo", 0); ("pessimo", 0); ("ruim", 2); ("insatisfeito", 3);
    ("regular", 5); ("médio", 5); ("medio", 5); ("neutro", 7);
    ("bom", 8); ("satisfeito", 8); ("ótimo", 9); ("otimo", 9);
    ("excelente", 10); ("muito bom", 9); ("perfeito", 10) ]%Z.

(** The loop over the table: the first keyword the text includes. *)
Definition keyword_value (lowerValue : string) : option Z :=
  snd <$> find (fun entry => Str.includes lowerValue (fst entry)) wordToValue.

Definition parseNPSValue (v : jsval) : ParseResult :=
  match v with
  | JNull | JUndefined => {| valid := false; value := None |}
  | JNum n => range_checked n
  | JStr s =>
    if Str.is_empty s then {| valid := false; value := None |}
    else
      let strValue := Str.trim s in
      let numValue := Parse.parseFloat strValue in
      let numValue :=
        if Num.isNaN numValue then
          match Parse.match_leading_digits strValue with
          | Some ds => Parse.parseInt_digits ds
          | None =>
            let lowerValue := Str.toLowerCase strValue in
            match keyword_value lowerValue with
            | Some val => Num.of_Z val
            | None => numValue
            end
          end
        else numValue in
      range_checked numValue
  end.

Record ColumnStats : Type := {
  validCount : nat;
  validPercentage : number;
  averageValue : number;
  hasExpectedRange : bool
}.

(** The first loop of [analyzeColumnValues]: the running [validCount], [sum]
    and [values]. *)
Definition scan_column (column : string)
  (acc : nat * number * list Q) (row : Obj.t) : result (nat * number * list Q) :=
  let '(validCount, sum, values) := acc in
  own ← Obj.hasOwnProperty row column;
  if own : bool then
    let r := parseNPSValue (cell (Obj.get row column)) in
    match valid r, value r with
    | true, Some x => Ok (S validCount, Num.add sum (Fin x), values ++ [x])
    | _, _ => Ok acc
    end
  else Ok acc.

(** The second loop: which of the sub-ranges 0-3, 4-7, 8-10 were seen. *)
Definition scan_ranges (acc : bool * bool * bool) (x : Q) : bool * bool * bool :=
  let '(hasLowValues, hasMidValues, hasHighValues) := acc in
  (if Qle_bool 0 x && Qle_bool x 3 then true else hasLowValues,
   if Qle_bool 4 x && Qle_bool x 7 then true else hasMidValues,
   if Qle_bool 8 x && Qle_bool x 10 then true else hasHighValues).

Definition analyzeColumnValues (data : list Obj.t) (column : string)
  : result ColumnStats :=
  '(validCount, sum, values) ← for_of (scan_column column) data (0, Fin 0, []);
  let validPercentage :=
    if (0 <? length data)%nat
    then Num.mul (Num.div (Num.of_nat validCount) (Num.of_nat (length data)))
                 (Num.of_Z 100)
    else Num.of_Z 0 in
  let averageValue :=
    if (0 <? validCount)%nat then Num.div sum (Num.of_nat validCount) else Num.of_Z 0 in
  let '(hasLowValues, hasMidValues, hasHighValues) :=
    fold_left scan_ranges values (false, false, false) in
  let hasExpectedRange :=
    (hasLowValues && hasMidValues)
    || (hasMidValues && hasHighValues)
    || (hasLowValues && hasHighValues)
    || ((0 <? length values)%nat && (hasLowValues || hasMidValues || hasHighValues)) in
  Ok {| validCount := validCount;
        validPercentage := validPercentage;
        averageValue := averageValue;
        hasExpectedRange := hasExpectedRange |}.

Record ColumnIdentificationStats : Type := {
  analyzedColumns : list string
}.

Record IdentifiedColumns : Type := {
  columns : list string;
  stats : ColumnIdentificationStats
}.

Definition possibleColumnNames : list string :=
  [ "nps"; "nota"; "score"; "avaliação"; "avaliacao"; "nota nps"; "pontuação";
    "pontuacao"; "recomendação"; "recomendacao"; "indicação"; "indicacao";
    "satisfação"; "satisfacao"; "classificação"; "classificacao"; "rating";
    "rate"; "nota de 0 a 10"; "avaliação de 0 a 10"; "qual nota você daria";
    "qual nota voce daria"; "de 0 a 10"; "escala de 0 a 10" ].

(** [Array.from(new Set(l))]: each string once, where it first occurs. *)
Definition unique (l : list string) : list string :=
  fold_left (fun seen x => if existsb (String.eqb x) seen then seen else seen ++ [x])
            l [].

(** The body of the loop of [identifyNPSColumns] over the headers of the
    first row; the state is [(identifiedColumns, analyzedColumns)]. *)
Definition identify_step (data : list Obj.t)
  (acc : list string * list string) (column : string)
  : result (list string * list string) :=
  let '(identifiedColumns, analyzedColumns) := acc in
  if String.eqb column "_rowId" then Ok acc
  else
    let analyzedColumns := analyzedColumns ++ [column] in
    let columnLower := Str.toLowerCase column in
    st ← analyzeColumnValues data column;
    let isNameSuggestive :=
      existsb (fun name => Str.includes columnLower name) possibleColumnNames in
    if isNameSuggestive && Num.geb (validPercentage st) (Num.of_Z 30)
       && hasExpectedRange st
    then Ok (identifiedColumns ++ [column], analyzedColumns)
    else if negb isNameSuggestive && Num.geb (validPercentage st) (Num.of_Z 50)
            && hasExpectedRange st
    then Ok (identifiedColumns ++ [column], analyzedColumns)
    else if isNameSuggestive && Num.geb (validPercentage st) (Num.of_Z 10)
            && hasExpectedRange st
    then Ok (identifiedColumns ++ [column], analyzedColumns)
    else Ok (identifiedColumns, analyzedColumns).

Definition identifyNPSColumns (data : list Obj.t) : result IdentifiedColumns :=
  match data with
  | [] => Ok {| columns := []; stats := {| analyzedColumns := [] |} |}
  | firstRow :: _ =>
    let allColumnHeaders := Obj.keys firstRow in
    '(identifiedColumns, analyzedColumns) ←
      for_of (identify_step data) allColumnHeaders ([], []);
    let uniqueIdentifiedColumns := unique identifiedColumns in
    Ok {| columns := uniqueIdentifiedColumns;
          stats := {| analyzedColumns := analyzedColumns |} |}
  end.

(** The local helper [emptyNPSData] of [calculateNPS]. *)
Definition emptyNPSData (colsIdentified colsAnalyzed valsIgnored : list string)
  : NPSData :=
  {| score := Num.of_Z 0;
     detratores := 0;
     neutros := 0;
     promotores := 0;
     totalRespostas := 0;
     percentualDetratores := Num.of_Z 0;
     percentualNeutros := Num.of_Z 0;
     percentualPromotores := Num.of_Z 0;
     respostasPorNota := ∅;
     categoriaPorNota := ∅;
     colunasIdentificadas := colsIdentified;
     respostasInvalidas := length valsIgnored;
     debug := {| colunasAnalisadas := colsAnalyzed;
                 valoresIgnorados := valsIgnored |} |}.

(** The variables the scoring loop of [calculateNPS] updates. *)
Record Tally : Type := {
  t_detratores : nat;
  t_neutros : nat;
  t_promotores : nat;
  t_totalRespostas : nat;
  t_respostasInvalidasCount : nat;
  t_respostasPorNota : gmap Z nat;
  t_valoresIgnorados : list string
}.

(** [for (let i = 0; i <= 10; i++)] *)
Definition grades : list Z := seqZ 0 11.

Definition initial_tally : Tally :=
  {| t_detratores := 0;
     t_neutros := 0;
     t_promotores := 0;
     t_totalRespostas := 0;
     t_respostasInvalidasCount := 0;
     t_respostasPorNota := fold_left (fun m i => <[i := 0]> m) grades ∅;
     t_valoresIgnorados := [] |}.

Definition initial_categoriaPorNota : gmap Z NPSCategory :=
  fold_left (fun m i => <[i := getNPSCategory (Num.of_Z i)]> m) grades ∅.

(** A valid score: its grade bucket, the total and one category counter
    go up by one. *)
Definition count_score (t : Tally) (score : Q) : Tally :=
  let grade := Num.round_half_up score in
  let porNota :=
    <[grade := S (default 0 (t_respostasPorNota t !! grade))]> (t_respostasPorNota t) in
  let category := getNPSCategory (Fin score) in
  {| t_detratores :=
       match category with DETRATOR => S (t_detratores t) | _ => t_detratores t end;
     t_neutros :=
       match category with NEUTRO => S (t_neutros t) | _ => t_neutros t end;
     t_promotores :=
       match category with PROMOTOR => S (t_promotores t) | _ => t_promotores t end;
     t_totalRespostas := S (t_totalRespostas t);
     t_respostasInvalidasCount := t_respostasInvalidasCount t;
     t_respostasPorNota := porNota;
     t_valoresIgnorados := t_valoresIgnorados t |}.

(** A cell that did not parse and is not blank: the invalid counter goes up,
    and the raw text is recorded unless it already is. *)
Definition count_invalid (t : Tally) (raw : string) : Tally :=
  {| t_detratores := t_detratores t;
     t_neutros := t_neutros t;
     t_promotores := t_promotores t;
     t_totalRespostas := t_totalRespostas t;
     t_respostasInvalidasCount := S (t_respostasInvalidasCount t);
     t_respostasPorNota := t_respostasPorNota t;
     t_valoresIgnorados :=
       if existsb (String.eqb raw) (t_valoresIgnorados t)
       then t_valoresIgnorados t
       else t_valoresIgnorados t ++ [raw] |}.

(** The body of the inner loop, for one row and one score column. *)
Definition score_cell (row : Obj.t) (t : Tally) (scoreColumn : string)
  : result Tally :=
  own ← Obj.hasOwnProperty row scoreColumn;
  if own : bool then
    let scoreValue := Obj.get row scoreColumn in
    let r := parseNPSValue (cell scoreValue) in
    match valid r, value r with
    | true, Some score => Ok (count_score t score)
    | _, _ =>
      match scoreValue with
      | Some raw => if negb (Str.blank raw) then Ok (count_invalid t raw) else Ok t
      | None => Ok t
      end
    end
  else Ok t.

Definition score_row (identifiedScoreColumns : list string)
  (t : Tally) (row : Obj.t) : result Tally :=
  for_of (score_cell row) identifiedScoreColumns t.

(** What [calculateNPS] does once the score columns are settled. *)
Definition summarize (data : list Obj.t)
  (identifiedScoreColumns : list string)
  (columnIdentificationStats : ColumnIdentificationStats) : result NPSData :=
  t ← for_of (score_row identifiedScoreColumns) data initial_tally;
  if (t_totalRespostas t =? 0)%nat then
    Ok (emptyNPSData identifiedScoreColumns
                     (analyzedColumns columnIdentificationStats)
                     (t_valoresIgnorados t))
  else
    let total := Num.of_nat (t_totalRespostas t) in
    let percentualDetratores :=
      Num.mul (Num.div (Num.of_nat (t_detratores t)) total) (Num.of_Z 100) in
    let percentualNeutros :=
      Num.mul (Num.div (Num.of_nat (t_neutros t)) total) (Num.of_Z 100) in
    let percentualPromotores :=
      Num.mul (Num.div (Num.of_nat (t_promotores t)) total) (Num.of_Z 100) in
    let npsScore := Num.sub percentualPromotores percentualDetratores in
    Ok {| score := Num.Math_round npsScore;
          detratores := t_detratores t;
          neutros := t_neutros t;
          promotores := t_promotores t;
          totalRespostas := t_totalRespostas t;
          percentualDetratores := percentualDetratores;
          percentualNeutros := percentualNeutros;
          percentualPromotores := percentualPromotores;
          respostasPorNota := t_respostasPorNota t;
          categoriaPorNota := initial_categoriaPorNota;
          colunasIdentificadas := identifiedScoreColumns;
          respostasInvalidas := t_respostasInvalidasCount t;
          debug := {| colunasAnalisadas := analyzedColumns columnIdentificationStats;
                      valoresIgnorados := t_valoresIgnorados t |} |}.

(** [calculateNPS(data, npsScoreColumns?)]; [None] is an absent second
    argument. *)
Definition calculateNPS (data : list Obj.t) (npsScoreColumns : option (list string))
  : result NPSData :=
  match data with
  | [] => Ok (emptyNPSData [] [] [])
  | firstRow :: _ =>
    match npsScoreColumns with
    | Some ((_ :: _) as given) =>
      summarize data given {| analyzedColumns := Obj.keys firstRow |}
    | _ =>
      r ← identifyNPSColumns data;
      match columns r with
      | [] => Ok (emptyNPSData [] (analyzedColumns (stats r)) [])
      | _ => summarize data (columns r) (stats r)
      end
    end
  end.

(** ** sheetUtils.ts *)

(** [detectSeparator].  The separator is a one-character string; the model
    returns the character.  [Object.entries(counts)] lists comma, semicolon,
    tab in that order. *)
Definition detectSeparator (csvText : string) : ascii :=
  if Str.blank csvText then ","%char
  else
    match find (fun line => negb (Str.blank line)) (Str.split_lines csvText) with
    | None => ","%char
    | Some firstLine =>
      let counts :=
        [ (","%char, Str.count_char "," firstLine);
          (";"%char, Str.count_char ";" firstLine);
          (Str.TAB, Str.count_char Str.TAB firstLine) ] in
      snd (fold_left
             (fun (acc : nat * ascii) (entry : ascii * nat) =>
                let '(maxCount, detectedSeparator) := acc in
                let '(sep, count) := entry in
                if (maxCount <? count)%nat then (count, sep)
                else (maxCount, detectedSeparator))
             counts (0, ","%char))
    end.

Definition push_char (s : string) (c : ascii) : string :=
  (s ++ String c EmptyString)%string.

(** The character scan of one line in [parseCSV]: [values], [currentValue]
    and [inQuotes] are the loop variables, [line] is what is left to read. *)
Fixpoint scan_line (separator : ascii) (line : string)
  (values : list string) (currentValue : string) (inQuotes : bool) : list string :=
  match line with
  | EmptyString => values ++ [currentValue]
  | String char rest =>
    if Ascii.eqb char Str.QUOTE then
      match rest with
      | String next rest' =>
        if Ascii.eqb next Str.QUOTE
        then scan_line separator rest' values (push_char currentValue Str.QUOTE) inQuotes
        else scan_line separator rest values currentValue (negb inQuotes)
      | EmptyString => scan_line separator rest values currentValue (negb inQuotes)
      end
    else if Ascii.eqb char separator && negb inQuotes
    then scan_line separator rest (values ++ [currentValue]) "" inQuotes
    else scan_line separator rest values (push_char currentValue char) inQuotes
  end.

(** No line terminator among the bytes: LF, CR, U+2028, U+2029 (the
    characters the regular expression dot does not match). *)
Fixpoint dot_matches_all (l : list ascii) : bool :=
  match l with
  | [] => true
  | c :: r =>
    negb (Ascii.eqb c Str.LF) && negb (Ascii.eqb c Str.CR)
    && negb (match r with
             | c2 :: c3 :: _ =>
               ((Str.code c =? 226) && (Str.code c2 =? 128)
                && ((Str.code c3 =? 168) || (Str.code c3 =? 169)))%N
             | _ => false
             end)
    && dot_matches_all r
  end.

(** The first [replace] of the clean-up: a value that opens and closes with
    a quote, with nothing but dot-matched characters between, loses the two
    quotes. *)
Definition strip_enclosing_quotes (value : string) : string :=
  match Str.to_list value with
  | first :: r =>
    match rev r with
    | last :: inner_rev =>
      if Ascii.eqb first Str.QUOTE && Ascii.eqb last Str.QUOTE
         && dot_matches_all (rev inner_rev)
      then Str.of_list (rev inner_rev)
      else value
    | [] => value
    end
  | [] => value
  end.

(** The second [replace]: every pair of adjacent quotes, read left to right
    without overlap, becomes one quote. *)
Fixpoint collapse_quotes (s : string) : string :=
  match s with
  | String a (String b r as t) =>
    if Ascii.eqb a Str.QUOTE && Ascii.eqb b Str.QUOTE
    then String Str.QUOTE (collapse_quotes r)
    else String a (collapse_quotes t)
  | _ => s
  end.

Definition clean_value (value : string) : string :=
  Str.trim (collapse_quotes (strip_enclosing_quotes value)).

Definition parseCSV (csvText : string) : list (list string) :=
  if Str.blank csvText then []
  else
    let separator := detectSeparator csvText in
    let lines := Str.split_lines csvText in
    let result :=
      map (fun line =>
             if Str.blank line then []
             else map clean_value (scan_line separator line [] "" false))
          lines in
    List.filter (fun line => (0 <? length line)%nat) result.

(** [`${n}`] for a counter. *)
Definition decimal (n : nat) : string := NilZero.string_of_uint (Nat.to_uint n).

(** [l.map((x, index) => f(x, index))] *)
Definition map_indexed {A B : Type} (f : A -> nat -> B) (l : list A) : list B :=
  map (fun p => f (snd p) (fst p)) (combine (seq 0 (length l)) l).

Definition csvToObjects (csvData : list (list string)) : list Obj.t :=
  match csvData with
  | [] => []
  | [_] => []
  | headers :: rows =>
    if (length headers =? 0)%nat || forallb Str.blank headers then []
    else
      let normalizedHeaders :=
        map_indexed (fun header index =>
                       if Str.is_empty header || Str.blank header
                       then ("coluna_" ++ decimal (index + 1))%string
                       else Str.trim header)
                    headers in
      map_indexed (fun row rowIndex =>
                     let obj :=
                       fold_left (fun obj (p : nat * string) =>
                                    let '(index, header) := p in
                                    Obj.set header (nth index row "") obj)
                                 (combine (seq 0 (length normalizedHeaders))
                                          normalizedHeaders)
                                 [] in
                     Obj.set "_rowId" ("row_" ++ decimal (rowIndex + 1))%string obj)
                  rows
  end.

(** The row [cleanSheetData] builds for a row it keeps. *)
Definition clean_row (row : Obj.t) : Obj.t :=
  fold_left (fun cleanRow (entry : string * string) =>
               Obj.set (fst entry) (Str.trim (snd entry)) cleanRow)
            row [].

Definition cleanSheetData (data : list Obj.t) : list Obj.t :=
  match data with
  | [] => []
  | _ =>
    map clean_row
        (List.filter (fun row => existsb (fun value => negb (Str.blank value)) (Obj.values row))
                data)
  end.

(** ** The inputs of the worked examples *)

Module Examples.

Definition nl : string := String Str.LF EmptyString.
Definition tab : string := String Str.TAB EmptyString.

(** The four-line text [a,b / 1,2 / ,, / 3,4]. *)
Definition blank_row_text : string :=
  ("a,b" ++ nl ++ "1,2" ++ nl ++ ",," ++ nl ++ "3,4")%string.



(** A first line with two semicolons, two tabs and one comma. *)
Definition tie_line : string :=
  ("a;b;c" ++ tab ++ "d" ++ tab ++ "e,f")%string.

(** One record whose [nota] is 3.5, and the statistics of that column. *)
Definition gap_data : list Obj.t := [ [("nota", "3.5"); ("_rowId", "row_1")] ].

Definition gap_stats : ColumnStats :=
  {| validCount := 1;
     validPercentage := Fin 100;
     averageValue := Fin (7 # 2);
     hasExpectedRange := false |}.

(** Two records with the same unparseable answer. *)
Definition repeated_invalid : list Obj.t :=
  [ [("score", "abc"); ("_rowId", "row_1")];
    [("score", "abc"); ("_rowId", "row_2")] ].


(** The four answers 9, 9, 3, 7. *)
Definition four_answers : list Obj.t :=
  [ [("score", "9")]; [("score", "9")]; [("score", "3")]; [("score", "7")] ].

(** One answer in each category. *)
Definition three_answers : list Obj.t :=
  [ [("score", "9")]; [("score", "7")]; [("score", "3")] ].

(** One record with a column named after the inherited method. *)
Definition shadowing_data : list Obj.t :=
  [ [("hasOwnProperty", "7"); ("_rowId", "row_1")] ].

End Examples.

(** The first non-blank line of a text, as [detectSeparator] looks for it. *)
Definition first_line (csvText : string) : option string :=
  find (fun line => negb (Str.blank line)) (Str.split_lines csvText).

(** ** Reference definitions, in the words of the specification *)

(** The valid parsed value of a record in a column, when the record has the
    column and its cell parses. *)
Definition valid_value_of (column : string) (row : Obj.t) : list Q :=
  if Obj.has column row then
    let r := parseNPSValue (cell (Obj.get row column)) in
    match valid r, value r with
    | true, Some x => [x]
    | _, _ => []
    end
  else [].

(** The valid parsed values of a column, in record order. *)
Definition valid_values (data : list Obj.t) (column : string) : list Q :=
  flat_map (valid_value_of column) data.

(** The three sub-ranges 0-3, 4-7 and 8-10. *)
Definition in_sub_range (x : Q) : Prop :=
  ((0 <= x)%Q /\ (x <= 3)%Q) \/ ((4 <= x)%Q /\ (x <= 7)%Q)
  \/ ((8 <= x)%Q /\ (x <= 10)%Q).

(** Strictly between two sub-ranges. *)
Definition in_gap (x : Q) : Prop :=
  ((3 < x)%Q /\ (x < 4)%Q) \/ ((7 < x)%Q /\ (x < 8)%Q).

Definition is_integer (x : Q) : Prop := exists z : Z, (x == inject_Z z)%Q.

(** The tests of the second loop of [analyzeColumnValues]. *)
Definition low_value (x : Q) : bool := Qle_bool 0 x && Qle_bool x 3.
Definition mid_value (x : Q) : bool := Qle_bool 4 x && Qle_bool x 7.
Definition high_value (x : Q) : bool := Qle_bool 8 x && Qle_bool x 10.

(** A cell that counts as an invalid response: the record has the column,
    the cell is not blank, and it does not parse. *)
Definition failed_cell (row : Obj.t) (column : string) : bool :=
  Obj.has column row &&
  match Obj.get row column with
  | Some raw => negb (Str.blank raw) && negb (valid (parseNPSValue (JStr raw)))
  | None => false
  end.

(** The number of such cells over all records and the considered columns,
    each occurrence counted. *)
Definition failed_cells (data : list Obj.t) (columns : list string) : nat :=
  list_sum (map (fun row => length (List.filter (failed_cell row) columns)) data).

(** The histogram has exactly the grades 0..10 as keys. *)
Definition grades_0_to_10 (m : gmap Z nat) : Prop :=
  forall k : Z, is_Some (m !! k) <-> (0 <= k <= 10)%Z.

(** What the scoring loop keeps true. *)
Definition tally_ok (t : Tally) : Prop :=
  t_detratores t + t_neutros t + t_promotores t = t_totalRespostas t
  /\ grades_0_to_10 (t_respostasPorNota t).

(** The unit roundoff and the half of the least subnormal. *)
Definition u64 : Q := (2 ^ (-53))%Q.
Definition eta64 : Q := (2 ^ (-1075))%Q.

(** A record whose keys leave the inherited [hasOwnProperty] visible. *)
Definition plain (row : Obj.t) : Prop := Obj.has "hasOwnProperty" row = false.

(** ** npsUtils.ts: the qualitative classification *)

(** [x < y]; every comparison with [NaN] is false. *)
Definition num_ltb (x y : number) : bool :=
  match x, y with
  | NaN, _ | _, NaN => false
  | PInf, _ => false
  | _, NInf => false
  | NInf, _ => true
  | Fin _, PInf => true
  | Fin a, Fin b => negb (Qle_bool b a)
  end.

(** [x > y] *)
Definition num_gtb (x y : number) : bool := num_ltb y x.

Definition getNPSClassification (score : number) : string :=
  if num_ltb score (Num.of_Z 0) then "Crítico"
  else if Num.geb score (Num.of_Z 0) && Num.leb score (Num.of_Z 30) then "Ruim"
  else if num_gtb score (Num.of_Z 30) && Num.leb score (Num.of_Z 50) then "Bom"
  else if num_gtb score (Num.of_Z 50) && Num.leb score (Num.of_Z 75) then "Muito Bom"
  else "Excelente".

Definition getNPSColor (score : number) : string :=
  if num_ltb score (Num.of_Z 0) then "#FF4136"
  else if Num.geb score (Num.of_Z 0) && Num.leb score (Num.of_Z 30) then "#FF851B"
  else if num_gtb score (Num.of_Z 30) && Num.leb score (Num.of_Z 50) then "#FFDC00"
  else if num_gtb score (Num.of_Z 50) && Num.leb score (Num.of_Z 75) then "#2ECC40"
  else "#0074D9".

(** The colour that goes with each classification. *)
Definition classification_colour : list (string * string) :=
  [ ("Crítico", "#FF4136"); ("Ruim", "#FF851B"); ("Bom", "#FFDC00");
    ("Muito Bom", "#2ECC40"); ("Excelente", "#0074D9") ].
(** ** Reference definitions for the scoring loop *)

(** The valid values the loop of [calculateNPS] meets, in the order it
    meets them: record by record, column by column. *)
Definition scored_values (data : list Obj.t) (cols : list string) : list Q :=
  flat_map (fun row => flat_map (fun c => valid_value_of c row) cols) data.

(** The raw text of a cell that counts as an invalid response. *)
Definition failed_raw_of (row : Obj.t) (column : string) : list string :=
  if failed_cell row column then
    match Obj.get row column with
    | Some raw => [raw]
    | None => []
    end
  else [].

(** The raw texts of the invalid responses, in loop order, repeats kept. *)
Definition failed_raws (data : list Obj.t) (cols : list string) : list string :=
  flat_map (fun row => flat_map (failed_raw_of row) cols) data.

(** The grade a valid value is filed under. *)
Definition grade (x : Q) : Z := Num.round_half_up x.

(** How many values of a list are filed under the grade [k]. *)
Definition count_grade (k : Z) (xs : list Q) : nat :=
  length (List.filter (fun x => (grade x =? k)%Z) xs).

Definition is_category (c : NPSCategory) (x : Q) : bool :=
  match getNPSCategory (Fin x), c with
  | DETRATOR, DETRATOR | NEUTRO, NEUTRO | PROMOTOR, PROMOTOR => true
  | _, _ => false
  end.

(** How many values of a list fall in the category [c]. *)
Definition count_category (c : NPSCategory) (xs : list Q) : nat :=
  length (List.filter (is_category c) xs).

(** The count of a histogram bucket, [0] for a missing key. *)
Definition bucket (m : gmap Z nat) (k : Z) : nat := default 0 (m !! k).
(** ** Reference definitions for the column identifier *)

(** The name of a column suggests a score ([isNameSuggestive]). *)
Definition suggestive (column : string) : bool :=
  existsb (fun name => Str.includes (Str.toLowerCase column) name)
          possibleColumnNames.

(** The three rules of [identifyNPSColumns] in one: the expected range, and
    at least 10 percent of valid values under a suggestive name, 50 percent
    under any other. *)
Definition qualifies (st : ColumnStats) (column : string) : bool :=
  hasExpectedRange st
  && Num.geb (validPercentage st)
             (Num.of_Z (if suggestive column then 10 else 50)).

(** The same, on the statistics [analyzeColumnValues] computes. *)
Definition column_qualifies (data : list Obj.t) (column : string) : bool :=
  match analyzeColumnValues data column with
  | Ok st => qualifies st column
  | Throw _ => false
  end.

Definition not_rowId (column : string) : bool := negb (String.eqb column "_rowId").
(** ** More inputs of worked examples *)

Module Survey.

(** Five answers under a suggestive header, one unparseable, one blank, and
    a comment column with keywords. *)
Definition records : list Obj.t :=
  [ [("Nome", "Ana"); ("Nota NPS", "9"); ("Comentario", "bom"); ("_rowId", "row_1")];
    [("Nome", "Bia"); ("Nota NPS", "10"); ("Comentario", "otimo"); ("_rowId", "row_2")];
    [("Nome", "Caio"); ("Nota NPS", "abc"); ("Comentario", "ruim"); ("_rowId", "row_3")];
    [("Nome", "Dani"); ("Nota NPS", ""); ("Comentario", ""); ("_rowId", "row_4")];
    [("Nome", "Edu"); ("Nota NPS", "3"); ("Comentario", "x"); ("_rowId", "row_5")] ].

Definition identified : IdentifiedColumns :=
  {| columns := ["Nota NPS"; "Comentario"];
     stats := {| analyzedColumns := ["Nome"; "Nota NPS"; "Comentario"] |} |}.

End Survey.

(** ** Reference definitions for the tokenizer and the table builder *)

(** A byte that belongs to no white-space character: an ASCII character
    other than the six one-byte white spaces. *)
Definition solid (c : ascii) : Prop :=
  (Str.code c < 128)%N /\ Str.is_ws1 c = false.

(** No white-space character at the head of a list of bytes. *)
Definition head_ok (l : list ascii) : Prop :=
  match l with
  | [] => True
  | c1 :: r1 =>
    Str.is_ws1 c1 = false
    /\ match r1 with
       | [] => True
       | c2 :: r2 =>
         Str.is_ws2 c1 c2 = false
         /\ match r2 with
            | [] => True
            | c3 :: _ => Str.is_ws3 c1 c2 c3 = false
            end
       end
  end.

(** The same for a reversed list: no white-space character at the end. *)
Definition end_ok (l : list ascii) : Prop :=
  match l with
  | [] => True
  | c1 :: r1 =>
    Str.is_ws1 c1 = false
    /\ match r1 with
       | [] => True
       | c2 :: r2 =>
         Str.is_ws2 c2 c1 = false
         /\ match r2 with
            | [] => True
            | c3 :: _ => Str.is_ws3 c3 c2 c1 = false
            end
       end
  end.
(** The header row as [csvToObjects] normalizes it. *)
Definition normalized_headers (headers : list string) : list string :=
  map_indexed (fun header index =>
                 if Str.is_empty header || Str.blank header
                 then ("coluna_" ++ decimal (index + 1))%string
                 else Str.trim header)
              headers.

(** The record [csvToObjects] builds for the data row [row] at [rowIndex]. *)
Definition record_of (headers : list string) (row : list string) (rowIndex : nat)
  : Obj.t :=
  Obj.set "_rowId" ("row_" ++ decimal (rowIndex + 1))%string
    (fold_left (fun obj (p : nat * string) =>
                  let '(index, header) := p in
                  Obj.set header (nth index row "") obj)
               (combine (seq 0 (length (normalized_headers headers)))
                        (normalized_headers headers))
               []).

(** The object that the entries of [o] build, assigned one after the other
    to an empty object. *)
Definition assigned (o : Obj.t) : Obj.t :=
  fold_left (fun acc (e : string * string) => Obj.set (fst e) (snd e) acc) o [].

(** [o] lists its properties as an object holds them: distinct keys in
    own-property order, and no own [__proto__]. *)
Definition well_formed (o : Obj.t) : Prop := assigned o = o.

Definition map_values (f : string -> string) (o : Obj.t) : Obj.t :=
  map (fun e : string * string => (fst e, f (snd e))) o.

(** Some value of the record is not blank (the test of [cleanSheetData]). *)
Definition has_content (row : Obj.t) : bool :=
  existsb (fun value => negb (Str.blank value)) (Obj.values row).
(** A field as it may stand in a raw line: bare, or between two quotes. *)
Inductive field : Type :=
  | Bare (text : string)
  | Quoted (text : string).

Definition field_text (f : field) : string :=
  match f with Bare t | Quoted t => t end.

Definition raw_field (f : field) : string :=
  match f with
  | Bare t => t
  | Quoted t => String Str.QUOTE (t ++ String Str.QUOTE EmptyString)
  end.

(** The fields of a line, written with [separator] between them. *)
Definition raw_line (separator : ascii) (fields : list field) : string :=
  String.concat (String separator EmptyString) (map raw_field fields).

(** What a text needs for [raw_field] to represent it: no quote inside; no
    separator when bare; something between the quotes when quoted. *)
Definition field_ok (separator : ascii) (f : field) : Prop :=
  match f with
  | Bare t => Str.count_char Str.QUOTE t = 0%nat
              /\ Str.count_char separator t = 0%nat
  | Quoted t => Str.count_char Str.QUOTE t = 0%nat /\ t <> EmptyString
  end.

(** ** The address of the sheet *)

(** The regular expressions of [convertToCSVUrl] have one shape: a literal
    text, the identifier [([a-zA-Z0-9-_]+)], a literal text. *)
Record url_pattern : Type := {
  before : string;
  after : string
}.

Module patterns.

Definition edit : url_pattern :=
  {| before := "https://docs.google.com/spreadsheets/d/"; after := "/edit" |}.

Definition published : url_pattern :=
  {| before := "https://docs.google.com/spreadsheets/d/e/"; after := "/pub" |}.

Definition form : url_pattern :=
  {| before := "https://docs.google.com/forms/d/"; after := "" |}.

Definition export : url_pattern :=
  {| before := "https://docs.google.com/spreadsheets/d/"; after := "/export" |}.

End patterns.

(** The class [[a-zA-Z0-9-_]]: letters, digits, hyphen and underscore. *)
Definition id_char (c : ascii) : bool :=
  let n := Str.code c in
  ((97 <=? n) && (n <=? 122) || (65 <=? n) && (n <=? 90)
   || (48 <=? n) && (n <=? 57) || (n =? 45) || (n =? 95))%N.

(** The longest run of identifier characters at the head of [s], and the
    rest. *)
Fixpoint span_id (s : string) : string * string :=
  match s with
  | String c r =>
    if id_char c then let '(id, rest) := span_id r in (String c id, rest)
    else (EmptyString, s)
  | EmptyString => (EmptyString, EmptyString)
  end.

(** [s] without the literal [p] at its head, when it stands there. *)
Fixpoint drop_prefix (p s : string) : option string :=
  match p, s with
  | EmptyString, _ => Some s
  | String a p', String b s' => if Ascii.eqb a b then drop_prefix p' s' else None
  | String _ _, EmptyString => None
  end.

(** A match of the pattern at the head of [s], with its captured identifier.
    The identifier is the whole run: a shorter one is followed by a
    character of the class, where the literals go on with a slash (or, for
    the form pattern, the longer run matches anyway). *)
Definition match_here (pat : url_pattern) (s : string) : option string :=
  match drop_prefix (before pat) s with
  | Some r =>
    let '(id, rest) := span_id r in
    if negb (Str.is_empty id) && Str.starts_with (after pat) rest
    then Some id else None
  | None => None
  end.

(** [s.match(pat)]: the first position with a match decides; the result is
    the captured identifier, [None] when there is no match. *)
Fixpoint regex_match (pat : url_pattern) (s : string) : option string :=
  match match_here pat s with
  | Some id => Some id
  | None =>
    match s with
    | EmptyString => None
    | String _ r => regex_match pat r
    end
  end.

(** [pat.test(s)] *)
Definition regex_test (pat : url_pattern) (s : string) : bool :=
  match regex_match pat s with Some _ => true | None => false end.

(** [url] with the parameter [param] added: after [&] when the address has
    a question mark already, after [?] otherwise. *)
Definition with_parameter (url param : string) : string :=
  if Str.includes url "?" then (url ++ "&" ++ param)%string
  else (url ++ "?" ++ param)%string.

(** [convertToCSVUrl]; [None] is [null].  Nothing in the body throws, so
    the [catch] is never entered. *)
Definition convertToCSVUrl (url : string) : option string :=
  if Str.is_empty url || Str.blank url then None
  else if regex_test patterns.export url then
    if Str.includes url "format=csv" then Some url
    else Some (with_parameter url "format=csv")
  else
    match regex_match patterns.edit url with
    | Some id =>
      Some ("https://docs.google.com/spreadsheets/d/" ++ id
            ++ "/export?format=csv")%string
    | None =>
      match regex_match patterns.published url with
      | Some _ =>
        if Str.includes url "output=csv" then Some url
        else Some (with_parameter url "output=csv")
      | None =>
        match regex_match patterns.form url with
        | Some _ => None
        | None => None
        end
      end
    end.

(** [validateUrl] of the page, which tests the same patterns. *)
Definition validateUrl (url : string) : bool :=
  if Str.is_empty url || Str.blank url then false
  else regex_test patterns.edit url
       || regex_test patterns.published url
       || regex_test patterns.export url.

Fixpoint last_char (s : string) : option ascii :=
  match s with
  | EmptyString => None
  | String c EmptyString => Some c
  | String _ r => last_char r
  end.

(** The rows of a table, written one per line. *)
Definition raw_text (separator : ascii) (rows : list (list field)) : string :=
  String.concat (String Str.LF EmptyString) (map (raw_line separator) rows).

(** What a row needs to stand on a line of its own and be read back: fields
    that [raw_field] represents, at least one of them; a line that is not
    blank, holds no line feed and does not end with a carriage return. *)
Definition row_ok (separator : ascii) (row : list field) : Prop :=
  row <> []
  /\ List.Forall (field_ok separator) row
  /\ Str.blank (raw_line separator row) = false
  /\ Str.count_char Str.LF (raw_line separator row) = 0%nat
  /\ last_char (raw_line separator row) <> Some Str.CR.

(** The order [Object.keys] gives: the array indices first, ascending from
    above [lo], then the keys that are no array index. *)
Fixpoint key_order (lo : Z) (ks : list string) : Prop :=
  match ks with
  | [] => True
  | k :: r =>
    match Obj.array_index k with
    | Some i => (lo < i)%Z /\ key_order i r
    | None => List.Forall (fun k' => Obj.array_index k' = None) r
    end
  end.

(** The own properties of [o] are listed as an object holds them. *)
Definition ordered (o : Obj.t) : Prop :=
  NoDup (Obj.keys o)
  /\ ~ In "__proto__" (Obj.keys o)
  /\ key_order (-1) (Obj.keys o).

(** ** getSheetInfo *)

(** The properties every plain object inherits from [Object.prototype]. *)
Definition object_prototype_members : list string :=
  [ "constructor"; "__defineGetter__"; "__defineSetter__"; "hasOwnProperty";
    "__lookupGetter__"; "__lookupSetter__"; "isPrototypeOf";
    "propertyIsEnumerable"; "toString"; "valueOf"; "__proto__";
    "toLocaleString" ].

(** What [row[column]] gives: an own string, a function or object found on
    the prototype, or [undefined]. *)
Inductive looked_up : Type :=
  | Own (v : string)
  | Inherited
  | Undefined.

Definition lookup (o : Obj.t) (k : string) : looked_up :=
  match Obj.get o k with
  | Some v => Own v
  | None =>
    if existsb (String.eqb k) object_prototype_members then Inherited
    else Undefined
  end.

Definition nonempty {A : Type} (l : list A) : bool :=
  match l with [] => false | _ :: _ => true end.

Definition strip_sign (s : string) : string :=
  match s with
  | String c r => if Ascii.eqb c "+" || Ascii.eqb c "-" then r else s
  | EmptyString => s
  end.

(** The rest of a decimal literal after its digits: nothing, or an exponent
    part that ends the text. *)
Definition exponent_part_opt (s : string) : bool :=
  match s with
  | EmptyString => true
  | String c r =>
    (Ascii.eqb c "e" || Ascii.eqb c "E")
    && (let '(xs, rest) := Str.span_digits (strip_sign r) in
        nonempty xs && Str.is_empty rest)
  end.

(** [StrUnsignedDecimalLiteral]: [Infinity], or digits with an optional
    fraction and exponent, a digit on one side of the point at least. *)
Definition unsigned_decimal_literal (s : string) : bool :=
  String.eqb s "Infinity"
  || (let '(ds, rest) := Str.span_digits s in
      match rest with
      | String c r2 =>
        if Ascii.eqb c "."
        then let '(fs, rest2) := Str.span_digits r2 in
             (nonempty ds || nonempty fs) && exponent_part_opt rest2
        else nonempty ds && exponent_part_opt rest
      | EmptyString => nonempty ds
      end).

Definition is_binary_digit (c : ascii) : bool :=
  Ascii.eqb c "0" || Ascii.eqb c "1".

Definition is_octal_digit (c : ascii) : bool :=
  let n := Str.code c in ((48 <=? n) && (n <=? 55))%N.

Definition is_hex_digit (c : ascii) : bool :=
  let n := Str.code c in
  ((48 <=? n) && (n <=? 57) || (97 <=? n) && (n <=? 102)
   || (65 <=? n) && (n <=? 70))%N.

Definition digits_of (ok : ascii -> bool) (s : string) : bool :=
  negb (Str.is_empty s) && forallb ok (Str.to_list s).

(** [NonDecimalIntegerLiteral]: binary, octal or hexadecimal, unsigned. *)
Definition non_decimal_literal (s : string) : bool :=
  match s with
  | String z (String p r) =>
    Ascii.eqb z "0"
    && ((Ascii.eqb p "b" || Ascii.eqb p "B") && digits_of is_binary_digit r
        || (Ascii.eqb p "o" || Ascii.eqb p "O") && digits_of is_octal_digit r
        || (Ascii.eqb p "x" || Ascii.eqb p "X") && digits_of is_hex_digit r)
  | _ => false
  end.

(** [!isNaN(Number(value))] for a string: between white space, nothing or
    a numeric literal. *)
Definition is_number_text (value : string) : bool :=
  let t := Str.trim value in
  Str.is_empty t
  || unsigned_decimal_literal (strip_sign t)
  || non_decimal_literal t.

Definition is_date_separator (c : ascii) : bool :=
  Ascii.eqb c "-" || Ascii.eqb c "/".

Definition between (lo hi n : nat) : bool := ((lo <=? n) && (n <=? hi))%nat.

(** [datePattern.test(value)]: one to four digits, one or two, one to four,
    with a hyphen or a slash after the first and the second run. *)
Definition is_date_text (value : string) : bool :=
  let '(d1, r1) := Str.span_digits value in
  match r1 with
  | String s1 r1' =>
    between 1 4 (length d1) && is_date_separator s1
    && (let '(d2, r2) := Str.span_digits r1' in
        match r2 with
        | String s2 r2' =>
          between 1 2 (length d2) && is_date_separator s2
          && (let '(d3, r3) := Str.span_digits r2' in
              between 1 4 (length d3) && Str.is_empty r3)
        | EmptyString => false
        end)
  | EmptyString => false
  end.

Module Info.

Record t : Type := {
  rowCount : nat;
  columnCount : nat;
  columns : list string;
  (** [None] when the key is absent: the result for no data. *)
  columnTypes : option Obj.t
}.

End Info.

(** [allColumns.add(key)] on the keys seen so far, in insertion order. *)
Definition add_column (seen : list string) (key : string) : list string :=
  if existsb (String.eqb key) seen then seen else seen ++ [key].

Definition all_columns (data : list Obj.t) : list string :=
  fold_left (fun seen row => fold_left add_column (Obj.keys row) seen) data [].

(** The filter on the cells of a column: [undefined] and blank texts are
    dropped; an inherited member has no [trim] to call. *)
Fixpoint filter_values (cells : list looked_up) : result (list string) :=
  match cells with
  | [] => Ok []
  | Undefined :: r => filter_values r
  | Inherited :: _ => Throw TypeError
  | Own v :: r =>
    if Str.blank v then filter_values r
    else values ← filter_values r; Ok (v :: values)
  end.

Definition column_type (values : list string) : string :=
  if (length values =? 0)%nat then "empty"
  else if forallb is_number_text values then "number"
  else if forallb is_date_text values then "date"
  else "text".

Definition type_column (data : list Obj.t) (columnTypes : Obj.t) (column : string)
  : result Obj.t :=
  values ← filter_values (map (fun row => lookup row column) data);
  Ok (Obj.set column (column_type values) columnTypes).

Definition getSheetInfo (data : list Obj.t) : result Info.t :=
  match data with
  | [] => Ok {| Info.rowCount := 0; Info.columnCount := 0;
                Info.columns := []; Info.columnTypes := None |}
  | _ =>
    let columns :=
      List.filter (fun key => negb (String.eqb key "_rowId")) (all_columns data) in
    columnTypes ← for_of (type_column data) columns [];
    Ok {| Info.rowCount := length data; Info.columnCount := length columns;
          Info.columns := columns; Info.columnTypes := Some columnTypes |}
  end.
(** The values [getSheetInfo] keeps of a column: the own cells that are not
    blank. *)
Definition column_values (data : list Obj.t) (column : string) : list string :=
  flat_map (fun row =>
              match lookup row column with
              | Own v => if Str.blank v then [] else [v]
              | _ => []
              end)
           data.

(** The columns [getSheetInfo] lists. *)
Definition listed_columns (data : list Obj.t) : list string :=
  List.filter (fun key => negb (String.eqb key "_rowId")) (all_columns data).

(** Some record has an own property named [hasOwnProperty]. *)
Definition shadowed (data : list Obj.t) : bool :=
  existsb (Obj.has "hasOwnProperty") data.

(** The first record has a key that [identifyNPSColumns] analyses. *)
Definition has_column (data : list Obj.t) : bool :=
  match data with
  | [] => false
  | firstRow :: _ =>
    existsb (fun key => negb (String.eqb key "_rowId")) (Obj.keys firstRow)
  end.

(** * Properties *)

(** ** Numbers and comparisons *)

Lemma Qle_bool_inject_Z (a b : Z) :
  Qle_bool (inject_Z a) (inject_Z b) = (a <=? b)%Z.
Proof.
  destruct (Z.leb_spec a b) as [H|H].
  - apply Qle_bool_iff. rewrite <- Zle_Qle. exact H.
  - destruct (Qle_bool (inject_Z a) (inject_Z b)) eqn:E; [|reflexivity].
    apply Qle_bool_iff in E. rewrite <- Zle_Qle in E. lia.
Qed.

(** [Math.round] picks the integer [r] with [r - 1/2 <= v < r + 1/2]. *)
Lemma round_half_up_spec (v : Q) :
  (inject_Z (Num.round_half_up v) - (1 # 2) <= v)%Q
  /\ (v < inject_Z (Num.round_half_up v) + (1 # 2))%Q.
Proof.
  unfold Num.round_half_up.
  pose proof (Qfloor_le (v + (1 # 2))) as Hle.
  pose proof (Qlt_floor (v + (1 # 2))) as Hlt.
  rewrite inject_Z_plus in Hlt. change (inject_Z 1) with 1%Q in Hlt.
  split; lra.
Qed.

Lemma round_half_up_range (v : Q) (lo hi : Z) :
  (inject_Z lo <= v)%Q -> (v <= inject_Z hi)%Q ->
  (lo <= Num.round_half_up v <= hi)%Z.
Proof.
  intros Hlo Hhi. destruct (round_half_up_spec v) as [H1 H2].
  split.
  - assert (inject_Z lo < inject_Z (Num.round_half_up v) + 1)%Q as H by lra.
    rewrite <- (inject_Z_plus _ 1) in H. rewrite <- Zlt_Qlt in H. lia.
  - assert (inject_Z (Num.round_half_up v) < inject_Z hi + 1)%Q as H by lra.
    rewrite <- (inject_Z_plus _ 1) in H. rewrite <- Zlt_Qlt in H. lia.
Qed.

(** ** getNPSCategory *)

Lemma getNPSCategory_Fin (v : Q) :
  getNPSCategory (Fin v) =
  let r := Num.round_half_up v in
  if ((0 <=? r) && (r <=? 6))%Z then DETRATOR
  else if ((7 <=? r) && (r <=? 8))%Z then NEUTRO
  else if ((9 <=? r) && (r <=? 10))%Z then PROMOTOR
  else NEUTRO.
Proof.
  unfold getNPSCategory, Num.Math_round, Num.geb, Num.leb, Num.of_Z. simpl.
  rewrite !Qle_bool_inject_Z. reflexivity.
Qed.

(** C1.  [getNPSCategory] rounds first ([r] is the integer nearest to [v],
    ties upwards) and sorts the rounded value into exactly one category:
    Detractor exactly for rounded 0..6, Promoter exactly for rounded 9..10,
    Passive for rounded 7..8 and for every rounded value outside 0..10.  A
    score between 0 and 10 rounds into 0..10, so none is left outside the
    three bands.  [NaN] and the infinities are Passive as well. *)
Theorem getNPSCategory_partition (v : Q) :
  let r := Num.round_half_up v in
  ((inject_Z r - (1 # 2) <= v)%Q /\ (v < inject_Z r + (1 # 2))%Q)
  /\ ((0 <= v)%Q /\ (v <= 10)%Q -> (0 <= r <= 10)%Z)
  /\ (getNPSCategory (Fin v) = DETRATOR <-> (0 <= r <= 6)%Z)
  /\ (getNPSCategory (Fin v) = PROMOTOR <-> (9 <= r <= 10)%Z)
  /\ (getNPSCategory (Fin v) = NEUTRO <-> ((7 <= r <= 8)%Z \/ (r < 0)%Z \/ (10 < r)%Z))
  /\ getNPSCategory NaN = NEUTRO
  /\ getNPSCategory PInf = NEUTRO
  /\ getNPSCategory NInf = NEUTRO.
Proof.
  intros r. split; [apply round_half_up_spec|].
  split.
  { intros [H0 H10]. apply round_half_up_range; assumption. }
  rewrite getNPSCategory_Fin. fold r. cbv zeta.
  destruct (Z.leb_spec 0 r), (Z.leb_spec r 6), (Z.leb_spec 7 r),
    (Z.leb_spec r 8), (Z.leb_spec 9 r), (Z.leb_spec r 10); simpl;
    repeat split; intros; try lia; try discriminate; try reflexivity.
Qed.

Lemma getNPSCategory_partition_witness :
  getNPSCategory (Fin (13 # 2)) = NEUTRO /\ getNPSCategory (Fin (64 # 10)) = DETRATOR.
Proof.
  split.
  - destruct (getNPSCategory_partition (13 # 2)) as (_ & _ & _ & _ & HN & _).
    apply HN. left. vm_compute. split; discriminate.
  - destruct (getNPSCategory_partition (64 # 10)) as (_ & _ & HD & _).
    apply HD. vm_compute. split; discriminate.
Defined.

(** ** The keyword table of parseNPSValue *)

Lemma includes_unfold (s p : string) :
  Str.includes s p =
  Str.starts_with p s
  || match s with
     | EmptyString => false
     | String _ s' => Str.includes s' p
     end.
Proof. destruct s; reflexivity. Qed.

Lemma starts_with_app_includes (p1 p2 : string) :
  forall s, Str.starts_with (p1 ++ p2)%string s = true -> Str.includes s p2 = true.
Proof.
  induction p1 as [|a p1 IH]; intros s H; rewrite includes_unfold.
  - change (Str.starts_with p2 s = true) in H. rewrite H. reflexivity.
  - destruct s as [|b s]; [discriminate H|].
    change (Ascii.eqb a b && Str.starts_with (p1 ++ p2)%string s = true) in H.
    apply andb_true_iff in H as [_ H]. rewrite (IH s H). apply orb_true_r.
Qed.

(** A text that includes [p1 ++ p2] includes [p2]. *)
Lemma includes_app_r (p1 p2 : string) :
  forall s, Str.includes s (p1 ++ p2)%string = true -> Str.includes s p2 = true.
Proof.
  induction s as [|c s IH]; intros H; rewrite includes_unfold in H;
    apply orb_true_iff in H as [H|H].
  - exact (starts_with_app_includes p1 p2 _ H).
  - discriminate H.
  - exact (starts_with_app_includes p1 p2 _ H).
  - rewrite includes_unfold, (IH H). apply orb_true_r.
Qed.

(** No text reaches the entry [muito bom] of the table: a text that includes
    it includes [bom], and the loop stops there or before, on a value of at
    most 8. *)
Lemma keyword_muito_bom_shadowed (lowerValue : string) :
  Str.includes lowerValue "muito bom" = true ->
  exists v, keyword_value lowerValue = Some v /\ (v <= 8)%Z.
Proof.
  intros H. apply (includes_app_r "muito " "bom") in H.
  unfold keyword_value, wordToValue. cbn [find fst snd]. rewrite H.
  repeat match goal with
         | |- context [if Str.includes lowerValue ?w then _ else _] =>
           destruct (Str.includes lowerValue w)
         end; cbn; eexists; (split; [reflexivity | lia]).
Qed.

(** C5.  On the text [muito bom] the keyword fallback stops at the keyword
    [bom], which stands before [muito bom] in the table: the parse is the
    valid value 8, and the value 9 of the entry [muito bom] is not taken. *)
Theorem parseNPSValue_muito_bom :
  parseNPSValue (JStr "muito bom") = {| valid := true; value := Some 8%Q |}
  /\ find (fun entry => Str.includes "muito bom" (fst entry)) wordToValue
     = Some ("bom", 8%Z).
Proof. split; vm_compute; reflexivity. Qed.

(** ** The pipeline on a row of separators *)

(** C6.  On the text [a,b / 1,2 / ,, / 3,4] the row of separators comes out
    of [parseCSV] as three empty cells, [csvToObjects] gives it the
    identifier [row_2], and [cleanSheetData] keeps it: three records are
    left, the second with empty [a] and [b]. *)
Theorem cleanSheetData_keeps_separator_row :
  cleanSheetData (csvToObjects (parseCSV Examples.blank_row_text))
  = [ [("a", "1"); ("b", "2"); ("_rowId", "row_1")];
      [("a", ""); ("b", ""); ("_rowId", "row_2")];
      [("a", "3"); ("b", "4"); ("_rowId", "row_3")] ].
Proof. vm_compute. reflexivity. Qed.

(** ** Quoted fields *)


(** ** detectSeparator *)

Lemma detectSeparator_cases (csvText : string) :
  detectSeparator csvText =
  if Str.blank csvText then ","%char
  else
    match first_line csvText with
    | None => ","%char
    | Some line =>
      let c := Str.count_char "," line in
      let s := Str.count_char ";" line in
      let t := Str.count_char Str.TAB line in
      if (c <? s)%nat then (if (s <? t)%nat then Str.TAB else ";"%char)
      else (if (c <? t)%nat then Str.TAB else ","%char)
    end.
Proof.
  unfold detectSeparator, first_line.
  destruct (Str.blank csvText); [reflexivity|].
  destruct (find _ _) as [line|]; [|reflexivity].
  generalize (Str.count_char "," line), (Str.count_char ";" line),
    (Str.count_char Str.TAB line).
  intros c s t. cbn [fold_left].
  destruct (Nat.ltb_spec 0 c); cbn [snd];
    destruct (Nat.ltb_spec c s); cbn [snd];
    repeat match goal with
           | |- context [(?a <? ?b)%nat] => destruct (Nat.ltb_spec a b)
           end; cbn [snd]; try reflexivity; lia.
Qed.

(** C8, the claim as stated fails: on a first line with two semicolons, two
    tabs and one comma the answer is the semicolon, not the comma. *)
Lemma detectSeparator_tie_counterexample :
  Str.count_char ";" Examples.tie_line = 2
  /\ Str.count_char Str.TAB Examples.tie_line = 2
  /\ Str.count_char "," Examples.tie_line = 1
  /\ detectSeparator Examples.tie_line = ";"%char
  /\ detectSeparator Examples.tie_line <> ","%char.
Proof. vm_compute. repeat split; discriminate. Qed.

(** C8, amended.  [detectSeparator] answers the comma on a blank text.
    Otherwise it counts comma, semicolon and tab on the first non-blank line
    and answers the first of the three, in that order, whose count is the
    greatest: the comma unless another count is strictly above it, the
    semicolon when it is strictly above the comma and not below the tab, the
    tab when it is strictly above both. *)
Theorem detectSeparator_first_maximum (csvText : string) :
  (Str.blank csvText = true -> detectSeparator csvText = ","%char)
  /\ (Str.blank csvText = false ->
      match first_line csvText with
      | None => detectSeparator csvText = ","%char
      | Some line =>
        let c := Str.count_char "," line in
        let s := Str.count_char ";" line in
        let t := Str.count_char Str.TAB line in
        (s <= c /\ t <= c -> detectSeparator csvText = ","%char)
        /\ (c < s /\ t <= s -> detectSeparator csvText = ";"%char)
        /\ (c < t /\ s < t -> detectSeparator csvText = Str.TAB)
      end).
Proof.
  rewrite detectSeparator_cases.
  split; intros Hb; rewrite Hb; [reflexivity|].
  destruct (first_line csvText) as [line|]; [|reflexivity].
  cbv zeta.
  destruct (Nat.ltb_spec (Str.count_char "," line) (Str.count_char ";" line)),
    (Nat.ltb_spec (Str.count_char ";" line) (Str.count_char Str.TAB line)),
    (Nat.ltb_spec (Str.count_char "," line) (Str.count_char Str.TAB line));
    repeat split; intros; try reflexivity; lia.
Qed.

Lemma detectSeparator_first_maximum_witness :
  detectSeparator Examples.tie_line = ";"%char.
Proof.
  destruct (detectSeparator_first_maximum Examples.tie_line) as [_ H].
  apply H; [reflexivity|]. vm_compute. lia.
Defined.

(** ** Exceptions *)

Lemma bind_Ok {A B : Type} (m : result A) (f : A -> result B) (b : B) :
  (m ≫= f) = Ok b -> exists a, m = Ok a /\ f a = Ok b.
Proof. destruct m as [a|e]; [intros H; exists a; auto | discriminate]. Qed.

Lemma hasOwnProperty_Ok (row : Obj.t) (k : string) (b : bool) :
  Obj.hasOwnProperty row k = Ok b -> b = Obj.has k row.
Proof.
  unfold Obj.hasOwnProperty. destruct (Obj.has "hasOwnProperty" row);
    [discriminate | congruence].
Qed.

(** ** parseNPSValue *)

Lemma range_checked_valid (n : number) :
  valid (range_checked n) = true ->
  exists q, value (range_checked n) = Some q /\ (0 <= q)%Q /\ (q <= 10)%Q.
Proof.
  unfold range_checked. cbn [valid value].
  destruct n as [| | |q]; cbn; try discriminate.
  intros H. rewrite H. apply andb_true_iff in H as [H0 H10].
  apply Qle_bool_iff in H0, H10. exists q. auto.
Qed.

Lemma range_checked_invalid (n : number) :
  valid (range_checked n) = false -> value (range_checked n) = None.
Proof. unfold range_checked. cbn [valid value]. intros ->. reflexivity. Qed.

(** A valid parse carries a value between 0 and 10; an invalid one carries
    none. *)
Lemma parseNPSValue_cases (v : jsval) :
  (valid (parseNPSValue v) = true
   /\ exists q, value (parseNPSValue v) = Some q /\ (0 <= q)%Q /\ (q <= 10)%Q)
  \/ (valid (parseNPSValue v) = false /\ value (parseNPSValue v) = None).
Proof.
  assert (forall n,
    (valid (range_checked n) = true
     /\ exists q, value (range_checked n) = Some q /\ (0 <= q)%Q /\ (q <= 10)%Q)
    \/ (valid (range_checked n) = false /\ value (range_checked n) = None)) as Hrc.
  { intros n. destruct (valid (range_checked n)) eqn:E.
    - left. split; [reflexivity|]. apply range_checked_valid, E.
    - right. split; [reflexivity|]. apply range_checked_invalid, E. }
  destruct v as [| |n|s]; cbn [parseNPSValue]; auto.
  destruct (Str.is_empty s); auto.
Qed.

(** ** analyzeColumnValues *)

Lemma scan_column_loop (column : string) (data : list Obj.t) :
  forall vc sum values vc' sum' values',
  for_of (scan_column column) data (vc, sum, values) = Ok (vc', sum', values') ->
  vc' = vc + length (valid_values data column)
  /\ values' = values ++ valid_values data column.
Proof.
  induction data as [|row data IH]; intros vc sum values vc' sum' values' H.
  - cbn in H. injection H as <- <- <-. cbn. rewrite app_nil_r. split; [lia|reflexivity].
  - cbn [for_of] in H. apply bind_Ok in H as ([[vc1 sum1] values1] & Hrow & Hrest).
    apply IH in Hrest as [-> ->].
    unfold scan_column in Hrow. apply bind_Ok in Hrow as (own & Hown & Hrow).
    apply hasOwnProperty_Ok in Hown. subst own.
    cbn [valid_values flat_map]. fold (valid_values data column).
    unfold valid_value_of.
    destruct (Obj.has column row).
    + set (r := parseNPSValue _) in *.
      destruct (valid r); [destruct (value r)|]; injection Hrow as <- <- <-;
        rewrite ?length_app; cbn [length app]; rewrite <- ?app_assoc;
        cbn [app]; split; try reflexivity; lia.
    + injection Hrow as <- <- <-. cbn [app]. split; reflexivity.
Qed.

Lemma scan_ranges_loop (values : list Q) :
  forall l m h,
  fold_left scan_ranges values (l, m, h)
  = (l || existsb low_value values, m || existsb mid_value values,
     h || existsb high_value values).
Proof.
  induction values as [|x values IH]; intros l m h; cbn [fold_left existsb].
  - rewrite !orb_false_r. reflexivity.
  - unfold scan_ranges at 2. rewrite IH. fold (low_value x) (mid_value x) (high_value x).
    destruct (low_value x), (mid_value x), (high_value x), l, m, h; reflexivity.
Qed.

Lemma existsb_orb {A : Type} (f g : A -> bool) (l : list A) :
  existsb (fun x => f x || g x) l = existsb f l || existsb g l.
Proof.
  induction l as [|x l IH]; [reflexivity|]. cbn [existsb]. rewrite IH.
  destruct (f x), (g x), (existsb f l), (existsb g l); reflexivity.
Qed.

Lemma sub_range_bool (x : Q) :
  low_value x || mid_value x || high_value x = true <-> in_sub_range x.
Proof.
  unfold low_value, mid_value, high_value, in_sub_range.
  rewrite !orb_true_iff, !andb_true_iff, !Qle_bool_iff. tauto.
Qed.

Lemma integer_in_sub_range (x : Q) :
  is_integer x -> (0 <= x)%Q -> (x <= 10)%Q -> in_sub_range x.
Proof.
  intros [z Hz] H0 H10. unfold in_sub_range. rewrite Hz in *.
  change 0%Q with (inject_Z 0) in *. change 10%Q with (inject_Z 10) in H10.
  change 3%Q with (inject_Z 3). change 4%Q with (inject_Z 4).
  change 7%Q with (inject_Z 7). change 8%Q with (inject_Z 8).
  change 10%Q with (inject_Z 10).
  rewrite <- Zle_Qle in H0, H10. rewrite <- !Zle_Qle. lia.
Qed.

Lemma gap_not_sub_range (x : Q) : in_gap x -> ~ in_sub_range x.
Proof. unfold in_gap, in_sub_range. intros H1 H2. lra. Qed.

Lemma valid_values_range (data : list Obj.t) (column : string) (x : Q) :
  In x (valid_values data column) -> (0 <= x)%Q /\ (x <= 10)%Q.
Proof.
  unfold valid_values. rewrite in_flat_map. intros (row & _ & Hx).
  unfold valid_value_of in Hx. destruct (Obj.has column row); [|contradiction].
  destruct (parseNPSValue_cases (cell (Obj.get row column)))
    as [(Hv & q & Hq & Hr) | (Hv & Hq)]; rewrite Hv, ?Hq in Hx.
  - destruct Hx as [<-|[]]. exact Hr.
  - contradiction.
Qed.

(** C10.  [hasExpectedRange] holds exactly when some valid parsed value of
    the column lies in one of the sub-ranges 0-3, 4-7, 8-10.  So when every
    valid value is an integer it says the same as [validCount > 0], and when
    every valid value lies strictly between two sub-ranges it is false.  The
    statistics are those of a call that returns. *)
Theorem analyzeColumnValues_hasExpectedRange
  (data : list Obj.t) (column : string) (st : ColumnStats) :
  analyzeColumnValues data column = Ok st ->
  validCount st = length (valid_values data column)
  /\ (hasExpectedRange st = true <->
      exists x, In x (valid_values data column) /\ in_sub_range x)
  /\ ((forall x, In x (valid_values data column) -> is_integer x) ->
      (hasExpectedRange st = true <-> 0 < validCount st))
  /\ ((forall x, In x (valid_values data column) -> in_gap x) ->
      hasExpectedRange st = false).
Proof.
  intros H. unfold analyzeColumnValues in H.
  apply bind_Ok in H as ([[vc sum] values] & Hloop & H).
  apply scan_column_loop in Hloop as [Hvc Hvalues]. cbn [app] in Hvalues.
  rewrite scan_ranges_loop in H. cbn [orb] in H.
  injection H as <-. cbn [validCount hasExpectedRange].
  subst vc values. cbn [Nat.add].
  set (vals := valid_values data column).
  assert (Hrange :
    (existsb low_value vals && existsb mid_value vals
     || existsb mid_value vals && existsb high_value vals
     || existsb low_value vals && existsb high_value vals
     || (0 <? length vals)%nat
        && (existsb low_value vals || existsb mid_value vals
            || existsb high_value vals)) = true
    <-> exists x, In x vals /\ in_sub_range x).
  { split.
    - intros Hb.
      assert (existsb (fun x => low_value x || mid_value x || high_value x) vals
              = true) as He.
      { rewrite !existsb_orb.
        destruct (existsb low_value vals), (existsb mid_value vals),
          (existsb high_value vals); try reflexivity.
        destruct (0 <? length vals)%nat; discriminate Hb. }
      apply existsb_exists in He as (x & Hin & Hx).
      exists x. split; [exact Hin | apply sub_range_bool, Hx].
    - intros (x & Hin & Hx). apply sub_range_bool in Hx.
      assert (existsb (fun x => low_value x || mid_value x || high_value x) vals
              = true) as He by (apply existsb_exists; eauto).
      rewrite !existsb_orb in He.
      assert ((0 <? length vals)%nat = true) as ->.
      { apply Nat.ltb_lt. destruct vals; [contradiction | cbn; lia]. }
      destruct (existsb low_value vals), (existsb mid_value vals),
        (existsb high_value vals); try reflexivity; discriminate. }
  split; [reflexivity|]. split; [exact Hrange|]. split.
  - intros Hint. rewrite Hrange. split.
    + intros (x & Hin & _). destruct vals; [contradiction | cbn; lia].
    + intros Hpos. destruct vals as [|x vals'] eqn:E; [cbn in Hpos; lia|].
      exists x. split; [left; reflexivity|].
      assert (In x vals) as Hin by (rewrite E; left; reflexivity).
      destruct (valid_values_range data column x Hin).
      apply integer_in_sub_range; auto. apply Hint. rewrite <- E. exact Hin.
  - intros Hgap. apply not_true_is_false. rewrite Hrange.
    intros (x & Hin & Hx). exact (gap_not_sub_range x (Hgap x Hin) Hx).
Qed.

Lemma analyzeColumnValues_hasExpectedRange_witness :
  analyzeColumnValues Examples.gap_data "nota" = Ok Examples.gap_stats
  /\ valid_values Examples.gap_data "nota" = [7 # 2]
  /\ (hasExpectedRange Examples.gap_stats = true <->
      exists x, In x (valid_values Examples.gap_data "nota") /\ in_sub_range x).
Proof.
  assert (analyzeColumnValues Examples.gap_data "nota" = Ok Examples.gap_stats) as H
    by (vm_compute; reflexivity).
  split; [exact H|]. split; [vm_compute; reflexivity|].
  apply (analyzeColumnValues_hasExpectedRange _ _ _ H).
Defined.

(** ** calculateNPS: the shape of a result *)

Section ForOf.

Context {A St : Type} (body : St -> A -> result St).

(** What every iteration that returns preserves holds after a loop that
    returns. *)
Lemma for_of_invariant (P : St -> Prop) :
  (forall s x s', P s -> body s x = Ok s' -> P s') ->
  forall l s s', P s -> for_of body l s = Ok s' -> P s'.
Proof.
  intros Hstep l. induction l as [|x l IH]; intros s s' Hs H; cbn [for_of] in H.
  - injection H as <-. exact Hs.
  - apply bind_Ok in H as (s1 & H1 & H2). eauto.
Qed.

(** A loop whose iterations all return, returns. *)
Lemma for_of_returns (l : list A) :
  (forall s x, In x l -> exists s', body s x = Ok s') ->
  forall s, exists s', for_of body l s = Ok s'.
Proof.
  induction l as [|x l IH]; intros Hbody s; cbn [for_of].
  - eauto.
  - destruct (Hbody s x (or_introl eq_refl)) as [s1 ->]. cbn [mbind result_bind].
    apply IH. intros s0 y Hy. apply Hbody. right. exact Hy.
Qed.

End ForOf.

(** A result of [calculateNPS] is the empty summary of one of the early
    returns, or what [summarize] gives on non-empty score columns. *)
Lemma calculateNPS_cases (data : list Obj.t) (given : option (list string))
  (r : NPSData) :
  calculateNPS data given = Ok r ->
  (exists analyzed, r = emptyNPSData [] analyzed [])
  \/ (exists cols st, cols <> [] /\ summarize data cols st = Ok r).
Proof.
  unfold calculateNPS. destruct data as [|firstRow data].
  - intros H. injection H as <-. left. eauto.
  - assert (forall r0,
      (r0' ← identifyNPSColumns (firstRow :: data);
       match columns r0' with
       | [] => Ok (emptyNPSData [] (analyzedColumns (stats r0')) [])
       | _ :: _ => summarize (firstRow :: data) (columns r0') (stats r0')
       end) = Ok r0 ->
      (exists analyzed, r0 = emptyNPSData [] analyzed [])
      \/ (exists cols st, cols <> [] /\ summarize (firstRow :: data) cols st = Ok r0))
      as Hauto.
    { intros r0 H. apply bind_Ok in H as (ident & _ & H).
      destruct (columns ident) as [|c cs] eqn:E.
      - injection H as <-. left. eauto.
      - right. exists (c :: cs), (stats ident). split; [discriminate | exact H]. }
    destruct given as [[|c cs]|]; intros H; auto.
    right. exists (c :: cs). eexists. split; [discriminate | exact H].
Qed.

(** [summarize] runs the scoring loop and then takes one of its two exits. *)
Lemma summarize_cases (data : list Obj.t) (cols : list string)
  (st : ColumnIdentificationStats) (r : NPSData) :
  summarize data cols st = Ok r ->
  exists t, for_of (score_row cols) data initial_tally = Ok t
  /\ ((t_totalRespostas t = 0
       /\ r = emptyNPSData cols (analyzedColumns st) (t_valoresIgnorados t))
      \/ (0 < t_totalRespostas t
          /\ totalRespostas r = t_totalRespostas t
          /\ detratores r = t_detratores t
          /\ neutros r = t_neutros t
          /\ promotores r = t_promotores t
          /\ respostasPorNota r = t_respostasPorNota t
          /\ respostasInvalidas r = t_respostasInvalidasCount t
          /\ colunasIdentificadas r = cols
          /\ percentualDetratores r =
             Num.mul (Num.div (Num.of_nat (t_detratores t))
                              (Num.of_nat (t_totalRespostas t))) (Num.of_Z 100)
          /\ percentualNeutros r =
             Num.mul (Num.div (Num.of_nat (t_neutros t))
                              (Num.of_nat (t_totalRespostas t))) (Num.of_Z 100)
          /\ percentualPromotores r =
             Num.mul (Num.div (Num.of_nat (t_promotores t))
                              (Num.of_nat (t_totalRespostas t))) (Num.of_Z 100))).
Proof.
  unfold summarize. intros H. apply bind_Ok in H as (t & Hloop & H).
  exists t. split; [exact Hloop|].
  destruct (Nat.eqb_spec (t_totalRespostas t) 0) as [E|E].
  - left. injection H as <-. auto.
  - right. injection H as <-. cbn. repeat split; try reflexivity. lia.
Qed.

(** The two exits of a call that returned: [r] is an empty summary, or the
    summary of a tally [t] with a positive total. *)
Ltac summary_cases H t Hloop :=
  let analyzed := fresh "analyzed" in
  let cols := fresh "cols" in
  let st := fresh "st" in
  apply calculateNPS_cases in H as [[analyzed ->] | (cols & st & _ & H)];
  [ | apply summarize_cases in H as (t & Hloop & [[_ ->] | H]) ].

(** ** calculateNPS: the scoring loop *)

Lemma initial_histogram :
  t_respostasPorNota initial_tally
  = <[10%Z := 0]> (<[9%Z := 0]> (<[8%Z := 0]> (<[7%Z := 0]> (<[6%Z := 0]>
    (<[5%Z := 0]> (<[4%Z := 0]> (<[3%Z := 0]> (<[2%Z := 0]> (<[1%Z := 0]>
    (<[0%Z := 0]> ∅)))))))))).
Proof. reflexivity. Qed.

Lemma initial_tally_ok : tally_ok initial_tally.
Proof.
  split; [reflexivity|]. intros k. rewrite initial_histogram.
  destruct (decide (0 <= k <= 10)%Z) as [Hk|Hk].
  - split; [intros _; exact Hk|]. intros _.
    assert (k = 0 \/ k = 1 \/ k = 2 \/ k = 3 \/ k = 4 \/ k = 5 \/ k = 6 \/ k = 7
            \/ k = 8 \/ k = 9 \/ k = 10)%Z as Hcases by lia.
    repeat (destruct Hcases as [->|Hcases]; [vm_compute; eauto|]).
    subst k. vm_compute. eauto.
  - split; [|intros; contradiction]. intros Hsome. exfalso.
    rewrite !lookup_insert_ne in Hsome by lia.
    rewrite lookup_empty in Hsome. destruct Hsome; discriminate.
Qed.

Lemma count_score_ok (t : Tally) (score : Q) :
  (0 <= score)%Q -> (score <= 10)%Q -> tally_ok t -> tally_ok (count_score t score).
Proof.
  intros H0 H10 [Hsum Hkeys]. split.
  - unfold count_score.
    cbn [t_detratores t_neutros t_promotores t_totalRespostas].
    destruct (getNPSCategory (Fin score)); lia.
  - intros k. cbn [count_score t_respostasPorNota].
    pose proof (round_half_up_range score 0 10 H0 H10) as Hr.
    destruct (decide (k = Num.round_half_up score)) as [->|Hne].
    + rewrite lookup_insert_eq. split; [intros _; exact Hr | eauto].
    + rewrite lookup_insert_ne by congruence. apply Hkeys.
Qed.

Lemma score_cell_ok (row : Obj.t) (t t' : Tally) (column : string) :
  tally_ok t -> score_cell row t column = Ok t' -> tally_ok t'.
Proof.
  intros Ht H. unfold score_cell in H. apply bind_Ok in H as (own & _ & H).
  destruct own; [|injection H as <-; exact Ht].
  destruct (parseNPSValue_cases (cell (Obj.get row column)))
    as [(Hv & q & Hq & Hr0 & Hr10) | (Hv & Hq)]; rewrite Hv, ?Hq in H.
  - injection H as <-. apply count_score_ok; assumption.
  - destruct (Obj.get row column) as [raw|]; [|injection H as <-; exact Ht].
    destruct (negb (Str.blank raw)); injection H as <-; [|exact Ht].
    exact Ht.
Qed.

Lemma scoring_loop_ok (cols : list string) (data : list Obj.t) (t : Tally) :
  for_of (score_row cols) data initial_tally = Ok t -> tally_ok t.
Proof.
  apply (for_of_invariant _ tally_ok); [|exact initial_tally_ok].
  intros s row s' Hs. unfold score_row.
  apply (for_of_invariant _ tally_ok); [|exact Hs].
  intros s0 c s0' Hs0. apply score_cell_ok. exact Hs0.
Qed.

(** ** The histogram *)

(** C3, the claim as stated fails: with no valid answer the summary comes
    from [emptyNPSData], whose histogram has no key at all. *)
Lemma calculateNPS_empty_histogram_counterexample :
  calculateNPS Examples.repeated_invalid (Some ["score"])
  = Ok (emptyNPSData ["score"] ["score"; "_rowId"] ["abc"])
  /\ totalRespostas (emptyNPSData ["score"] ["score"; "_rowId"] ["abc"]) = 0
  /\ respostasPorNota (emptyNPSData ["score"] ["score"; "_rowId"] ["abc"]) !! 0%Z
     = None
  /\ ~ grades_0_to_10
       (respostasPorNota (emptyNPSData ["score"] ["score"; "_rowId"] ["abc"])).
Proof.
  split; [vm_compute; reflexivity|]. split; [reflexivity|].
  split; [reflexivity|].
  intros H. destruct (proj2 (H 0%Z)) as [x Hx]; [lia|]. discriminate Hx.
Qed.

(** C3, amended.  In a summary that [calculateNPS] returns with at least one
    valid answer, the keys of the histogram are exactly the integers 0..10,
    each present even with count 0.  In a summary with no valid answer the
    histogram is empty. *)
Theorem calculateNPS_histogram_keys
  (data : list Obj.t) (given : option (list string)) (r : NPSData) :
  calculateNPS data given = Ok r ->
  (0 < totalRespostas r -> grades_0_to_10 (respostasPorNota r))
  /\ (totalRespostas r = 0 -> respostasPorNota r = ∅).
Proof.
  intros H. summary_cases H t Hloop.
  - split; [cbn; lia | reflexivity].
  - split; [cbn; lia | reflexivity].
  - destruct H as (Hpos & Htot & _ & _ & _ & Hhist & _).
    split; [|lia]. intros _. rewrite Hhist. apply (scoring_loop_ok _ _ _ Hloop).
Qed.

Lemma calculateNPS_histogram_keys_witness :
  exists r, calculateNPS Examples.four_answers (Some ["score"]) = Ok r
  /\ grades_0_to_10 (respostasPorNota r).
Proof.
  destruct (calculateNPS Examples.four_answers (Some ["score"])) as [r|e] eqn:E;
    [|vm_compute in E; discriminate E].
  exists r. split; [reflexivity|].
  apply (calculateNPS_histogram_keys _ _ r E).
  assert (totalRespostas <$> calculateNPS Examples.four_answers (Some ["score"])
          = Ok 4) as Ht by (vm_compute; reflexivity).
  rewrite E in Ht. injection Ht as ->. lia.
Defined.

(** ** Invalid answers *)

Lemma score_cell_invalid (row : Obj.t) (t t' : Tally) (column : string) :
  score_cell row t column = Ok t' ->
  t_respostasInvalidasCount t'
  = t_respostasInvalidasCount t + (if failed_cell row column then 1 else 0).
Proof.
  intros H. unfold score_cell in H. apply bind_Ok in H as (own & Hown & H).
  apply hasOwnProperty_Ok in Hown. subst own. unfold failed_cell.
  destruct (Obj.has column row); cbn [andb]; [|injection H as <-; lia].
  destruct (Obj.get row column) as [raw|] eqn:Hget; cbn [cell] in H.
  - destruct (parseNPSValue_cases (JStr raw))
      as [(Hv & q & Hq & _) | (Hv & Hq)]; rewrite Hv in H |- *; rewrite ?Hq in H.
    + injection H as <-. rewrite andb_false_r. cbn. lia.
    + destruct (negb (Str.blank raw)); injection H as <-; cbn; lia.
  - cbn [parseNPSValue valid value] in H. injection H as <-. lia.
Qed.

Section InvalidAnswers.

Variable cols : list string.

Lemma score_row_invalid (row : Obj.t) :
  forall t t', score_row cols t row = Ok t' ->
  t_respostasInvalidasCount t'
  = t_respostasInvalidasCount t + length (List.filter (failed_cell row) cols).
Proof.
  unfold score_row. induction cols as [|c cs IH]; intros t t' H; cbn [for_of] in H.
  - injection H as <-. cbn. lia.
  - apply bind_Ok in H as (t1 & H1 & H2). apply IH in H2.
    apply score_cell_invalid in H1. cbn [List.filter].
    destruct (failed_cell row c); cbn [length]; lia.
Qed.

Lemma scoring_loop_invalid (data : list Obj.t) :
  forall t t', for_of (score_row cols) data t = Ok t' ->
  t_respostasInvalidasCount t'
  = t_respostasInvalidasCount t + failed_cells data cols.
Proof.
  induction data as [|row data IH]; intros t t' H; cbn [for_of] in H.
  - injection H as <-. cbn. lia.
  - apply bind_Ok in H as (t1 & H1 & H2). apply IH in H2.
    apply score_row_invalid in H1. unfold failed_cells in *.
    cbn [map list_sum fold_right].
    fold (list_sum (map (fun row => length (List.filter (failed_cell row) cols)) data)).
    lia.
Qed.

End InvalidAnswers.

(** In a summary with at least one valid answer, [respostasInvalidas] is the
    number of non-blank cells that did not parse, each occurrence counted. *)
Lemma respostasInvalidas_of_scored_summary
  (data : list Obj.t) (given : option (list string)) (r : NPSData) :
  calculateNPS data given = Ok r -> 0 < totalRespostas r ->
  respostasInvalidas r = failed_cells data (colunasIdentificadas r).
Proof.
  intros H Hpos. summary_cases H t Hloop.
  - cbn in Hpos. lia.
  - cbn in Hpos. lia.
  - destruct H as (_ & _ & _ & _ & _ & _ & -> & -> & _).
    apply scoring_loop_invalid in Hloop. exact Hloop.
Qed.

(** C4.  Two records with the same unparseable answer [abc] and no valid
    answer: two cells failed, and the summary reports one invalid answer,
    the length of the deduplicated list of ignored values. *)
Theorem calculateNPS_invalid_count_without_valid_answers :
  calculateNPS Examples.repeated_invalid (Some ["score"])
  = Ok (emptyNPSData ["score"] ["score"; "_rowId"] ["abc"])
  /\ respostasInvalidas (emptyNPSData ["score"] ["score"; "_rowId"] ["abc"]) = 1
  /\ failed_cells Examples.repeated_invalid ["score"] = 2.
Proof. repeat split; vm_compute; reflexivity. Qed.

(** ** Unidentified columns *)



(** ** Rounding onto binary64 *)

Lemma pow2_pos (k : Z) : (0 < 2 ^ k)%Q.
Proof. apply Qpower_0_lt. reflexivity. Qed.

Lemma pow2_add (a b : Z) : (2 ^ (a + b) == 2 ^ a * 2 ^ b)%Q.
Proof. apply Qpower_plus. discriminate. Qed.

Lemma pow2_opp (a : Z) : (2 ^ (- a) * 2 ^ a == 1)%Q.
Proof.
  rewrite <- pow2_add. replace (- a + a)%Z with 0%Z by lia. reflexivity.
Qed.

Lemma pow2_inject (k : Z) : (0 <= k)%Z -> (inject_Z (2 ^ k) == 2 ^ k)%Q.
Proof. intros H. apply (Zpower_Qpower 2 k H). Qed.

Lemma pow2_le (a b : Z) : (a <= b)%Z -> (2 ^ a <= 2 ^ b)%Q.
Proof. intros H. apply Qpower_le_compat_l; [exact H | discriminate]. Qed.

Lemma shift_frac_spec (n d : positive) (k a b : Z) :
  Num.shift_frac n d k = (a, b) ->
  (0 < a)%Z /\ (0 < b)%Z /\ (inject_Z a == inject_Z b * ((Zpos n # d) * 2 ^ k))%Q.
Proof.
  unfold Num.shift_frac. rewrite (Qmake_Qdiv (Zpos n) d).
  assert (0 < inject_Z (Zpos d))%Q as Hd by reflexivity.
  destruct (Z.leb_spec 0 k) as [Hk|Hk]; intros H; injection H as <- <-.
  - split; [|split; [lia|]].
    + apply Z.mul_pos_pos; [lia|]. apply Z.pow_pos_nonneg; lia.
    + rewrite inject_Z_mult, (pow2_inject k Hk). field. lra.
  - assert (0 < 2 ^ (- k))%Z as Hp by (apply Z.pow_pos_nonneg; lia).
    split; [lia|]. split; [lia|].
    rewrite inject_Z_mult, (pow2_inject (- k)) by lia.
    pose proof (pow2_opp k) as Ho.
    transitivity (inject_Z (Z.pos n) * (2 ^ (- k) * 2 ^ k))%Q; [rewrite Ho; ring|].
    field. lra.
Qed.

Lemma rne_spec (a b : Z) :
  (0 <= a)%Z -> (0 < b)%Z ->
  (0 <= Num.rne a b)%Z
  /\ (2 * a <= 2 * (Num.rne a b * b) + b)%Z
  /\ (2 * (Num.rne a b * b) <= 2 * a + b)%Z.
Proof.
  intros Ha Hb. unfold Num.rne.
  pose proof (Z.div_mod a b ltac:(lia)) as Hdm.
  pose proof (Z.mod_pos_bound a b Hb) as Hm.
  pose proof (Z.div_pos a b Ha Hb) as Hq.
  destruct (Z.compare_spec (2 * (a mod b)) b) as [E|E|E];
    [destruct (Z.even (a / b))| |]; repeat split; nia.
Qed.

(** [ilog2] is the floor of the binary logarithm. *)
Lemma ilog2_lower (n d : positive) : (2 ^ Num.ilog2 n d <= Zpos n # d)%Q.
Proof.
  unfold Num.ilog2.
  set (ln := Z.log2 (Zpos n)). set (ld := Z.log2 (Zpos d)).
  destruct (Num.shift_frac n d (- (ln - ld))) as [a b] eqn:E.
  apply shift_frac_spec in E as (Ha & Hb & E).
  assert (0 < inject_Z b)%Q as HB by (rewrite <- (Zlt_Qlt 0); exact Hb).
  pose proof (pow2_pos (ln - ld)) as Hp.
  destruct (Z.ltb_spec a b) as [Hlt|Hge].
  - destruct (Z.log2_spec (Zpos n) ltac:(lia)) as [Hn _].
    destruct (Z.log2_spec (Zpos d) ltac:(lia)) as [_ Hd].
    fold ln in Hn. fold ld in Hd.
    assert (0 <= ln)%Z as Hln by apply Z.log2_nonneg.
    assert (0 <= ld)%Z as Hld by apply Z.log2_nonneg.
    rewrite Zle_Qle, (pow2_inject ln Hln) in Hn.
    apply Z.lt_le_incl in Hd. rewrite Zle_Qle, (pow2_inject (Z.succ ld)) in Hd by lia.
    rewrite (Qmake_Qdiv (Zpos n) d).
    assert (0 < inject_Z (Zpos d))%Q as HD by reflexivity.
    apply Qle_shift_div_l; [exact HD|].
    replace ln with ((ln - ld - 1) + Z.succ ld)%Z in Hn by lia.
    rewrite pow2_add in Hn.
    pose proof (pow2_pos (ln - ld - 1)) as Hp1.
    nra.
  - rewrite Zle_Qle in Hge.
    pose proof (pow2_opp (ln - ld)) as Ho.
    assert (1 <= (Zpos n # d) * 2 ^ (- (ln - ld)))%Q as H1 by nra.
    pose proof (pow2_pos (- (ln - ld))) as Hp2.
    nra.
Qed.

Lemma ilog2_upper (n d : positive) : (Zpos n # d < 2 ^ (Num.ilog2 n d + 1))%Q.
Proof.
  unfold Num.ilog2.
  set (ln := Z.log2 (Zpos n)). set (ld := Z.log2 (Zpos d)).
  destruct (Num.shift_frac n d (- (ln - ld))) as [a b] eqn:E.
  apply shift_frac_spec in E as (Ha & Hb & E).
  assert (0 < inject_Z b)%Q as HB by (rewrite <- (Zlt_Qlt 0); exact Hb).
  destruct (Z.ltb_spec a b) as [Hlt|Hge].
  - rewrite Zlt_Qlt in Hlt.
    replace (ln - ld - 1 + 1)%Z with (ln - ld)%Z by lia.
    pose proof (pow2_opp (ln - ld)) as Ho.
    pose proof (pow2_pos (ln - ld)) as Hp.
    pose proof (pow2_pos (- (ln - ld))) as Hp2.
    assert ((Zpos n # d) * 2 ^ (- (ln - ld)) < 1)%Q as H1 by nra.
    nra.
  - destruct (Z.log2_spec (Zpos n) ltac:(lia)) as [_ Hn].
    destruct (Z.log2_spec (Zpos d) ltac:(lia)) as [Hd _].
    fold ln in Hn. fold ld in Hd.
    assert (0 <= ln)%Z as Hln by apply Z.log2_nonneg.
    assert (0 <= ld)%Z as Hld by apply Z.log2_nonneg.
    rewrite Zlt_Qlt, (pow2_inject (Z.succ ln)) in Hn by lia.
    rewrite Zle_Qle, (pow2_inject ld Hld) in Hd.
    rewrite (Qmake_Qdiv (Zpos n) d).
    assert (0 < inject_Z (Zpos d))%Q as HD by reflexivity.
    apply Qlt_shift_div_r; [exact HD|].
    replace (Z.succ ln) with ((ln - ld + 1) + ld)%Z in Hn by lia.
    rewrite pow2_add in Hn.
    pose proof (pow2_pos (ln - ld + 1)) as Hp1.
    pose proof (pow2_pos ld) as Hp2.
    nra.
Qed.

(** A rounded value is Infinity or lies on the binary64 grid: an integer
    significand of at most 53 bits times a power of two no smaller than
    [2^-1074]. *)
Lemma round64_pos_grid (n d : positive) :
  exists m p : Z,
    (-1074 <= p)%Z /\ (0 <= m <= 2 ^ 53)%Z
    /\ (Num.round64_pos n d = PInf
        \/ Num.round64_pos n d = Fin (Qred (inject_Z m * 2 ^ p))).
Proof.
  unfold Num.round64_pos.
  pose proof (ilog2_upper n d) as He.
  set (q := (Zpos n # d)%Q) in *. set (e := Num.ilog2 n d) in *.
  set (p := Z.max (e - 52) (-1074)).
  destruct (Num.shift_frac n d (- p)) as [a b] eqn:E.
  apply shift_frac_spec in E as (Ha & Hb & E). fold q in E.
  destruct (rne_spec a b ltac:(lia) Hb) as (Hm0 & _ & Hm2).
  exists (Num.rne a b), p. split; [lia|]. split.
  - split; [exact Hm0|].
    assert (0 < inject_Z b)%Q as HB by (rewrite <- (Zlt_Qlt 0); exact Hb).
    assert (inject_Z a < inject_Z b * 2 ^ 53)%Q as Hab.
    { rewrite E.
      assert (q * 2 ^ (- p) < 2 ^ 53)%Q as Hlt.
      { pose proof (pow2_pos (- p)) as Hp'.
        assert (2 ^ (e + 1) * 2 ^ (- p) <= 2 ^ 53)%Q as Hle.
        { rewrite <- pow2_add. apply pow2_le. lia. }
        nra. }
      nra. }
    rewrite <- (pow2_inject 53), <- inject_Z_mult, <- Zlt_Qlt in Hab by lia.
    nia.
  - destruct (Qle_bool _ _); auto.
Qed.

(** Below 1024 the rounded value is finite and off by at most the relative
    error [u64], or by [eta64] among the subnormals. *)
Lemma round64_pos_err (n d : positive) :
  (Zpos n # d <= 1024)%Q ->
  exists y, Num.round64_pos n d = Fin y /\ (0 <= y)%Q
    /\ (Qabs (y - (Zpos n # d)) <= (Zpos n # d) * u64 + eta64)%Q.
Proof.
  intros Hq. unfold Num.round64_pos.
  set (q := (Zpos n # d)%Q) in *.
  pose proof (ilog2_lower n d) as He. fold q in He.
  set (e := Num.ilog2 n d) in *.
  set (p := Z.max (e - 52) (-1074)).
  destruct (Num.shift_frac n d (- p)) as [a b] eqn:E.
  apply shift_frac_spec in E as (Ha & Hb & E). fold q in E.
  destruct (rne_spec a b ltac:(lia) Hb) as (Hm0 & Hm1 & Hm2).
  set (m := Num.rne a b) in *.
  assert (0 < inject_Z b)%Q as HB by (rewrite <- (Zlt_Qlt 0); exact Hb).
  assert (0 <= inject_Z m)%Q as HM0 by (rewrite <- (Zle_Qle 0); exact Hm0).
  rewrite Zle_Qle in Hm1, Hm2.
  rewrite !inject_Z_plus, !inject_Z_mult in Hm1, Hm2.
  change (inject_Z 2) with 2%Q in Hm1, Hm2.
  pose proof (pow2_pos p) as Hp. pose proof (pow2_opp p) as Ho.
  pose proof (pow2_pos (- p)) as Hp'.
  (* the distance to [q], before the scaling is undone *)
  assert (- (1 # 2) <= inject_Z m - q * 2 ^ (- p)
          /\ inject_Z m - q * 2 ^ (- p) <= 1 # 2)%Q as [Hd1 Hd2].
  { rewrite E in Hm1, Hm2. split; nra. }
  set (v := (inject_Z m * 2 ^ p)%Q).
  assert (v - q == (inject_Z m - q * 2 ^ (- p)) * 2 ^ p)%Q as Hv.
  { unfold v. transitivity (inject_Z m * 2 ^ p - q * (2 ^ (- p) * 2 ^ p))%Q;
      [rewrite Ho; ring | ring]. }
  assert (2 ^ p <= 2 * (q * u64 + eta64))%Q as Hbound.
  { unfold u64, eta64.
    pose proof (pow2_pos (-53)) as Hu. pose proof (pow2_pos (-1075)) as Heta.
    assert (0 < q)%Q as Hq0 by reflexivity.
    destruct (Z.max_spec (e - 52) (-1074)) as [[_ Hmax] | [_ Hmax]]; fold p in Hmax.
    - assert (2 ^ p == 2 * 2 ^ (-1075))%Q as -> by (rewrite Hmax; reflexivity).
      nra.
    - assert (2 ^ p == 2 * (2 ^ e * 2 ^ (-53)))%Q as ->.
      { rewrite Hmax. replace (e - 52)%Z with (1 + (e + -53))%Z by lia.
        rewrite pow2_add, pow2_add. reflexivity. }
      nra. }
  assert (Qabs (v - q) <= q * u64 + eta64)%Q as Herr.
  { apply Qabs_Qle_condition. rewrite Hv. split; nra. }
  assert (Qle_bool (2 ^ 1024) v = false) as ->.
  { destruct (Qle_bool (2 ^ 1024) v) eqn:Hle; [|reflexivity]. exfalso.
    apply Qle_bool_iff in Hle.
    apply Qabs_Qle_condition in Herr as [_ Herr].
    assert (u64 <= 1)%Q as Hu by (unfold u64; apply (pow2_le (-53) 0); lia).
    assert (eta64 <= 1)%Q as Heta by (unfold eta64; apply (pow2_le (-1075) 0); lia).
    assert ((2 ^ 12 : Q) <= 2 ^ 1024)%Q as Hbig by (apply pow2_le; lia).
    assert (0 < q)%Q as Hq0 by reflexivity.
    change (2 ^ 12)%Q with 4096%Q in Hbig. nra. }
  exists (Qred v). split; [reflexivity|]. rewrite (Qred_correct v).
  split; [unfold v; nra | exact Herr].
Qed.

Lemma round64_err (q : Q) :
  (0 <= q)%Q -> (q <= 1024)%Q ->
  exists y, Num.round64 q = Fin y /\ (0 <= y)%Q
    /\ (Qabs (y - q) <= q * u64 + eta64)%Q.
Proof.
  intros H0 H1. destruct q as [[|n|n] d]; unfold Num.round64; cbn [Qnum Qden].
  - exists 0%Q. split; [reflexivity|]. split; [lra|].
    assert (0 # d == 0)%Q as -> by reflexivity.
    pose proof (pow2_pos (-1075)). unfold eta64. apply Qabs_Qle_condition. split; lra.
  - apply round64_pos_err. exact H1.
  - exfalso. revert H0. unfold Qle. cbn. lia.
Qed.

Lemma u64_value : (u64 == 1 # 9007199254740992)%Q.
Proof. reflexivity. Qed.

Lemma eta64_small : (0 < eta64)%Q /\ (eta64 <= 1 # 9223372036854775808)%Q.
Proof.
  split; [apply pow2_pos|].
  assert ((1 # 9223372036854775808) == 2 ^ (-63))%Q as -> by reflexivity.
  apply pow2_le. lia.
Qed.

(** [(count / total) * 100] in binary64 is within a few units in the last
    place of the exact percentage. *)
Lemma percentage_err (count total : nat) :
  0 < total -> count <= total ->
  let x := (inject_Z (Z.of_nat count) / inject_Z (Z.of_nat total))%Q in
  exists z,
    Num.mul (Num.div (Num.of_nat count) (Num.of_nat total)) (Num.of_Z 100) = Fin z
    /\ (Qabs (z - 100 * x) <= 201 * u64 * x + 102 * eta64)%Q.
Proof.
  intros Ht Hc x.
  assert (0 < inject_Z (Z.of_nat total))%Q as HT by (rewrite <- (Zlt_Qlt 0); lia).
  assert (0 <= inject_Z (Z.of_nat count))%Q as HC by (rewrite <- (Zle_Qle 0); lia).
  assert (inject_Z (Z.of_nat count) <= inject_Z (Z.of_nat total))%Q as HCT
    by (rewrite <- Zle_Qle; lia).
  assert (0 <= x)%Q as Hx0.
  { unfold x. apply Qle_shift_div_l; [exact HT | lra]. }
  assert (x <= 1)%Q as Hx1.
  { unfold x. apply Qle_shift_div_r; [exact HT | lra]. }
  unfold Num.div, Num.of_nat. cbn [Qnum inject_Z].
  destruct (Z.eqb_spec (Z.of_nat total) 0) as [E|_]; [lia|].
  fold x.
  destruct (round64_err x Hx0 ltac:(lra)) as (y & -> & Hy0 & Hy).
  pose proof u64_value as Hu. destruct eta64_small as [He0 He1].
  apply Qabs_Qle_condition in Hy as [Hy1 Hy2]. rewrite Hu in Hy1, Hy2.
  unfold Num.mul, Num.of_Z.
  destruct (round64_err (y * inject_Z 100)) as (z & -> & Hz0 & Hz).
  { change (inject_Z 100) with 100%Q. lra. }
  { change (inject_Z 100) with 100%Q. lra. }
  exists z. split; [reflexivity|].
  change (inject_Z 100) with 100%Q in Hz.
  apply Qabs_Qle_condition in Hz as [Hz1 Hz2]. rewrite Hu in Hz1, Hz2.
  apply Qabs_Qle_condition. rewrite Hu. split; lra.
Qed.

(** ** The percentages *)

(** C2.  In every summary that [calculateNPS] returns, the three counts add
    up to [totalRespostas].  With no valid answer the three percentages are
    0.  With at least one, they are finite numbers whose sum is 100 up to the
    rounding of the divisions and multiplications: it differs from 100 by at
    most [2^-45]. *)
Theorem calculateNPS_percentages_sum
  (data : list Obj.t) (given : option (list string)) (r : NPSData) :
  calculateNPS data given = Ok r ->
  detratores r + neutros r + promotores r = totalRespostas r
  /\ (totalRespostas r = 0 ->
      percentualDetratores r = Fin 0 /\ percentualNeutros r = Fin 0
      /\ percentualPromotores r = Fin 0)
  /\ (0 < totalRespostas r ->
      exists d n p : Q,
        percentualDetratores r = Fin d /\ percentualNeutros r = Fin n
        /\ percentualPromotores r = Fin p
        /\ (Qabs (d + n + p - 100) <= 1 # 35184372088832)%Q).
Proof.
  intros H. summary_cases H t Hloop.
  1, 2: split; [reflexivity|]; split; [intros _; repeat split | cbn; lia].
  destruct H as (Hpos & Htot & Hd & Hn & Hp & _ & _ & _ & HpD & HpN & HpP).
  destruct (scoring_loop_ok _ _ _ Hloop) as [Hsum _].
  rewrite Htot, Hd, Hn, Hp. split; [exact Hsum|]. split; [lia|]. intros _.
  destruct (percentage_err (t_detratores t) (t_totalRespostas t) Hpos ltac:(lia))
    as (d & Ed & Hed).
  destruct (percentage_err (t_neutros t) (t_totalRespostas t) Hpos ltac:(lia))
    as (n & En & Hen).
  destruct (percentage_err (t_promotores t) (t_totalRespostas t) Hpos ltac:(lia))
    as (p & Ep & Hep).
  exists d, n, p. rewrite HpD, HpN, HpP. repeat split; try assumption.
  assert (0 < inject_Z (Z.of_nat (t_totalRespostas t)))%Q as HT
    by (rewrite <- (Zlt_Qlt 0); lia).
  assert (inject_Z (Z.of_nat (t_detratores t)) / inject_Z (Z.of_nat (t_totalRespostas t))
          + inject_Z (Z.of_nat (t_neutros t)) / inject_Z (Z.of_nat (t_totalRespostas t))
          + inject_Z (Z.of_nat (t_promotores t)) / inject_Z (Z.of_nat (t_totalRespostas t))
          == 1)%Q as Hone.
  { rewrite <- Hsum. rewrite !Nat2Z.inj_add, !inject_Z_plus.
    rewrite <- Hsum, !Nat2Z.inj_add, !inject_Z_plus in HT. field. lra. }
  pose proof u64_value as Hu. destruct eta64_small as [He0 He1].
  apply Qabs_Qle_condition in Hed as [Hd1 Hd2], Hen as [Hn1 Hn2], Hep as [Hp1 Hp2].
  rewrite Hu in *.
  apply Qabs_Qle_condition. split; lra.
Qed.

Lemma calculateNPS_percentages_sum_witness :
  exists r, calculateNPS Examples.four_answers (Some ["score"]) = Ok r
  /\ detratores r + neutros r + promotores r = totalRespostas r.
Proof.
  destruct (calculateNPS Examples.four_answers (Some ["score"])) as [r|e] eqn:E;
    [|vm_compute in E; discriminate E].
  exists r. split; [reflexivity|].
  apply (calculateNPS_percentages_sum _ _ r E).
Defined.

(** The rounding is there: with one answer in each category every
    percentage is the binary64 number next below 100/3, and the three do
    not add up to 100. *)
Example percentages_of_thirds :
  exists r x,
    calculateNPS Examples.three_answers (Some ["score"]) = Ok r
    /\ percentualDetratores r = Fin x /\ percentualNeutros r = Fin x
    /\ percentualPromotores r = Fin x
    /\ (x + x + x == 100 - (1 # 70368744177664))%Q.
Proof.
  destruct (calculateNPS Examples.three_answers (Some ["score"])) as [r|e] eqn:E;
    [|vm_compute in E; discriminate E].
  exists r, (2345624805922133 # 70368744177664)%Q.
  split; [reflexivity|].
  assert (percentualDetratores <$> calculateNPS Examples.three_answers (Some ["score"])
          = Ok (Fin (2345624805922133 # 70368744177664))) as Hd
    by (vm_compute; reflexivity).
  assert (percentualNeutros <$> calculateNPS Examples.three_answers (Some ["score"])
          = Ok (Fin (2345624805922133 # 70368744177664))) as Hn
    by (vm_compute; reflexivity).
  assert (percentualPromotores <$> calculateNPS Examples.three_answers (Some ["score"])
          = Ok (Fin (2345624805922133 # 70368744177664))) as Hp
    by (vm_compute; reflexivity).
  rewrite E in Hd, Hn, Hp. cbn in Hd, Hn, Hp.
  injection Hd as ->. injection Hn as ->. injection Hp as ->.
  repeat split; reflexivity.
Qed.

(** ** When calculateNPS returns *)

Lemma hasOwnProperty_plain (row : Obj.t) (k : string) :
  plain row -> Obj.hasOwnProperty row k = Ok (Obj.has k row).
Proof. unfold plain, Obj.hasOwnProperty. intros ->. reflexivity. Qed.

Lemma analyzeColumnValues_returns (data : list Obj.t) (column : string) :
  Forall plain data -> exists st, analyzeColumnValues data column = Ok st.
Proof.
  intros Hplain. unfold analyzeColumnValues.
  destruct (for_of_returns (scan_column column) data) with (s := (0, Fin 0, @nil Q))
    as [[[vc sum] values] ->].
  { intros [[vc sum] values] row Hrow. unfold scan_column.
    rewrite hasOwnProperty_plain
      by (apply (proj1 (List.Forall_forall plain data) Hplain), Hrow).
    cbn [mbind result_bind].
    destruct (Obj.has column row); [|eauto].
    destruct (valid _); [destruct (value _)|]; eauto. }
  cbn [mbind result_bind].
  destruct (fold_left scan_ranges values (false, false, false)) as [[l m] h].
  eauto.
Qed.

Lemma identifyNPSColumns_returns (data : list Obj.t) :
  Forall plain data -> exists ident, identifyNPSColumns data = Ok ident.
Proof.
  intros Hplain. unfold identifyNPSColumns. destruct data as [|firstRow rest]; [eauto|].
  destruct (for_of_returns (identify_step (firstRow :: rest)) (Obj.keys firstRow))
    with (s := (@nil string, @nil string)) as [[identified analyzed] ->];
    [|cbn [mbind result_bind]; eauto].
  intros [identified analyzed] column _. unfold identify_step.
  destruct (String.eqb column "_rowId"); [eauto|].
  destruct (analyzeColumnValues_returns (firstRow :: rest) column Hplain) as [st ->].
  cbn [mbind result_bind].
  repeat match goal with
         | |- context [if ?b then _ else _] => destruct b
         end; eauto.
Qed.

Lemma summarize_returns (data : list Obj.t) (cols : list string)
  (st : ColumnIdentificationStats) :
  Forall plain data -> exists r, summarize data cols st = Ok r.
Proof.
  intros Hplain. unfold summarize.
  destruct (for_of_returns (score_row cols) data) with (s := initial_tally)
    as [t ->].
  { intros t row Hrow. unfold score_row. apply for_of_returns.
    intros t0 column _. unfold score_cell.
    rewrite hasOwnProperty_plain
      by (apply (proj1 (List.Forall_forall plain data) Hplain), Hrow).
    cbn [mbind result_bind].
    destruct (Obj.has column row); [|eauto].
    destruct (valid _); [destruct (value _)|];
      destruct (Obj.get row column) as [raw|]; eauto;
      destruct (negb (Str.blank raw)); eauto. }
  cbn [mbind result_bind]. destruct (t_totalRespostas t =? 0)%nat; eauto.
Qed.

(** On records that do not shadow [hasOwnProperty], [calculateNPS] returns
    a summary, whatever the cells hold and whichever columns are named. *)
Lemma calculateNPS_returns (data : list Obj.t) (given : option (list string)) :
  Forall plain data -> exists r, calculateNPS data given = Ok r.
Proof.
  intros Hplain. unfold calculateNPS. destruct data as [|firstRow rest]; [eauto|].
  assert (exists r,
    (r0 ← identifyNPSColumns (firstRow :: rest);
     match columns r0 with
     | [] => Ok (emptyNPSData [] (analyzedColumns (stats r0)) [])
     | _ :: _ => summarize (firstRow :: rest) (columns r0) (stats r0)
     end) = Ok r) as Hauto.
  { destruct (identifyNPSColumns_returns _ Hplain) as [ident ->]. cbn [mbind result_bind].
    destruct (columns ident); [eauto | apply summarize_returns, Hplain]. }
  destruct given as [[|c cs]|]; auto. apply summarize_returns, Hplain.
Qed.

(** A column named [hasOwnProperty] hides the method the loops call on each
    record: the call throws. *)
Example calculateNPS_shadowed_method :
  calculateNPS Examples.shadowing_data None = Throw TypeError
  /\ calculateNPS Examples.shadowing_data (Some ["hasOwnProperty"]) = Throw TypeError.
Proof. split; vm_compute; reflexivity. Qed.

(** ** The qualitative classification *)

Lemma Qle_bool_false (a b : Q) : Qle_bool a b = false <-> (b < a)%Q.
Proof.
  split.
  - intros H. apply Qnot_le_lt. intros Hle. apply Qle_bool_iff in Hle. congruence.
  - intros H. destruct (Qle_bool a b) eqn:E; [|reflexivity].
    apply Qle_bool_iff in E. exfalso. exact (Qlt_not_le _ _ H E).
Qed.

(** X1.  The bands of [getNPSClassification] on a finite score: below 0,
    0 to 30, above 30 to 50, above 50 to 75, above 75, each bound on the
    side the code puts it.  [NaN] fails every test and lands in the last
    band.  [getNPSColor] tests the same bounds, so the colour is always the
    one that goes with the classification. *)
Theorem getNPSClassification_bands (q : Q) :
  (getNPSClassification (Fin q) = "Crítico" <-> (q < 0)%Q)
  /\ (getNPSClassification (Fin q) = "Ruim" <-> (0 <= q)%Q /\ (q <= 30)%Q)
  /\ (getNPSClassification (Fin q) = "Bom" <-> (30 < q)%Q /\ (q <= 50)%Q)
  /\ (getNPSClassification (Fin q) = "Muito Bom" <-> (50 < q)%Q /\ (q <= 75)%Q)
  /\ (getNPSClassification (Fin q) = "Excelente" <-> (75 < q)%Q)
  /\ getNPSClassification NaN = "Excelente"
  /\ (forall score : number,
        In (getNPSClassification score, getNPSColor score) classification_colour).
Proof.
  assert (Hcases : forall a b : Q,
            (Qle_bool a b = true /\ (a <= b)%Q)
            \/ (Qle_bool a b = false /\ (b < a)%Q)).
  { intros a b. destruct (Qle_bool a b) eqn:E.
    - left. split; [reflexivity | apply Qle_bool_iff, E].
    - right. split; [reflexivity | apply Qle_bool_false, E]. }
  split_and!; try reflexivity.
  1-5: unfold getNPSClassification, num_gtb, num_ltb, Num.geb, Num.leb, Num.of_Z;
    change (inject_Z 0) with 0%Q; change (inject_Z 30) with 30%Q;
    change (inject_Z 50) with 50%Q; change (inject_Z 75) with 75%Q;
    destruct (Hcases 0%Q q) as [[-> H0]|[-> H0]],
      (Hcases q 30%Q) as [[-> H30]|[-> H30]],
      (Hcases q 50%Q) as [[-> H50]|[-> H50]],
      (Hcases q 75%Q) as [[-> H75]|[-> H75]];
    cbn [negb andb]; split; intros; try discriminate; try reflexivity; lra.
  unfold getNPSClassification, getNPSColor, num_gtb, num_ltb, Num.geb, Num.leb.
  intros [| | |x]; cbn; auto 6.
  repeat match goal with
         | |- context [Qle_bool ?a ?b] => destruct (Qle_bool a b)
         end; cbn; auto 6.
Qed.

(** ** The scoring loop as a fold *)

Lemma count_commute (t : Tally) (x : Q) (raw : string) :
  count_invalid (count_score t x) raw = count_score (count_invalid t raw) x.
Proof. reflexivity. Qed.

Lemma fold_counts_commute (xs : list Q) :
  forall (raws : list string) (t : Tally),
  fold_left count_invalid raws (fold_left count_score xs t)
  = fold_left count_score xs (fold_left count_invalid raws t).
Proof.
  induction xs as [|x xs IH]; intros raws t; cbn [fold_left]; [reflexivity|].
  rewrite IH. f_equal.
  revert t. induction raws as [|raw raws IHr]; intros t; cbn [fold_left];
    [reflexivity|].
  rewrite <- IHr. rewrite count_commute. reflexivity.
Qed.

(** What one cell does to the tally. *)
Lemma score_cell_effect (row : Obj.t) (t t' : Tally) (column : string) :
  score_cell row t column = Ok t' ->
  t' = fold_left count_invalid (failed_raw_of row column)
         (fold_left count_score (valid_value_of column row) t).
Proof.
  intros H. unfold score_cell in H. apply bind_Ok in H as (own & Hown & H).
  apply hasOwnProperty_Ok in Hown. subst own.
  unfold failed_raw_of, failed_cell, valid_value_of. cbv zeta.
  destruct (Obj.has column row); cbn [andb]; [|injection H as <-; reflexivity].
  destruct (Obj.get row column) as [raw|] eqn:Hget; cbn [cell] in H |- *.
  - destruct (parseNPSValue_cases (JStr raw))
      as [(Hv & q & Hq & _) | (Hv & Hq)]; rewrite Hv in H |- *; rewrite ?Hq in H; rewrite ?Hq.
    + injection H as <-. rewrite andb_false_r. reflexivity.
    + destruct (negb (Str.blank raw)); injection H as <-; reflexivity.
  - cbn [parseNPSValue valid value] in H |- *. injection H as <-. reflexivity.
Qed.

Lemma score_row_effect (cols : list string) (row : Obj.t) :
  forall t t', score_row cols t row = Ok t' ->
  t' = fold_left count_invalid (flat_map (failed_raw_of row) cols)
         (fold_left count_score (flat_map (fun c => valid_value_of c row) cols) t).
Proof.
  unfold score_row. induction cols as [|c cs IH]; intros t t' H; cbn [for_of] in H.
  - injection H as <-. reflexivity.
  - apply bind_Ok in H as (t1 & H1 & H2). apply IH in H2.
    apply score_cell_effect in H1. subst t' t1. cbn [flat_map].
    rewrite !fold_left_app.
    rewrite <- (fold_counts_commute (flat_map (fun c => valid_value_of c row) cs)
                  (failed_raw_of row c)).
    reflexivity.
Qed.

(** The tally after the loop: every valid value counted, then every invalid
    raw text noted. *)
Lemma scoring_loop_effect (cols : list string) (data : list Obj.t) :
  forall t t', for_of (score_row cols) data t = Ok t' ->
  t' = fold_left count_invalid (failed_raws data cols)
         (fold_left count_score (scored_values data cols) t).
Proof.
  induction data as [|row data IH]; intros t t' H; cbn [for_of] in H.
  - injection H as <-. reflexivity.
  - apply bind_Ok in H as (t1 & H1 & H2). apply IH in H2.
    apply score_row_effect in H1. subst t' t1.
    unfold failed_raws, scored_values. cbn [flat_map].
    rewrite !fold_left_app.
    rewrite <- (fold_counts_commute (scored_values data cols)
                  (flat_map (failed_raw_of row) cols)).
    reflexivity.
Qed.

Lemma fold_count_invalid_fields (raws : list string) (t : Tally) :
  t_totalRespostas (fold_left count_invalid raws t) = t_totalRespostas t
  /\ t_detratores (fold_left count_invalid raws t) = t_detratores t
  /\ t_neutros (fold_left count_invalid raws t) = t_neutros t
  /\ t_promotores (fold_left count_invalid raws t) = t_promotores t
  /\ t_respostasPorNota (fold_left count_invalid raws t) = t_respostasPorNota t
  /\ t_respostasInvalidasCount (fold_left count_invalid raws t)
     = t_respostasInvalidasCount t + length raws
  /\ t_valoresIgnorados (fold_left count_invalid raws t)
     = fold_left (fun seen x => if existsb (String.eqb x) seen then seen
                                else seen ++ [x]) raws (t_valoresIgnorados t).
Proof.
  revert t. induction raws as [|raw raws IH]; intros t; cbn [fold_left length].
  - repeat split; lia.
  - destruct (IH (count_invalid t raw)) as (-> & -> & -> & -> & -> & -> & ->).
    cbn [count_invalid t_totalRespostas t_detratores t_neutros t_promotores
         t_respostasPorNota t_respostasInvalidasCount t_valoresIgnorados].
    repeat split; lia.
Qed.

Lemma fold_count_score_fields (xs : list Q) (t : Tally) :
  t_totalRespostas (fold_left count_score xs t) = t_totalRespostas t + length xs
  /\ t_detratores (fold_left count_score xs t)
     = t_detratores t + count_category DETRATOR xs
  /\ t_neutros (fold_left count_score xs t)
     = t_neutros t + count_category NEUTRO xs
  /\ t_promotores (fold_left count_score xs t)
     = t_promotores t + count_category PROMOTOR xs
  /\ t_respostasInvalidasCount (fold_left count_score xs t)
     = t_respostasInvalidasCount t
  /\ t_valoresIgnorados (fold_left count_score xs t) = t_valoresIgnorados t.
Proof.
  revert t. induction xs as [|x xs IH]; intros t; cbn [fold_left length].
  - unfold count_category. cbn. repeat split; lia.
  - destruct (IH (count_score t x)) as (-> & -> & -> & -> & -> & ->).
    unfold count_category, is_category. cbn [List.filter].
    unfold count_score.
    cbn [t_totalRespostas t_detratores t_neutros t_promotores
         t_respostasInvalidasCount t_valoresIgnorados].
    destruct (getNPSCategory (Fin x)); cbn [length]; repeat split; lia.
Qed.

Lemma fold_count_score_bucket (xs : list Q) (k : Z) :
  forall (t : Tally) (n : nat),
  t_respostasPorNota t !! k = Some n ->
  t_respostasPorNota (fold_left count_score xs t) !! k = Some (n + count_grade k xs).
Proof.
  induction xs as [|x xs IH]; intros t n H; cbn [fold_left].
  - unfold count_grade. cbn. rewrite H. f_equal. lia.
  - unfold count_grade. cbn [List.filter]. fold (grade x).
    destruct (Z.eqb_spec (grade x) k) as [E|E].
    + rewrite (IH (count_score t x) (S n)).
      * unfold count_grade. cbn [length]. f_equal. lia.
      * unfold count_score. cbn [t_respostasPorNota]. fold (grade x).
        rewrite E, lookup_insert_eq, H. reflexivity.
    + rewrite (IH (count_score t x) n); [reflexivity|].
      unfold count_score. cbn [t_respostasPorNota]. fold (grade x).
      rewrite lookup_insert_ne by exact E. exact H.
Qed.

Lemma scored_values_no_columns (data : list Obj.t) : scored_values data [] = [].
Proof. induction data as [|row data IH]; [reflexivity | exact IH]. Qed.

Lemma failed_raws_no_columns (data : list Obj.t) : failed_raws data [] = [].
Proof. induction data as [|row data IH]; [reflexivity | exact IH]. Qed.

Lemma scored_values_range (data : list Obj.t) (cols : list string) (x : Q) :
  In x (scored_values data cols) -> (0 <= x)%Q /\ (x <= 10)%Q.
Proof.
  unfold scored_values. rewrite in_flat_map. intros (row & _ & Hx).
  rewrite in_flat_map in Hx. destruct Hx as (c & _ & Hx).
  apply (valid_values_range [row] c). unfold valid_values. cbn [flat_map].
  rewrite app_nil_r. exact Hx.
Qed.

(** The tally that [calculateNPS] reports, read off the columns it names:
    every field, with the two that the zero summary overrides. *)
Lemma calculateNPS_tally (data : list Obj.t) (given : option (list string))
  (r : NPSData) :
  calculateNPS data given = Ok r ->
  let cols := colunasIdentificadas r in
  let t := fold_left count_invalid (failed_raws data cols)
             (fold_left count_score (scored_values data cols) initial_tally) in
  totalRespostas r = t_totalRespostas t
  /\ detratores r = t_detratores t
  /\ neutros r = t_neutros t
  /\ promotores r = t_promotores t
  /\ valoresIgnorados (debug r) = t_valoresIgnorados t
  /\ (totalRespostas r = 0 ->
      respostasInvalidas r = length (t_valoresIgnorados t)
      /\ respostasPorNota r = ∅)
  /\ (0 < totalRespostas r ->
      respostasInvalidas r = t_respostasInvalidasCount t
      /\ respostasPorNota r = t_respostasPorNota t).
Proof.
  intros H. apply calculateNPS_cases in H as [[analyzed ->] | (cols & st & _ & H)].
  - cbn [colunasIdentificadas emptyNPSData].
    rewrite scored_values_no_columns, failed_raws_no_columns. cbn.
    repeat split; lia.
  - unfold summarize in H. apply bind_Ok in H as (t & Hloop & H).
    pose proof (scoring_loop_ok _ _ _ Hloop) as [Hsum _].
    apply scoring_loop_effect in Hloop.
    destruct (Nat.eqb_spec (t_totalRespostas t) 0) as [E|E];
      injection H as <-;
      cbn [colunasIdentificadas emptyNPSData totalRespostas detratores neutros
           promotores debug valoresIgnorados respostasInvalidas respostasPorNota];
      rewrite <- Hloop.
    + assert (t_detratores t = 0 /\ t_neutros t = 0 /\ t_promotores t = 0)
        as (-> & -> & ->) by lia.
      rewrite E. repeat split; lia.
    + repeat split; lia.
Qed.

(** ** Counters, histogram and ignored values of a summary *)

Lemma existsb_eqb_In (x : string) (l : list string) :
  existsb (String.eqb x) l = true <-> In x l.
Proof.
  rewrite existsb_exists. split.
  - intros (y & Hy & E). apply String.eqb_eq in E. subst y. exact Hy.
  - intros H. exists x. split; [exact H | apply String.eqb_refl].
Qed.

(** The deduplicating fold of [unique] and of the ignored-values list. *)
Lemma unique_fold (l : list string) :
  forall seen : list string,
  let out := fold_left (fun seen x => if existsb (String.eqb x) seen then seen
                                      else seen ++ [x]) l seen in
  (NoDup seen -> NoDup out)
  /\ (forall x, In x out <-> In x seen \/ In x l)
  /\ length out <= length seen + length l.
Proof.
  induction l as [|y l IH]; intros seen; cbn [fold_left].
  - split; [auto|]. split; [intros x; cbn [In]; tauto | cbn [length]; lia].
  - cbv zeta in IH |- *.
    destruct (existsb (String.eqb y) seen) eqn:E.
    + apply existsb_eqb_In in E. destruct (IH seen) as (Hnd & Hin & Hlen).
      split; [exact Hnd|]. split.
      * intros x. rewrite Hin. cbn [In]. split; [tauto|].
        intros [H|[<-|H]]; auto.
      * cbn [length]. lia.
    + assert (~ In y seen) as Hy.
      { intros Hy. apply existsb_eqb_In in Hy. congruence. }
      destruct (IH (seen ++ [y])) as (Hnd & Hin & Hlen).
      split; [|split].
      * intros Hs. apply Hnd. apply NoDup_app. split; [exact Hs|].
        split; [|apply NoDup_singleton].
        intros x Hx Hx'. apply list_elem_of_In in Hx, Hx'.
        destruct Hx' as [<-|[]]. exact (Hy Hx).
      * intros x. rewrite Hin, in_app_iff. cbn [In]. tauto.
      * rewrite length_app in Hlen. cbn [length] in *. lia.
Qed.

Lemma category_by_grade (x : Q) :
  is_category DETRATOR x = ((0 <=? grade x) && (grade x <=? 6))%Z
  /\ is_category PROMOTOR x
     = (negb ((0 <=? grade x) && (grade x <=? 6))
        && negb ((7 <=? grade x) && (grade x <=? 8))
        && ((9 <=? grade x) && (grade x <=? 10)))%Z
  /\ is_category NEUTRO x
     = (negb ((0 <=? grade x) && (grade x <=? 6))
        && negb ((9 <=? grade x) && (grade x <=? 10)
                 && negb ((7 <=? grade x) && (grade x <=? 8))))%Z.
Proof.
  unfold is_category, grade. rewrite getNPSCategory_Fin. cbv zeta.
  destruct ((0 <=? Num.round_half_up x) && (Num.round_half_up x <=? 6))%Z,
    ((7 <=? Num.round_half_up x) && (Num.round_half_up x <=? 8))%Z,
    ((9 <=? Num.round_half_up x) && (Num.round_half_up x <=? 10))%Z;
    repeat split.
Qed.

Lemma count_category_grades (xs : list Q) :
  count_category DETRATOR xs
  = count_grade 0 xs + count_grade 1 xs + count_grade 2 xs + count_grade 3 xs
    + count_grade 4 xs + count_grade 5 xs + count_grade 6 xs
  /\ ((forall x, In x xs -> (0 <= grade x <= 10)%Z) ->
      count_category NEUTRO xs = count_grade 7 xs + count_grade 8 xs)
  /\ count_category PROMOTOR xs = count_grade 9 xs + count_grade 10 xs
  /\ count_category DETRATOR xs + count_category NEUTRO xs
     + count_category PROMOTOR xs = length xs.
Proof.
  induction xs as [|x xs (IHd & IHn & IHp & IHl)]; [repeat split|].
  unfold count_category, count_grade in *. cbn [List.filter].
  destruct (category_by_grade x) as (-> & -> & ->).
  split; [|split; [|split]].
  - repeat match goal with
           | |- context [(?a =? ?b)%Z] => destruct (Z.eqb_spec a b)
           | |- context [(?a <=? ?b)%Z] => destruct (Z.leb_spec a b)
           end; cbn [andb negb length]; lia.
  - intros Hr. specialize (IHn (fun y Hy => Hr y (or_intror Hy))).
    pose proof (Hr x (or_introl eq_refl)) as Hx.
    repeat match goal with
           | |- context [(?a =? ?b)%Z] => destruct (Z.eqb_spec a b)
           | |- context [(?a <=? ?b)%Z] => destruct (Z.leb_spec a b)
           end; cbn [andb negb length]; lia.
  - repeat match goal with
           | |- context [(?a =? ?b)%Z] => destruct (Z.eqb_spec a b)
           | |- context [(?a <=? ?b)%Z] => destruct (Z.leb_spec a b)
           end; cbn [andb negb length]; lia.
  - repeat match goal with
           | |- context [(?a <=? ?b)%Z] => destruct (Z.leb_spec a b)
           end; cbn [andb negb length]; lia.
Qed.

Lemma scored_values_grade (data : list Obj.t) (cols : list string) (x : Q) :
  In x (scored_values data cols) -> (0 <= grade x <= 10)%Z.
Proof.
  intros H. apply scored_values_range in H as [H0 H10].
  apply round_half_up_range; assumption.
Qed.

Lemma initial_bucket (k : Z) :
  (0 <= k <= 10)%Z -> t_respostasPorNota initial_tally !! k = Some 0.
Proof.
  intros Hk.
  assert (k = 0 \/ k = 1 \/ k = 2 \/ k = 3 \/ k = 4 \/ k = 5 \/ k = 6 \/ k = 7
          \/ k = 8 \/ k = 9 \/ k = 10)%Z as Hcases by lia.
  repeat (destruct Hcases as [->|Hcases]; [vm_compute; reflexivity|]).
  subst k. vm_compute. reflexivity.
Qed.

Lemma summary_counts
  (data : list Obj.t) (given : option (list string)) (r : NPSData) :
  calculateNPS data given = Ok r ->
  let xs := scored_values data (colunasIdentificadas r) in
  totalRespostas r = length xs
  /\ detratores r = count_category DETRATOR xs
  /\ neutros r = count_category NEUTRO xs
  /\ promotores r = count_category PROMOTOR xs.
Proof.
  intros H xs. apply calculateNPS_tally in H as (Ht & Hd & Hn & Hp & _).
  fold xs in Ht, Hd, Hn, Hp.
  destruct (fold_count_invalid_fields
              (failed_raws data (colunasIdentificadas r))
              (fold_left count_score xs initial_tally))
    as (Et & Ed & En & Ep & _).
  destruct (fold_count_score_fields xs initial_tally) as (Ft & Fd & Fn & Fp & _).
  rewrite Et, Ft in Ht. rewrite Ed, Fd in Hd. rewrite En, Fn in Hn.
  rewrite Ep, Fp in Hp. cbn in Ht, Hd, Hn, Hp. auto.
Qed.

(** X2.  The counters of a summary count the valid values of the cells the
    loop visits (every record, every identified column it has): the total is
    their number, and each category counter is the number of them in that
    category.  Each of these values lies between 0 and 10.  Blank, missing and
    unparseable cells add nothing. *)
Theorem calculateNPS_counts_valid_values
  (data : list Obj.t) (given : option (list string)) (r : NPSData) :
  calculateNPS data given = Ok r ->
  let xs := scored_values data (colunasIdentificadas r) in
  totalRespostas r = length xs
  /\ detratores r = count_category DETRATOR xs
  /\ neutros r = count_category NEUTRO xs
  /\ promotores r = count_category PROMOTOR xs
  /\ (forall x, In x xs -> (0 <= x)%Q /\ (x <= 10)%Q).
Proof.
  intros H xs. destruct (summary_counts data given r H) as (Ht & Hd & Hn & Hp).
  repeat split; try assumption; eapply scored_values_range; eassumption.
Qed.

(** X3.  In a summary with at least one valid answer, the bucket of each
    grade 0..10 holds the number of valid values that round to it, and the
    counters are sums of buckets: detractors over 0..6, passives over 7..8,
    promoters over 9..10, the total over all eleven. *)
Theorem calculateNPS_histogram_counts
  (data : list Obj.t) (given : option (list string)) (r : NPSData) :
  calculateNPS data given = Ok r -> 0 < totalRespostas r ->
  let xs := scored_values data (colunasIdentificadas r) in
  let b := bucket (respostasPorNota r) in
  (forall k, (0 <= k <= 10)%Z -> respostasPorNota r !! k = Some (count_grade k xs))
  /\ detratores r = b 0%Z + b 1%Z + b 2%Z + b 3%Z + b 4%Z + b 5%Z + b 6%Z
  /\ neutros r = b 7%Z + b 8%Z
  /\ promotores r = b 9%Z + b 10%Z
  /\ totalRespostas r
     = b 0%Z + b 1%Z + b 2%Z + b 3%Z + b 4%Z + b 5%Z + b 6%Z + b 7%Z + b 8%Z
       + b 9%Z + b 10%Z.
Proof.
  intros H Hpos xs b.
  destruct (summary_counts data given r H) as (Ht & Hd & Hn & Hp).
  apply calculateNPS_tally in H as (_ & _ & _ & _ & _ & _ & Hh).
  destruct (Hh Hpos) as [_ Hhist]. fold xs in Hhist, Hd, Hn, Hp.
  destruct (fold_count_invalid_fields
              (failed_raws data (colunasIdentificadas r))
              (fold_left count_score xs initial_tally))
    as (_ & _ & _ & _ & Eh & _).
  rewrite Eh in Hhist.
  assert (Hb : forall k, (0 <= k <= 10)%Z ->
            respostasPorNota r !! k = Some (count_grade k xs)).
  { intros k Hk. rewrite Hhist.
    rewrite (fold_count_score_bucket xs k initial_tally 0 (initial_bucket k Hk)).
    reflexivity. }
  split; [exact Hb|].
  destruct (count_category_grades xs) as (Cd & Cn & Cp & Cl).
  specialize (Cn (scored_values_grade data (colunasIdentificadas r))).
  unfold b, bucket. rewrite !Hb by lia. cbn [default from_option id].
  fold xs in Ht. rewrite Ht, Hd, Hn, Hp. lia.
Qed.

Lemma failed_raws_row_length (row : Obj.t) (cols : list string) :
  length (flat_map (failed_raw_of row) cols)
  = length (List.filter (failed_cell row) cols).
Proof.
  induction cols as [|c cols IH]; [reflexivity|].
  cbn [flat_map List.filter]. rewrite length_app, IH.
  unfold failed_raw_of. destruct (failed_cell row c) eqn:E; [|reflexivity].
  unfold failed_cell in E. destruct (Obj.get row c); [reflexivity|].
  rewrite andb_false_r in E. discriminate E.
Qed.

Lemma failed_raws_length (data : list Obj.t) (cols : list string) :
  length (failed_raws data cols) = failed_cells data cols.
Proof.
  unfold failed_raws, failed_cells.
  induction data as [|row data IH]; [reflexivity|].
  cbn [flat_map map list_sum fold_right]. rewrite length_app, IH.
  rewrite failed_raws_row_length. reflexivity.
Qed.

Lemma failed_raws_In (data : list Obj.t) (cols : list string) (s : string) :
  In s (failed_raws data cols) <->
  exists row c, In row data /\ In c cols /\ failed_cell row c = true
                /\ Obj.get row c = Some s.
Proof.
  unfold failed_raws. rewrite in_flat_map. split.
  - intros (row & Hrow & H). rewrite in_flat_map in H. destruct H as (c & Hc & H).
    exists row, c. unfold failed_raw_of in H.
    destruct (failed_cell row c); [|contradiction].
    destruct (Obj.get row c) as [raw|]; [|contradiction].
    destruct H as [<-|[]]. auto.
  - intros (row & c & Hrow & Hc & Hf & Hg). exists row. split; [exact Hrow|].
    rewrite in_flat_map. exists c. split; [exact Hc|].
    unfold failed_raw_of. rewrite Hf, Hg. left. reflexivity.
Qed.

(** X4.  The ignored values of a summary are the raw texts of the cells that
    count as invalid responses (present, not blank, not parsed), each text
    once, in the order it is first met; the list has no duplicate.  A summary
    with a valid answer reports the number of such cells; a summary with
    none reports the length of the list, that is the number of distinct
    texts. *)
Theorem calculateNPS_ignored_values
  (data : list Obj.t) (given : option (list string)) (r : NPSData) :
  calculateNPS data given = Ok r ->
  let raws := failed_raws data (colunasIdentificadas r) in
  valoresIgnorados (debug r) = unique raws
  /\ NoDup (valoresIgnorados (debug r))
  /\ (forall s, In s (valoresIgnorados (debug r)) <->
        exists row c, In row data /\ In c (colunasIdentificadas r)
                      /\ failed_cell row c = true /\ Obj.get row c = Some s)
  /\ (0 < totalRespostas r -> respostasInvalidas r = length raws)
  /\ (totalRespostas r = 0 ->
      respostasInvalidas r = length (valoresIgnorados (debug r))
      /\ respostasInvalidas r <= length raws).
Proof.
  intros H raws. apply calculateNPS_tally in H as (_ & _ & _ & _ & Hv & Hz & Hp).
  fold raws in Hv, Hz, Hp.
  destruct (fold_count_invalid_fields raws
              (fold_left count_score
                 (scored_values data (colunasIdentificadas r)) initial_tally))
    as (_ & _ & _ & _ & _ & Ei & Ev).
  destruct (fold_count_score_fields
              (scored_values data (colunasIdentificadas r)) initial_tally)
    as (_ & _ & _ & _ & Fi & Fv).
  rewrite Ev, Fv in Hv, Hz. rewrite Ei, Fi in Hp.
  cbn [initial_tally t_valoresIgnorados t_respostasInvalidasCount] in Hv, Hz, Hp.
  fold (unique raws) in Hv, Hz.
  destruct (unique_fold raws []) as (Hnd & Hin & Hlen).
  fold (unique raws) in Hnd, Hin, Hlen. cbn [length] in Hlen.
  rewrite Hv. split; [reflexivity|]. split; [apply Hnd, NoDup_nil_2|]. split.
  - intros s. rewrite Hin. cbn [In]. rewrite <- (failed_raws_In data). tauto.
  - split.
    + intros Hpos. destruct (Hp Hpos) as [-> _]. lia.
    + intros Hzero. destruct (Hz Hzero) as [-> _]. split; [reflexivity | lia].
Qed.

(** ** The final score *)

Lemma round64_signed_err (q : Q) :
  (Qabs q <= 1024)%Q ->
  exists y, Num.round64 q = Fin y /\ (Qabs (y - q) <= Qabs q * u64 + eta64)%Q.
Proof.
  intros Hq. destruct (Qlt_le_dec q 0) as [Hneg|Hpos].
  - destruct q as [[|n|n] d].
    + exfalso. revert Hneg. unfold Qlt. cbn. lia.
    + exfalso. revert Hneg. unfold Qlt. cbn. lia.
    + unfold Num.round64. cbn [Qnum Qden].
      change (Qabs (Z.neg n # d)) with (Z.pos n # d) in Hq |- *.
      destruct (round64_pos_err n d Hq) as (y & -> & Hy0 & Hy).
      exists (- y)%Q. split; [reflexivity|].
      assert (- y - (Z.neg n # d) == - (y - (Z.pos n # d)))%Q as ->.
      { assert ((Z.neg n # d) == - (Z.pos n # d))%Q as -> by reflexivity. ring. }
      rewrite Qabs_opp. exact Hy.
  - pose proof (Qabs_pos q Hpos) as Habs. rewrite Habs in Hq.
    destruct (round64_err q Hpos Hq) as (y & Hy & _ & Herr).
    exists y. split; [exact Hy|]. rewrite Habs. exact Herr.
Qed.

Lemma summarize_score (data : list Obj.t) (cols : list string)
  (st : ColumnIdentificationStats) (r : NPSData) :
  summarize data cols st = Ok r -> 0 < totalRespostas r ->
  score r = Num.Math_round (Num.sub (percentualPromotores r) (percentualDetratores r)).
Proof.
  unfold summarize. intros H Hpos. apply bind_Ok in H as (t & _ & H).
  destruct (t_totalRespostas t =? 0)%nat; injection H as <-.
  - cbn in Hpos. lia.
  - reflexivity.
Qed.

(** X5.  The score of a summary is an integer between -100 and 100.  With at
    least one valid answer it is the exact value
    [100 * (promoters - detractors) / total] rounded to the nearest integer,
    up to the rounding of the arithmetic: it differs from the exact value by
    at most [1/2 + 2^-44]. *)
Theorem calculateNPS_score_range
  (data : list Obj.t) (given : option (list string)) (r : NPSData) :
  calculateNPS data given = Ok r ->
  exists z : Z,
    score r = Fin (inject_Z z) /\ (-100 <= z <= 100)%Z
    /\ (totalRespostas r = 0 -> z = 0%Z)
    /\ (0 < totalRespostas r ->
        (Qabs (inject_Z z
               - 100 * (inject_Z (Z.of_nat (promotores r))
                        - inject_Z (Z.of_nat (detratores r)))
                 / inject_Z (Z.of_nat (totalRespostas r)))
         <= (1 # 2) + (1 # 17592186044416))%Q).
Proof.
  intros H.
  apply calculateNPS_cases in H as [[analyzed ->] | (cols & st & _ & H)].
  { exists 0%Z. cbn. repeat split; try lia. }
  pose proof (summarize_score _ _ _ _ H) as Hscore.
  apply summarize_cases in H as (t & Hloop & [[_ ->] | H]).
  { exists 0%Z. cbn. repeat split; try lia. }
  destruct H as (Hpos & Htot & Hdet & _ & Hpro & _ & _ & _ & HpD & _ & HpP).
  destruct (scoring_loop_ok _ _ _ Hloop) as [Hsum _].
  rewrite Hscore by lia. rewrite HpD, HpP, Htot, Hdet, Hpro. clear Hscore.
  destruct (percentage_err (t_promotores t) (t_totalRespostas t) Hpos ltac:(lia))
    as (p & -> & Hp).
  destruct (percentage_err (t_detratores t) (t_totalRespostas t) Hpos ltac:(lia))
    as (d & -> & Hd).
  set (T := inject_Z (Z.of_nat (t_totalRespostas t))) in *.
  set (P := inject_Z (Z.of_nat (t_promotores t))) in *.
  set (D := inject_Z (Z.of_nat (t_detratores t))) in *.
  assert (0 < T)%Q as HT by (unfold T; rewrite <- (Zlt_Qlt 0); lia).
  assert (0 <= P)%Q as HP0 by (unfold P; rewrite <- (Zle_Qle 0); lia).
  assert (0 <= D)%Q as HD0 by (unfold D; rewrite <- (Zle_Qle 0); lia).
  assert (P <= T)%Q as HPT by (unfold P, T; rewrite <- Zle_Qle; lia).
  assert (D <= T)%Q as HDT by (unfold D, T; rewrite <- Zle_Qle; lia).
  assert (0 <= P / T /\ P / T <= 1)%Q as [Hxp0 Hxp1].
  { split; [apply Qle_shift_div_l | apply Qle_shift_div_r]; lra. }
  assert (0 <= D / T /\ D / T <= 1)%Q as [Hxd0 Hxd1].
  { split; [apply Qle_shift_div_l | apply Qle_shift_div_r]; lra. }
  pose proof u64_value as Hu. destruct eta64_small as [He0 He1].
  apply Qabs_Qle_condition in Hp as [Hp1 Hp2], Hd as [Hd1 Hd2].
  rewrite Hu in Hp1, Hp2, Hd1, Hd2.
  unfold Num.sub, Num.neg, Num.add.
  destruct (round64_signed_err (p + - d)) as (y & -> & Hy).
  { apply Qabs_Qle_condition. split; lra. }
  assert (Qabs (p + - d) <= 101)%Q as Hpd by (apply Qabs_Qle_condition; split; lra).
  rewrite Hu in Hy. apply Qabs_Qle_condition in Hy as [Hy1 Hy2].
  unfold Num.Math_round, Num.of_Z.
  destruct (round_half_up_spec y) as [Hr1 Hr2].
  set (z := Num.round_half_up y) in *.
  exists z. split; [reflexivity|].
  assert (100 * (P - D) / T == 100 * (P / T) - 100 * (D / T))%Q as Hexact
    by (field; lra).
  assert (-101 < inject_Z z /\ inject_Z z < 101)%Q as [Hz1 Hz2] by (split; lra).
  change (-101)%Q with (inject_Z (-101)) in Hz1.
  change 101%Q with (inject_Z 101) in Hz2.
  rewrite <- Zlt_Qlt in Hz1, Hz2.
  split; [lia|]. split; [lia|]. intros _.
  rewrite Hexact. apply Qabs_Qle_condition. split; lra.
Qed.

(** ** The column identifier *)

Lemma geb_30_10 (x : number) :
  Num.geb x (Num.of_Z 30) = true -> Num.geb x (Num.of_Z 10) = true.
Proof.
  destruct x as [| | |q]; cbn; try discriminate; try reflexivity.
  intros H. apply Qle_bool_iff in H. apply Qle_bool_iff.
  change (inject_Z 30) with 30%Q in H. change (inject_Z 10) with 10%Q. lra.
Qed.

(** What one header does to the two lists of the loop. *)
Lemma identify_step_spec (data : list Obj.t) (column : string)
  (ids ans ids' ans' : list string) :
  identify_step data (ids, ans) column = Ok (ids', ans') ->
  ans' = ans ++ List.filter not_rowId [column]
  /\ ids' = ids ++ List.filter (column_qualifies data)
                               (List.filter not_rowId [column]).
Proof.
  unfold identify_step, not_rowId. cbn [List.filter].
  destruct (String.eqb column "_rowId"); cbn [negb List.filter].
  - intros H. injection H as <- <-. rewrite !app_nil_r. auto.
  - intros H. apply bind_Ok in H as (st & Hst & H).
    unfold column_qualifies. rewrite Hst. unfold qualifies.
    fold (suggestive column) in H.
    destruct (suggestive column), (hasExpectedRange st);
      cbn [andb negb] in H |- *; rewrite ?andb_false_r in H.
    + destruct (Num.geb (validPercentage st) (Num.of_Z 30)) eqn:E30.
      * rewrite (geb_30_10 _ E30). injection H as <- <-. auto.
      * cbn [andb] in H.
        destruct (Num.geb (validPercentage st) (Num.of_Z 10));
          injection H as <- <-; rewrite ?app_nil_r; auto.
    + cbn [andb] in H. injection H as <- <-. rewrite app_nil_r. auto.
    + destruct (Num.geb (validPercentage st) (Num.of_Z 50));
        injection H as <- <-; rewrite ?app_nil_r; auto.
    + injection H as <- <-. rewrite app_nil_r. auto.
Qed.

Lemma identify_loop_spec (data : list Obj.t) (headers : list string) :
  forall ids ans ids' ans',
  for_of (identify_step data) headers (ids, ans) = Ok (ids', ans') ->
  ans' = ans ++ List.filter not_rowId headers
  /\ ids' = ids ++ List.filter (column_qualifies data)
                               (List.filter not_rowId headers).
Proof.
  induction headers as [|h headers IH]; intros ids ans ids' ans' H;
    cbn [for_of] in H.
  - injection H as <- <-. cbn. rewrite !app_nil_r. auto.
  - apply bind_Ok in H as ([ids1 ans1] & H1 & H2).
    apply identify_step_spec in H1 as [-> ->].
    apply IH in H2 as [-> ->].
    change (h :: headers) with ([h] ++ headers).
    rewrite !List.filter_app, <- !app_assoc. auto.
Qed.

Lemma identifyNPSColumns_spec (data : list Obj.t) (ident : IdentifiedColumns) :
  identifyNPSColumns data = Ok ident ->
  let headers := match data with [] => [] | firstRow :: _ => Obj.keys firstRow end in
  analyzedColumns (stats ident) = List.filter not_rowId headers
  /\ columns ident
     = unique (List.filter (column_qualifies data) (List.filter not_rowId headers)).
Proof.
  unfold identifyNPSColumns. destruct data as [|firstRow rest].
  - intros H. injection H as <-. cbn. auto.
  - intros H. apply bind_Ok in H as ([ids ans] & Hloop & H).
    apply identify_loop_spec in Hloop as [-> ->]. injection H as <-.
    cbn [analyzedColumns stats columns app]. auto.
Qed.

(** X6.  The columns [identifyNPSColumns] analyses are the keys of the first
    record but [_rowId], in key order.  The columns it identifies are among
    them, each once, and never [_rowId].  No record means no column. *)
Theorem identifyNPSColumns_columns (data : list Obj.t) (ident : IdentifiedColumns) :
  identifyNPSColumns data = Ok ident ->
  analyzedColumns (stats ident)
  = List.filter not_rowId
      match data with [] => [] | firstRow :: _ => Obj.keys firstRow end
  /\ NoDup (columns ident)
  /\ (forall c, In c (columns ident) -> In c (analyzedColumns (stats ident)))
  /\ ~ In "_rowId" (columns ident)
  /\ (data = [] -> columns ident = [] /\ analyzedColumns (stats ident) = []).
Proof.
  intros H. pose proof (identifyNPSColumns_spec data ident H) as [Ha Hc].
  cbv zeta in Ha, Hc. rewrite <- Ha in Hc.
  destruct (unique_fold (List.filter (column_qualifies data)
                           (analyzedColumns (stats ident))) [])
    as (Hnd & Hin & _).
  fold (unique (List.filter (column_qualifies data)
                  (analyzedColumns (stats ident)))) in Hnd, Hin.
  rewrite <- Hc in Hnd, Hin.
  assert (forall c, In c (columns ident) -> In c (analyzedColumns (stats ident)))
    as Hsub.
  { intros c Hcin. apply Hin in Hcin as [[]|Hcin].
    apply filter_In in Hcin. tauto. }
  split; [exact Ha|]. split; [apply Hnd, NoDup_nil_2|]. split; [exact Hsub|].
  split.
  - intros Hrow. apply Hsub in Hrow. rewrite Ha in Hrow.
    apply filter_In in Hrow as [_ Hrow]. discriminate Hrow.
  - intros ->. cbn in H. injection H as <-. auto.
Qed.

(** X7.  A column is identified exactly when it is analysed, its valid
    values show the expected range, and the share of valid values reaches
    the threshold of its name: 10 percent under a suggestive name, 50
    percent under any other.  The 30 percent rule decides nothing: a column
    that meets it meets the 10 percent rule. *)
Theorem identifyNPSColumns_rule (data : list Obj.t) (ident : IdentifiedColumns)
  (c : string) :
  identifyNPSColumns data = Ok ident ->
  In c (columns ident) <->
  In c (analyzedColumns (stats ident))
  /\ exists st, analyzeColumnValues data c = Ok st
     /\ hasExpectedRange st = true
     /\ Num.geb (validPercentage st)
                (Num.of_Z (if suggestive c then 10 else 50)) = true.
Proof.
  intros H. pose proof (identifyNPSColumns_spec data ident H) as [Ha Hc].
  cbv zeta in Ha, Hc. rewrite <- Ha in Hc.
  destruct (unique_fold (List.filter (column_qualifies data)
                           (analyzedColumns (stats ident))) [])
    as (_ & Hin & _).
  fold (unique (List.filter (column_qualifies data)
                  (analyzedColumns (stats ident)))) in Hin.
  rewrite <- Hc in Hin. rewrite Hin, filter_In. cbn [In].
  unfold column_qualifies, qualifies. split.
  - intros [[]|[Han Hq]]. split; [exact Han|].
    destruct (analyzeColumnValues data c) as [st|e]; [|discriminate Hq].
    apply andb_true_iff in Hq as [Hr Hp]. eauto.
  - intros (Han & st & -> & Hr & Hp). right. split; [exact Han|].
    rewrite Hr, Hp. reflexivity.
Qed.

(** ** Explicit columns *)

(** X8.  Columns named by the caller are used as they are, and the analysed
    columns reported are then all the keys of the first record, [_rowId]
    included.  Without named columns the analysed columns reported are the
    keys of the first record but [_rowId].  An empty list of columns is the
    same as no list. *)
Theorem calculateNPS_explicit_columns
  (firstRow : Obj.t) (rest : list Obj.t) (r : NPSData) :
  (forall c cs, calculateNPS (firstRow :: rest) (Some (c :: cs)) = Ok r ->
     colunasIdentificadas r = c :: cs
     /\ colunasAnalisadas (debug r) = Obj.keys firstRow)
  /\ (calculateNPS (firstRow :: rest) None = Ok r ->
      colunasAnalisadas (debug r) = List.filter not_rowId (Obj.keys firstRow))
  /\ (forall data, calculateNPS data (Some []) = calculateNPS data None).
Proof.
  split; [|split; [|intros [|row data]; reflexivity]].
  - intros c cs H. cbn [calculateNPS] in H. unfold summarize in H.
    apply bind_Ok in H as (t & _ & H).
    destruct (t_totalRespostas t =? 0)%nat; injection H as <-; auto.
  - intros H. cbn [calculateNPS] in H. apply bind_Ok in H as (ident & Hid & H).
    apply identifyNPSColumns_spec in Hid as [Ha _]. cbv zeta in Ha.
    rewrite <- Ha. destruct (columns ident); [injection H as <-; reflexivity|].
    unfold summarize in H. apply bind_Ok in H as (t & _ & H).
    destruct (t_totalRespostas t =? 0)%nat; injection H as <-; reflexivity.
Qed.

(** ** The score parser *)

(** X9.  [parseNPSValue] marks a result valid exactly when it carries a
    value, and a value it carries lies between 0 and 10.  [null],
    [undefined], [NaN] and every blank text are invalid; a finite number is
    valid exactly when it lies between 0 and 10. *)
Theorem parseNPSValue_sound (v : jsval) :
  (valid (parseNPSValue v) = true <-> exists q, value (parseNPSValue v) = Some q)
  /\ (forall q, value (parseNPSValue v) = Some q -> (0 <= q)%Q /\ (q <= 10)%Q)
  /\ (forall s, Str.blank s = true ->
        parseNPSValue (JStr s) = {| valid := false; value := None |})
  /\ (forall q, valid (parseNPSValue (JNum (Fin q))) = true
                <-> (0 <= q)%Q /\ (q <= 10)%Q)
  /\ valid (parseNPSValue JNull) = false
  /\ valid (parseNPSValue JUndefined) = false
  /\ valid (parseNPSValue (JNum NaN)) = false.
Proof.
  split_and!; try reflexivity.
  - destruct (parseNPSValue_cases v) as [(Hv & q & Hq & _) | (Hv & Hq)];
      rewrite Hv, Hq; split; eauto; try discriminate.
    intros [q' Hq']. discriminate Hq'.
  - intros q Hq.
    destruct (parseNPSValue_cases v) as [(_ & q' & Hq' & Hr) | (_ & Hq')];
      rewrite Hq' in Hq; [injection Hq as <-; exact Hr | discriminate Hq].
  - intros s Hs. unfold parseNPSValue. destruct (Str.is_empty s); [reflexivity|].
    unfold Str.blank in Hs. destruct (Str.trim s); [|discriminate Hs].
    vm_compute. reflexivity.
  - intros q. cbn [parseNPSValue]. unfold range_checked. cbn.
    rewrite andb_true_iff, !Qle_bool_iff. reflexivity.
Qed.

Lemma parseNPSValue_sound_witness :
  parseNPSValue (JStr "   ") = {| valid := false; value := None |}
  /\ valid (parseNPSValue (JNum (Fin (15 # 2)))) = true.
Proof.
  destruct (parseNPSValue_sound (JStr "   ")) as (_ & _ & Hb & _).
  destruct (parseNPSValue_sound (JNum (Fin (15 # 2)))) as (_ & _ & _ & Hn & _).
  split; [apply Hb; reflexivity | apply Hn; split; discriminate].
Defined.

(** ** Witnesses on worked examples *)

Lemma getNPSClassification_bands_witness :
  getNPSClassification (Fin 25) = "Ruim" /\ getNPSColor (Fin 25) = "#FF851B".
Proof.
  destruct (getNPSClassification_bands 25) as (_ & Hr & _).
  split; [apply Hr; split; discriminate | reflexivity].
Defined.

Lemma calculateNPS_counts_valid_values_witness :
  exists r, calculateNPS Survey.records None = Ok r
  /\ totalRespostas r = length (scored_values Survey.records (colunasIdentificadas r)).
Proof.
  destruct (calculateNPS Survey.records None) as [r|e] eqn:E;
    [|vm_compute in E; discriminate E].
  exists r. split; [reflexivity|].
  apply (calculateNPS_counts_valid_values _ _ r E).
Defined.

Lemma calculateNPS_histogram_counts_witness :
  exists r, calculateNPS Examples.four_answers (Some ["score"]) = Ok r
  /\ detratores r
     = bucket (respostasPorNota r) 0 + bucket (respostasPorNota r) 1
       + bucket (respostasPorNota r) 2 + bucket (respostasPorNota r) 3
       + bucket (respostasPorNota r) 4 + bucket (respostasPorNota r) 5
       + bucket (respostasPorNota r) 6.
Proof.
  destruct (calculateNPS Examples.four_answers (Some ["score"])) as [r|e] eqn:E;
    [|vm_compute in E; discriminate E].
  exists r. split; [reflexivity|].
  apply (calculateNPS_histogram_counts _ _ r E).
  assert (totalRespostas <$> calculateNPS Examples.four_answers (Some ["score"])
          = Ok 4) as Ht by (vm_compute; reflexivity).
  rewrite E in Ht. injection Ht as ->. lia.
Defined.

Lemma calculateNPS_ignored_values_witness :
  exists r, calculateNPS Survey.records None = Ok r
  /\ NoDup (valoresIgnorados (debug r)).
Proof.
  destruct (calculateNPS Survey.records None) as [r|e] eqn:E;
    [|vm_compute in E; discriminate E].
  exists r. split; [reflexivity|].
  apply (calculateNPS_ignored_values _ _ r E).
Defined.

Lemma calculateNPS_score_range_witness :
  exists r z, calculateNPS Survey.records None = Ok r
  /\ score r = Fin (inject_Z z) /\ (-100 <= z <= 100)%Z.
Proof.
  destruct (calculateNPS Survey.records None) as [r|e] eqn:E;
    [|vm_compute in E; discriminate E].
  destruct (calculateNPS_score_range _ _ r E) as (z & Hz & Hr & _).
  exists r, z. auto.
Defined.

Lemma identifyNPSColumns_columns_witness :
  NoDup (columns Survey.identified)
  /\ ~ In "_rowId" (columns Survey.identified).
Proof.
  assert (identifyNPSColumns Survey.records = Ok Survey.identified) as H
    by (vm_compute; reflexivity).
  destruct (identifyNPSColumns_columns _ _ H) as (_ & Hnd & _ & Hrow & _).
  auto.
Defined.

Lemma identifyNPSColumns_rule_witness :
  In "Comentario" (columns Survey.identified) <->
  In "Comentario" (analyzedColumns (stats Survey.identified))
  /\ exists st, analyzeColumnValues Survey.records "Comentario" = Ok st
     /\ hasExpectedRange st = true
     /\ Num.geb (validPercentage st)
                (Num.of_Z (if suggestive "Comentario" then 10 else 50)) = true.
Proof.
  apply (identifyNPSColumns_rule Survey.records Survey.identified "Comentario").
  vm_compute. reflexivity.
Defined.

Lemma calculateNPS_explicit_columns_witness :
  exists r, calculateNPS Examples.repeated_invalid (Some ["score"]) = Ok r
  /\ colunasAnalisadas (debug r) = ["score"; "_rowId"].
Proof.
  destruct (calculateNPS Examples.repeated_invalid (Some ["score"])) as [r|e] eqn:E;
    [|vm_compute in E; discriminate E].
  exists r. split; [reflexivity|].
  destruct (calculateNPS_explicit_columns
              [("score", "abc"); ("_rowId", "row_1")]
              [[("score", "abc"); ("_rowId", "row_2")]] r) as (H & _).
  apply (H "score" [] E).
Defined.

(** ** Trimming *)

Lemma ws2_bytes (c1 c2 : ascii) :
  Str.is_ws2 c1 c2 = true -> (128 <= Str.code c1)%N /\ (128 <= Str.code c2)%N.
Proof.
  unfold Str.is_ws2. intros H. apply andb_true_iff in H as [H1 H2].
  apply N.eqb_eq in H1, H2. lia.
Qed.

Lemma ws3_bytes (c1 c2 c3 : ascii) :
  Str.is_ws3 c1 c2 c3 = true ->
  (128 <= Str.code c1)%N /\ (128 <= Str.code c2)%N /\ (128 <= Str.code c3)%N.
Proof.
  unfold Str.is_ws3. cbv zeta. intros H.
  repeat match type of H with
         | (_ || _) = true => apply orb_true_iff in H as [H|H]
         end;
    repeat match goal with
           | H : (_ && _) = true |- _ => apply andb_true_iff in H as [? ?]
           | H : (_ || _) = true |- _ => apply orb_true_iff in H as [?|?]
           | H : (_ =? _)%N = true |- _ => apply N.eqb_eq in H
           | H : (_ <=? _)%N = true |- _ => apply N.leb_le in H
           end; lia.
Qed.

Lemma solid_not_ws (c : ascii) :
  solid c ->
  Str.is_ws1 c = false
  /\ (forall x, Str.is_ws2 c x = false /\ Str.is_ws2 x c = false)
  /\ (forall x y, Str.is_ws3 c x y = false /\ Str.is_ws3 x c y = false
                  /\ Str.is_ws3 x y c = false).
Proof.
  intros [Hc Hw]. split; [exact Hw|]. split.
  - intros x. split.
    + destruct (Str.is_ws2 c x) eqn:E; [|reflexivity]. apply ws2_bytes in E. lia.
    + destruct (Str.is_ws2 x c) eqn:E; [|reflexivity]. apply ws2_bytes in E. lia.
  - intros x y. split; [|split].
    + destruct (Str.is_ws3 c x y) eqn:E; [|reflexivity]. apply ws3_bytes in E. lia.
    + destruct (Str.is_ws3 x c y) eqn:E; [|reflexivity]. apply ws3_bytes in E. lia.
    + destruct (Str.is_ws3 x y c) eqn:E; [|reflexivity]. apply ws3_bytes in E. lia.
Qed.

(** Induction for the functions that strip up to three bytes at a step. *)
Lemma list_ind_3 {A : Type} (P : list A -> Prop) :
  (forall l, (forall l', length l' < length l -> P l') -> P l) ->
  forall l, P l.
Proof.
  intros Hstep l. remember (length l) as n eqn:Hn. revert l Hn.
  induction n as [n IH] using lt_wf_ind. intros l ->.
  apply Hstep. intros l' Hl'. exact (IH (length l') Hl' l' eq_refl).
Qed.

Ltac strip_case IH r pre_bytes :=
  let Hok := fresh "Hok" in
  let pre := fresh "pre" in
  let Hpre := fresh "Hpre" in
  let Hin := fresh "Hin" in
  destruct (IH r ltac:(cbn [length]; lia)) as (Hok & [pre Hpre] & Hin);
  split; [exact Hok|]; split;
  [ exists (pre_bytes ++ pre); cbn [app]; rewrite <- Hpre; reflexivity | ].

Lemma trimStart_list_spec (l : list ascii) :
  head_ok (Str.trimStart_list l)
  /\ (exists pre, l = pre ++ Str.trimStart_list l)
  /\ (forall c, solid c -> In c l -> In c (Str.trimStart_list l)).
Proof.
  induction l as [l IH] using list_ind_3.
  assert (Hkeep : forall l0 : list ascii,
            head_ok l0 ->
            head_ok l0 /\ (exists pre, l0 = pre ++ l0)
            /\ (forall c, solid c -> In c l0 -> In c l0)).
  { intros l0 H. split; [exact H|]. split; [exists []; reflexivity | auto]. }
  destruct l as [|c1 r1]; [apply Hkeep; exact I|].
  cbn [Str.trimStart_list].
  destruct (Str.is_ws1 c1) eqn:E1.
  { strip_case IH r1 [c1].
    intros c Hc [<-|Hc']; [|auto]. destruct Hc as [_ Hc]. congruence. }
  destruct r1 as [|c2 r2]; [apply Hkeep; cbn; auto|].
  destruct (Str.is_ws2 c1 c2) eqn:E2.
  { strip_case IH r2 [c1; c2].
    intros c Hc Hcin. apply ws2_bytes in E2. pose proof Hc as [Hc128 _].
    destruct Hcin as [<-|[<-|Hc']]; [lia | lia | auto]. }
  destruct r2 as [|c3 r3]; [apply Hkeep; cbn; auto|].
  destruct (Str.is_ws3 c1 c2 c3) eqn:E3.
  { strip_case IH r3 [c1; c2; c3].
    intros c Hc Hcin. apply ws3_bytes in E3. pose proof Hc as [Hc128 _].
    destruct Hcin as [<-|[<-|[<-|Hc']]]; [lia | lia | lia | auto]. }
  apply Hkeep. cbn. auto.
Qed.

Lemma trimEnd_rev_spec (l : list ascii) :
  end_ok (Str.trimEnd_rev l)
  /\ (exists pre, l = pre ++ Str.trimEnd_rev l)
  /\ (forall c, solid c -> In c l -> In c (Str.trimEnd_rev l)).
Proof.
  induction l as [l IH] using list_ind_3.
  assert (Hkeep : forall l0 : list ascii,
            end_ok l0 ->
            end_ok l0 /\ (exists pre, l0 = pre ++ l0)
            /\ (forall c, solid c -> In c l0 -> In c l0)).
  { intros l0 H. split; [exact H|]. split; [exists []; reflexivity | auto]. }
  destruct l as [|c1 r1]; [apply Hkeep; exact I|].
  cbn [Str.trimEnd_rev].
  destruct (Str.is_ws1 c1) eqn:E1.
  { strip_case IH r1 [c1].
    intros c Hc [<-|Hc']; [|auto]. destruct Hc as [_ Hc]. congruence. }
  destruct r1 as [|c2 r2]; [apply Hkeep; cbn; auto|].
  destruct (Str.is_ws2 c2 c1) eqn:E2.
  { strip_case IH r2 [c1; c2].
    intros c Hc Hcin. apply ws2_bytes in E2. pose proof Hc as [Hc128 _].
    destruct Hcin as [<-|[<-|Hc']]; [lia | lia | auto]. }
  destruct r2 as [|c3 r3]; [apply Hkeep; cbn; auto|].
  destruct (Str.is_ws3 c3 c2 c1) eqn:E3.
  { strip_case IH r3 [c1; c2; c3].
    intros c Hc Hcin. apply ws3_bytes in E3. pose proof Hc as [Hc128 _].
    destruct Hcin as [<-|[<-|[<-|Hc']]]; [lia | lia | lia | auto]. }
  apply Hkeep. cbn. auto.
Qed.

Lemma head_ok_fixed (l : list ascii) : head_ok l -> Str.trimStart_list l = l.
Proof.
  destruct l as [|c1 [|c2 [|c3 r3]]]; cbn; [reflexivity| | |].
  - intros [-> _]. reflexivity.
  - intros (-> & -> & _). reflexivity.
  - intros (-> & -> & ->). reflexivity.
Qed.

Lemma end_ok_fixed (l : list ascii) : end_ok l -> Str.trimEnd_rev l = l.
Proof.
  destruct l as [|c1 [|c2 [|c3 r3]]]; cbn; [reflexivity| | |].
  - intros [-> _]. reflexivity.
  - intros (-> & -> & _). reflexivity.
  - intros (-> & -> & ->). reflexivity.
Qed.

Lemma head_ok_prefix (a b : list ascii) : head_ok (a ++ b) -> head_ok a.
Proof.
  destruct a as [|c1 [|c2 [|c3 r3]]]; cbn; try tauto.
Qed.

Lemma to_list_of_list (l : list ascii) : Str.to_list (Str.of_list l) = l.
Proof. apply list_ascii_of_string_of_list_ascii. Qed.

Lemma of_list_to_list (s : string) : Str.of_list (Str.to_list s) = s.
Proof. apply string_of_list_ascii_of_string. Qed.

(** The bytes of [trim s]: nothing to strip at either end. *)
Lemma trim_bytes (s : string) :
  exists b, Str.trim s = Str.of_list b /\ head_ok b /\ end_ok (rev b)
            /\ (forall c, solid c -> In c (Str.to_list s) -> In c b).
Proof.
  unfold Str.trim, Str.trimEnd, Str.trimStart. rewrite to_list_of_list.
  set (a := Str.trimStart_list (Str.to_list s)).
  destruct (trimStart_list_spec (Str.to_list s)) as (Ha & _ & Hina). fold a in Ha, Hina.
  destruct (trimEnd_rev_spec (rev a)) as (Hb & [pre Hpre] & Hinb).
  exists (rev (Str.trimEnd_rev (rev a))). split; [reflexivity|].
  rewrite rev_involutive. split; [|split; [exact Hb|]].
  - apply (head_ok_prefix _ (rev pre)). rewrite <- rev_app_distr, <- Hpre.
    rewrite rev_involutive. exact Ha.
  - intros c Hc Hin. rewrite <- in_rev. apply Hinb; [exact Hc|].
    rewrite <- in_rev. apply Hina; assumption.
Qed.

(** Trimming twice is trimming once. *)
Lemma trim_idempotent (s : string) : Str.trim (Str.trim s) = Str.trim s.
Proof.
  destruct (trim_bytes s) as (b & -> & Hh & He & _).
  unfold Str.trim, Str.trimEnd, Str.trimStart. rewrite !to_list_of_list.
  rewrite (head_ok_fixed b Hh), (end_ok_fixed _ He).
  rewrite rev_involutive. reflexivity.
Qed.

Lemma blank_trim (s : string) : Str.blank (Str.trim s) = Str.blank s.
Proof. unfold Str.blank. rewrite trim_idempotent. reflexivity. Qed.

(** A text with a solid byte is not blank. *)
Lemma solid_not_blank (s : string) (c : ascii) :
  solid c -> In c (Str.to_list s) -> Str.blank s = false.
Proof.
  intros Hc Hin. destruct (trim_bytes s) as (b & Hb & _ & _ & Hinb).
  unfold Str.blank. rewrite Hb. specialize (Hinb c Hc Hin).
  destruct b; [contradiction | reflexivity].
Qed.
(** ** Objects *)

Lemma has_keys (k : string) (o : Obj.t) :
  Obj.has k o = existsb (String.eqb k) (Obj.keys o).
Proof.
  unfold Obj.has, Obj.keys. induction o as [|[k' v'] o IH]; [reflexivity|].
  cbn. rewrite IH. reflexivity.
Qed.

Lemma get_replace (k v : string) (o : Obj.t) :
  (Obj.has k o = true -> Obj.get (Obj.replace k v o) k = Some v)
  /\ (forall k', k' <> k -> Obj.get (Obj.replace k v o) k' = Obj.get o k').
Proof.
  induction o as [|[k0 v0] o [IH1 IH2]]; [split; [discriminate | reflexivity]|].
  cbn [Obj.replace Obj.has existsb fst]. fold (Obj.has k o).
  destruct (String.eqb_spec k k0) as [<-|Hne]; cbn [orb Obj.get].
  - split.
    + intros _. rewrite String.eqb_refl. reflexivity.
    + intros k' Hk'. destruct (String.eqb_spec k' k); [contradiction | reflexivity].
  - split.
    + intros H. destruct (String.eqb_spec k k0); [contradiction | auto].
    + intros k' Hk'. destruct (String.eqb k' k0); [reflexivity | auto].
Qed.

Lemma get_insert_index (i : Z) (k v : string) (o : Obj.t) :
  (Obj.has k o = false -> Obj.get (Obj.insert_index i k v o) k = Some v)
  /\ (forall k', k' <> k -> Obj.get (Obj.insert_index i k v o) k' = Obj.get o k').
Proof.
  induction o as [|[k0 v0] o [IH1 IH2]].
  - cbn. rewrite String.eqb_refl. split; [reflexivity|].
    intros k' Hk'. destruct (String.eqb_spec k' k); [contradiction | reflexivity].
  - cbn [Obj.insert_index Obj.has existsb fst]. fold (Obj.has k o).
    assert (Hhere : Obj.get ((k, v) :: (k0, v0) :: o) k = Some v
                    /\ forall k', k' <> k ->
                       Obj.get ((k, v) :: (k0, v0) :: o) k'
                       = Obj.get ((k0, v0) :: o) k').
    { cbn [Obj.get]. rewrite String.eqb_refl. split; [reflexivity|].
      intros k' Hk'. destruct (String.eqb_spec k' k); [contradiction | reflexivity]. }
    destruct (Obj.array_index k0) as [j|]; [destruct (j <? i)%Z|].
    + cbn [Obj.get]. split.
      * intros H. apply orb_false_iff in H as [H0 H]. rewrite H0. auto.
      * intros k' Hk'. destruct (String.eqb k' k0); [reflexivity | auto].
    + destruct Hhere as [H1 H2]. split; [intros _; exact H1 | exact H2].
    + destruct Hhere as [H1 H2]. split; [intros _; exact H1 | exact H2].
Qed.

Lemma get_app_new (k v : string) (o : Obj.t) :
  (Obj.has k o = false -> Obj.get (o ++ [(k, v)]) k = Some v)
  /\ (forall k', k' <> k -> Obj.get (o ++ [(k, v)]) k' = Obj.get o k').
Proof.
  induction o as [|[k0 v0] o [IH1 IH2]].
  - cbn. rewrite String.eqb_refl. split; [reflexivity|].
    intros k' Hk'. destruct (String.eqb_spec k' k); [contradiction | reflexivity].
  - cbn [app Obj.get Obj.has existsb fst]. fold (Obj.has k o). split.
    + intros H. apply orb_false_iff in H as [H0 H]. rewrite H0. auto.
    + intros k' Hk'. destruct (String.eqb k' k0); [reflexivity | auto].
Qed.

(** Reading back what was assigned. *)
Lemma get_set_same (k v : string) (o : Obj.t) :
  k <> "__proto__" -> Obj.get (Obj.set k v o) k = Some v.
Proof.
  intros Hk. unfold Obj.set. destruct (Obj.has k o) eqn:Hhas.
  - apply get_replace, Hhas.
  - destruct (String.eqb_spec k "__proto__"); [contradiction|].
    destruct (Obj.array_index k).
    + apply get_insert_index, Hhas.
    + apply get_app_new, Hhas.
Qed.

(** An assignment leaves the other properties alone. *)
Lemma get_set_other (k v k' : string) (o : Obj.t) :
  k' <> k -> Obj.get (Obj.set k v o) k' = Obj.get o k'.
Proof.
  intros Hk. unfold Obj.set. destruct (Obj.has k o).
  - apply get_replace, Hk.
  - destruct (String.eqb k "__proto__"); [reflexivity|].
    destruct (Obj.array_index k).
    + apply get_insert_index, Hk.
    + apply get_app_new, Hk.
Qed.

Lemma get_In_values (o : Obj.t) (k v : string) :
  Obj.get o k = Some v -> In v (Obj.values o).
Proof.
  unfold Obj.values. induction o as [|[k0 v0] o IH]; [discriminate|].
  cbn. destruct (String.eqb k k0).
  - intros H. injection H as ->. left. reflexivity.
  - intros H. right. auto.
Qed.

Lemma keys_map_values (f : string -> string) (o : Obj.t) :
  Obj.keys (map_values f o) = Obj.keys o.
Proof.
  unfold Obj.keys, map_values. rewrite map_map. reflexivity.
Qed.

Lemma has_map_values (f : string -> string) (k : string) (o : Obj.t) :
  Obj.has k (map_values f o) = Obj.has k o.
Proof. rewrite !has_keys, keys_map_values. reflexivity. Qed.

(** Assigning and then mapping the values is mapping and then assigning:
    where a property goes depends on the keys alone. *)
Lemma replace_map_values (f : string -> string) (k v : string) (o : Obj.t) :
  map_values f (Obj.replace k v o) = Obj.replace k (f v) (map_values f o).
Proof.
  induction o as [|[k0 v0] o IH]; [reflexivity|].
  cbn [Obj.replace map_values map fst snd].
  destruct (String.eqb k k0); cbn [map fst snd]; [reflexivity|].
  f_equal. exact IH.
Qed.

Lemma insert_index_map_values (f : string -> string) (i : Z) (k v : string)
  (o : Obj.t) :
  map_values f (Obj.insert_index i k v o)
  = Obj.insert_index i k (f v) (map_values f o).
Proof.
  induction o as [|[k0 v0] o IH]; [reflexivity|].
  cbn [Obj.insert_index map_values map fst snd].
  destruct (Obj.array_index k0) as [j|]; [destruct (j <? i)%Z|];
    cbn [map fst snd]; [|reflexivity|reflexivity].
  f_equal. exact IH.
Qed.

(** Assigning and then mapping the values is mapping and then assigning:
    where a property goes depends on the keys alone. *)
Lemma set_map_values (f : string -> string) (k v : string) (o : Obj.t) :
  map_values f (Obj.set k v o) = Obj.set k (f v) (map_values f o).
Proof.
  unfold Obj.set. rewrite has_map_values. destruct (Obj.has k o).
  - apply replace_map_values.
  - destruct (String.eqb k "__proto__"); [reflexivity|].
    destruct (Obj.array_index k) as [i|].
    + apply insert_index_map_values.
    + unfold map_values. rewrite map_app. reflexivity.
Qed.

Lemma fold_set_map_values (f g : string -> string) (es : Obj.t) :
  forall acc : Obj.t,
  fold_left (fun acc (e : string * string) => Obj.set (fst e) (f (g (snd e))) acc)
            es (map_values f acc)
  = map_values f
      (fold_left (fun acc (e : string * string) => Obj.set (fst e) (g (snd e)) acc)
                 es acc).
Proof.
  induction es as [|e es IH]; intros acc; cbn [fold_left]; [reflexivity|].
  rewrite <- set_map_values. apply IH.
Qed.

Lemma clean_row_assigned (o : Obj.t) :
  clean_row o = map_values Str.trim (assigned o).
Proof.
  unfold clean_row, assigned.
  exact (fold_set_map_values Str.trim (fun v => v) o []).
Qed.

Lemma assigned_map_values (f : string -> string) (o : Obj.t) :
  assigned (map_values f o) = map_values f (assigned o).
Proof.
  unfold assigned. change (@nil (string * string)) with (map_values f []) at 1.
  generalize (@nil (string * string)) as acc.
  induction o as [|e es IH]; intros acc; [reflexivity|].
  change (map_values f (e :: es)) with ((fst e, f (snd e)) :: map_values f es).
  cbn [fold_left fst snd]. rewrite <- IH, set_map_values. reflexivity.
Qed.

Lemma well_formed_map_values (f : string -> string) (o : Obj.t) :
  well_formed o -> well_formed (map_values f o).
Proof.
  unfold well_formed. intros H. rewrite assigned_map_values, H. reflexivity.
Qed.

Lemma clean_row_well_formed (o : Obj.t) :
  well_formed o -> clean_row o = map_values Str.trim o.
Proof. intros H. rewrite clean_row_assigned, H. reflexivity. Qed.

Lemma has_content_trim (o : Obj.t) :
  has_content (map_values Str.trim o) = has_content o.
Proof.
  unfold has_content, Obj.values, map_values. rewrite map_map. cbn [snd].
  induction o as [|[k v] o IH]; [reflexivity|].
  cbn [map existsb snd]. rewrite blank_trim, IH. reflexivity.
Qed.

Lemma map_values_trim_twice (o : Obj.t) :
  map_values Str.trim (map_values Str.trim o) = map_values Str.trim o.
Proof.
  unfold map_values. rewrite map_map. apply map_ext. intros [k v]. cbn [fst snd].
  rewrite trim_idempotent. reflexivity.
Qed.

Lemma cleanSheetData_unfold (data : list Obj.t) :
  cleanSheetData data = map clean_row (List.filter has_content data).
Proof. destruct data; reflexivity. Qed.

(** ** cleanSheetData *)

(** X10.  On well-formed records (each lists its properties as an object
    holds them), [cleanSheetData] keeps, in order, the records with at least
    one non-blank value and trims each of their values, keys and key order
    untouched; cleaning a second time changes nothing. *)
Theorem cleanSheetData_well_formed (data : list Obj.t) :
  Forall well_formed data ->
  cleanSheetData data
  = map (map_values Str.trim) (List.filter has_content data)
  /\ Forall well_formed (cleanSheetData data)
  /\ cleanSheetData (cleanSheetData data) = cleanSheetData data.
Proof.
  intros Hwf.
  assert (Hclean : forall l, Forall well_formed l ->
            map clean_row (List.filter has_content l)
            = map (map_values Str.trim) (List.filter has_content l)).
  { induction 1 as [|o l Ho Hl IH]; [reflexivity|].
    cbn [List.filter]. destruct (has_content o); [|exact IH].
    cbn [map]. rewrite IH, (clean_row_well_formed o Ho). reflexivity. }
  assert (Hwf' : Forall well_formed
                   (map (map_values Str.trim) (List.filter has_content data))).
  { induction Hwf as [|o l Ho Hl IH]; [constructor|].
    cbn [List.filter]. destruct (has_content o); [|exact IH].
    cbn [map]. constructor; [apply well_formed_map_values, Ho | exact IH]. }
  rewrite !cleanSheetData_unfold, (Hclean data Hwf).
  split; [reflexivity|]. split; [exact Hwf'|].
  rewrite (Hclean _ Hwf').
  induction data as [|o l IH]; [reflexivity|].
  apply Forall_cons_1 in Hwf as [Ho Hl].
  cbn [List.filter]. destruct (has_content o) eqn:E.
  - cbn [map List.filter]. rewrite has_content_trim, E. cbn [map].
    rewrite map_values_trim_twice. f_equal. apply IH; [exact Hl|].
    cbn [List.filter] in Hwf'. rewrite E in Hwf'. cbn [map] in Hwf'.
    apply Forall_cons_1 in Hwf' as [_ Hwf']. exact Hwf'.
  - apply IH; [exact Hl|]. cbn [List.filter] in Hwf'. rewrite E in Hwf'. exact Hwf'.
Qed.

Lemma cleanSheetData_well_formed_witness :
  cleanSheetData [[("nota", " 9 "); ("obs", "")]; [("nota", " "); ("obs", "")]]
  = [[("nota", "9"); ("obs", "")]].
Proof.
  refine (proj1 (cleanSheetData_well_formed
                   [[("nota", " 9 "); ("obs", "")]; [("nota", " "); ("obs", "")]]
                   _)).
  constructor; [reflexivity|]. constructor; [reflexivity|]. constructor.
Defined.
(** ** csvToObjects *)

Lemma map_indexed_from {A B : Type} (f : A -> nat -> B) (l : list A) :
  forall off i,
  nth_error (map (fun p => f (snd p) (fst p)) (combine (seq off (length l)) l)) i
  = option_map (fun x => f x (off + i)%nat) (nth_error l i).
Proof.
  induction l as [|x l IH]; intros off i.
  - destruct i; reflexivity.
  - cbn [length seq combine map fst snd]. destruct i as [|i].
    + cbn. rewrite Nat.add_0_r. reflexivity.
    + cbn [nth_error]. rewrite IH. replace (S off + i)%nat with (off + S i)%nat by lia.
      reflexivity.
Qed.

Lemma map_indexed_nth {A B : Type} (f : A -> nat -> B) (l : list A) (i : nat) :
  nth_error (map_indexed f l) i = option_map (fun x => f x i) (nth_error l i).
Proof. unfold map_indexed. rewrite map_indexed_from. reflexivity. Qed.

Lemma map_indexed_length {A B : Type} (f : A -> nat -> B) (l : list A) :
  length (map_indexed f l) = length l.
Proof.
  unfold map_indexed. rewrite length_map, length_combine, length_seq. lia.
Qed.

Lemma map_indexed_In {A B : Type} (f : A -> nat -> B) (l : list A) (y : B) :
  In y (map_indexed f l) -> exists x i, nth_error l i = Some x /\ y = f x i.
Proof.
  intros H. apply In_nth_error in H as [i Hi]. rewrite map_indexed_nth in Hi.
  destruct (nth_error l i) as [x|] eqn:E; [|discriminate].
  injection Hi as <-. exists x, i. split; [exact E | reflexivity].
Qed.

Lemma csvToObjects_unfold (headers : list string) (rows : list (list string)) :
  forallb Str.blank headers = false ->
  csvToObjects (headers :: rows) = map_indexed (record_of headers) rows.
Proof.
  intros H. destruct rows as [|r0 rows]; [reflexivity|].
  unfold csvToObjects. rewrite H.
  destruct headers; [discriminate|]. reflexivity.
Qed.

Lemma csvToObjects_blank_headers (headers : list string)
  (rows : list (list string)) :
  forallb Str.blank headers = true -> csvToObjects (headers :: rows) = [].
Proof.
  intros H. destruct rows as [|r0 rows]; [reflexivity|].
  unfold csvToObjects. rewrite H, orb_true_r. reflexivity.
Qed.

Lemma keys_replace (k v : string) (o : Obj.t) :
  Obj.keys (Obj.replace k v o) = Obj.keys o.
Proof.
  unfold Obj.keys. induction o as [|[k0 v0] o IH]; [reflexivity|].
  cbn [Obj.replace]. destruct (String.eqb_spec k k0) as [->|_]; cbn [map fst].
  - reflexivity.
  - rewrite IH. reflexivity.
Qed.

Lemma keys_insert_index (i : Z) (k v : string) (o : Obj.t) :
  (forall k', In k' (Obj.keys (Obj.insert_index i k v o))
              <-> k' = k \/ In k' (Obj.keys o))
  /\ (NoDup (Obj.keys o) -> ~ In k (Obj.keys o) ->
      NoDup (Obj.keys (Obj.insert_index i k v o))).
Proof.
  unfold Obj.keys. induction o as [|[k0 v0] o [IH1 IH2]].
  - cbn. split; [intros k'; intuition auto|].
    intros _ _. apply NoDup_singleton.
  - cbn [Obj.insert_index].
    assert (Hhere :
      (forall k', In k' (map fst ((k, v) :: (k0, v0) :: o))
                  <-> k' = k \/ In k' (map fst ((k0, v0) :: o)))
      /\ (NoDup (map fst ((k0, v0) :: o)) -> ~ In k (map fst ((k0, v0) :: o)) ->
          NoDup (map fst ((k, v) :: (k0, v0) :: o)))).
    { split.
      - intros k'. cbn. intuition auto.
      - intros Hnd Hin. cbn [map fst]. apply NoDup_cons.
        split; [rewrite list_elem_of_In; exact Hin | exact Hnd]. }
    destruct (Obj.array_index k0) as [j|]; [destruct (j <? i)%Z|];
      [|exact Hhere|exact Hhere].
    cbn [map fst]. split.
    + intros k'. cbn [In]. rewrite IH1. intuition auto.
    + intros Hnd Hin. apply NoDup_cons in Hnd as [Hk0 Hnd].
      rewrite list_elem_of_In in Hk0. apply NoDup_cons. split.
      * rewrite list_elem_of_In, IH1. intros [->|Hc]; [|contradiction].
        apply Hin. left. reflexivity.
      * apply IH2; [exact Hnd|]. intros Hc. apply Hin. right. exact Hc.
Qed.

Lemma has_In_keys (k : string) (o : Obj.t) :
  Obj.has k o = true <-> In k (Obj.keys o).
Proof.
  rewrite has_keys, existsb_exists. split.
  - intros [x [Hx E]]. apply String.eqb_eq in E as ->. exact Hx.
  - intros H. exists k. split; [exact H | apply String.eqb_refl].
Qed.

(** The keys after an assignment: the old ones and the assigned one, unless
    that one is a new [__proto__]. *)
Lemma keys_set (k v : string) (o : Obj.t) :
  (forall k', In k' (Obj.keys (Obj.set k v o))
              <-> In k' (Obj.keys o)
                  \/ (k' = k /\ (k <> "__proto__" \/ In k (Obj.keys o))))
  /\ (NoDup (Obj.keys o) -> NoDup (Obj.keys (Obj.set k v o))).
Proof.
  unfold Obj.set. destruct (Obj.has k o) eqn:Hhas.
  - apply has_In_keys in Hhas. rewrite keys_replace. split; [|auto].
    intros k'. split; [auto|]. intros [H|[-> _]]; assumption.
  - assert (Hnot : ~ In k (Obj.keys o)).
    { intros H. apply has_In_keys in H. congruence. }
    destruct (String.eqb_spec k "__proto__") as [Hp|Hp].
    + split; [|auto]. intros k'. split; [auto|].
      intros [H|[-> [H|H]]]; [assumption|contradiction|contradiction].
    + destruct (Obj.array_index k) as [i|].
      * destruct (keys_insert_index i k v o) as [H1 H2]. split.
        -- intros k'. rewrite H1. intuition auto.
        -- intros Hnd. apply H2; assumption.
      * unfold Obj.keys in *. rewrite map_app. cbn [map fst]. split.
        -- intros k'. rewrite in_app_iff. cbn [In]. intuition auto.
        -- intros Hnd. apply NoDup_app. split; [exact Hnd|]. split.
           ++ intros x Hx Hc. apply list_elem_of_singleton in Hc as ->.
              apply list_elem_of_In in Hx. contradiction.
           ++ apply NoDup_singleton.
Qed.

Lemma keys_fold_set (row : list string) (es : list (nat * string)) :
  forall o : Obj.t,
  let o' := fold_left (fun obj (p : nat * string) =>
                         let '(index, header) := p in
                         Obj.set header (nth index row "") obj) es o in
  (forall k, In k (Obj.keys o')
             <-> In k (Obj.keys o)
                 \/ (In k (map snd es) /\ k <> "__proto__"))
  /\ (NoDup (Obj.keys o) -> ~ In "__proto__" (Obj.keys o) ->
      NoDup (Obj.keys o') /\ ~ In "__proto__" (Obj.keys o')).
Proof.
  induction es as [|[idx h] es IH]; intros o; cbn zeta.
  - cbn [fold_left map In]. split; [intros k; intuition auto | auto].
  - cbn [fold_left map snd In].
    specialize (IH (Obj.set h (nth idx row "") o)). cbn zeta in IH.
    destruct IH as [IH1 IH2].
    destruct (keys_set h (nth idx row "") o) as [K1 K2].
    split.
    + intros k. rewrite IH1, K1. split.
      * intros [[H|[-> [H|H]]]|[H1 H2]];
          [ left; exact H
          | right; split; [left; reflexivity | exact H]
          | left; exact H
          | right; split; [right; exact H1 | exact H2] ].
      * intros [H|[[<-|H1] H2]];
          [ left; left; exact H
          | left; right; split; [reflexivity | left; exact H2]
          | right; split; assumption ].
    + intros Hnd Hp. apply IH2; [auto|].
      rewrite K1. intros [H|[E [H|H]]]; [auto | auto | subst h; auto].
Qed.

(** The headers a record is built from never include a blank one. *)
Lemma normalized_headers_nth (headers : list string) (j : nat) :
  nth_error (normalized_headers headers) j
  = option_map (fun header =>
                  if Str.blank header
                  then ("coluna_" ++ decimal (j + 1))%string
                  else Str.trim header)
               (nth_error headers j).
Proof.
  unfold normalized_headers. rewrite map_indexed_nth.
  destruct (nth_error headers j) as [h|]; [|reflexivity]. cbn [option_map].
  destruct h; [reflexivity|]. reflexivity.
Qed.
Lemma normalized_headers_not_blank (headers : list string) (h : string) :
  In h (normalized_headers headers) -> Str.blank h = false.
Proof.
  intros H. apply In_nth_error in H as [j Hj].
  rewrite normalized_headers_nth in Hj.
  destruct (nth_error headers j) as [header|]; [|discriminate].
  cbn [option_map] in Hj. injection Hj as <-.
  destruct (Str.blank header) eqn:E.
  - apply (solid_not_blank _ "c"%char); [split; reflexivity | left; reflexivity].
  - rewrite blank_trim. exact E.
Qed.

Lemma rowId_not_blank (n : nat) : Str.blank ("row_" ++ decimal n) = false.
Proof.
  apply (solid_not_blank _ "r"%char); [split; reflexivity | left; reflexivity].
Qed.

Lemma record_of_rowId (headers row : list string) (i : nat) :
  Obj.get (record_of headers row i) "_rowId"
  = Some ("row_" ++ decimal (i + 1))%string.
Proof. unfold record_of. apply get_set_same. discriminate. Qed.

Lemma record_of_keys (headers row : list string) (i : nat) :
  (forall k, In k (Obj.keys (record_of headers row i))
             <-> (In k (normalized_headers headers) /\ k <> "__proto__")
                 \/ k = "_rowId")
  /\ NoDup (Obj.keys (record_of headers row i)).
Proof.
  unfold record_of.
  set (es := combine (seq 0 (length (normalized_headers headers)))
                     (normalized_headers headers)).
  assert (Hes : map snd es = normalized_headers headers).
  { subst es. generalize 0%nat.
    induction (normalized_headers headers) as [|h l IH]; intros off;
      [reflexivity|].
    cbn [length seq combine map snd]. rewrite IH. reflexivity. }
  destruct (keys_fold_set row es []) as [F1 F2]. cbn zeta in F1, F2.
  rewrite Hes in F1.
  destruct (F2 NoDup_nil_2 (fun H => H)) as [Hnd Hp].
  match goal with |- context [Obj.set ?k ?v ?o] =>
    destruct (keys_set k v o) as [K1 K2] end.
  split; [|apply K2, Hnd].
  intros k. rewrite K1, F1. cbn [Obj.keys map In]. split.
  - intros [[[]|H]|[-> _]]; [left; exact H | right; reflexivity].
  - intros [H| ->]; [left; right; exact H|].
    right. split; [reflexivity | left; discriminate].
Qed.

(** X11.  [csvToObjects] gives no record under a header row of blank cells
    only, and otherwise one record per data row, in order.  The record of
    the data row at position [i] holds [_rowId] with the text [row_] followed
    by [i + 1]; its keys are distinct, and they are the normalized headers
    (none of them blank, [__proto__] left out) together with [_rowId]: every
    record of a table has the same keys, however long its row is. *)
Theorem csvToObjects_records (headers : list string) (rows : list (list string)) :
  length (csvToObjects (headers :: rows))
  = (if forallb Str.blank headers then 0 else length rows)
  /\ (forallb Str.blank headers = false ->
      forall (i : nat) (row : list string),
        nth_error rows i = Some row ->
        exists rec : Obj.t,
          nth_error (csvToObjects (headers :: rows)) i = Some rec
          /\ Obj.get rec "_rowId" = Some ("row_" ++ decimal (i + 1))%string
          /\ NoDup (Obj.keys rec)
          /\ (forall k, In k (Obj.keys rec)
                        <-> (In k (normalized_headers headers)
                             /\ k <> "__proto__")
                            \/ k = "_rowId")
          /\ (forall k, In k (Obj.keys rec) -> k <> "_rowId" ->
                        Str.blank k = false)).
Proof.
  destruct (forallb Str.blank headers) eqn:E.
  - rewrite (csvToObjects_blank_headers headers rows E).
    split; [reflexivity | discriminate].
  - rewrite (csvToObjects_unfold headers rows E).
    split; [apply map_indexed_length|].
    intros _ i row Hrow. exists (record_of headers row i).
    rewrite map_indexed_nth, Hrow.
    destruct (record_of_keys headers row i) as [K Hnd].
    split; [reflexivity|]. split; [apply record_of_rowId|].
    split; [exact Hnd|]. split; [exact K|].
    intros k Hk Hne. apply K in Hk as [[Hk _]|Hk]; [|contradiction].
    apply (normalized_headers_not_blank headers k Hk).
Qed.

Lemma csvToObjects_records_witness :
  exists rec : Obj.t,
    nth_error (csvToObjects [["nota"; " "]; ["9"; "x"; "y"]; ["10"]]) 1 = Some rec
    /\ Obj.get rec "_rowId" = Some "row_2"
    /\ Obj.keys rec = ["nota"; "coluna_2"; "_rowId"].
Proof.
  destruct (csvToObjects_records ["nota"; " "] [["9"; "x"; "y"]; ["10"]])
    as [_ H].
  destruct (H eq_refl 1%nat ["10"] eq_refl) as (rec & Hrec & Hid & _).
  exists rec. split; [exact Hrec|]. split; [exact Hid|].
  vm_compute in Hrec. injection Hrec as <-. reflexivity.
Defined.

Lemma get_fold_set_absent (row : list string) (h : string) :
  forall (l : list string) (off : nat) (o : Obj.t),
  ~ In h l ->
  Obj.get (fold_left (fun obj (p : nat * string) =>
                        let '(index, header) := p in
                        Obj.set header (nth index row "") obj)
                     (combine (seq off (length l)) l) o) h
  = Obj.get o h.
Proof.
  induction l as [|h0 l IH]; intros off o Hnot; [reflexivity|].
  cbn [length seq combine fold_left].
  rewrite IH by (intros H; apply Hnot; right; exact H).
  apply get_set_other. intros ->. apply Hnot. left. reflexivity.
Qed.

Lemma get_fold_set_last (row : list string) (h : string) :
  h <> "__proto__" ->
  forall (l : list string) (off j : nat) (o : Obj.t),
  nth_error l j = Some h ->
  (forall j', (j < j')%nat -> nth_error l j' <> Some h) ->
  Obj.get (fold_left (fun obj (p : nat * string) =>
                        let '(index, header) := p in
                        Obj.set header (nth index row "") obj)
                     (combine (seq off (length l)) l) o) h
  = Some (nth (off + j) row "").
Proof.
  intros Hp. induction l as [|h0 l IH]; intros off j o Hj Hlast.
  - destruct j; discriminate.
  - cbn [length seq combine fold_left]. destruct j as [|j].
    + injection Hj as ->. rewrite get_fold_set_absent.
      * rewrite Nat.add_0_r. apply get_set_same, Hp.
      * intros Hin. apply In_nth_error in Hin as [j' Hj'].
        apply (Hlast (S j')); [lia | exact Hj'].
    + rewrite (IH (S off) j); [f_equal; f_equal; lia | exact Hj |].
      intros j' Hlt. apply (Hlast (S j')). lia.
Qed.

Lemma get_In_keys (o : Obj.t) (k v : string) :
  Obj.get o k = Some v -> In k (Obj.keys o).
Proof.
  unfold Obj.keys. induction o as [|[k0 v0] o IH]; [discriminate|].
  cbn [Obj.get map fst In]. destruct (String.eqb_spec k k0) as [->|_].
  - intros _. left. reflexivity.
  - intros H. right. auto.
Qed.

(** X12.  In the record of a data row, the value under a normalized header is
    the cell of the row at the position of that header, and the empty text
    when the row is too short to have one; cells beyond the last header are
    not read.  Of two equal headers the last one decides; a header equal to
    [_rowId] is overwritten by the row identifier and one equal to
    [__proto__] creates no property. *)
Theorem csvToObjects_cell (headers : list string) (rows : list (list string))
  (i j : nat) (row : list string) (h : string) :
  forallb Str.blank headers = false ->
  nth_error rows i = Some row ->
  nth_error (normalized_headers headers) j = Some h ->
  (forall j', (j < j')%nat -> nth_error (normalized_headers headers) j' <> Some h) ->
  h <> "__proto__" ->
  exists rec : Obj.t,
    nth_error (csvToObjects (headers :: rows)) i = Some rec
    /\ Obj.get rec h
       = (if String.eqb h "_rowId"
          then Some ("row_" ++ decimal (i + 1))%string
          else Some (nth j row ""))
    /\ Obj.get rec "__proto__" = None.
Proof.
  intros E Hrow Hj Hlast Hp. exists (record_of headers row i).
  rewrite (csvToObjects_unfold headers rows E), map_indexed_nth, Hrow.
  split; [reflexivity|]. split.
  - destruct (String.eqb_spec h "_rowId") as [->|Hne];
      [apply record_of_rowId|].
    unfold record_of. rewrite get_set_other by exact Hne.
    apply (get_fold_set_last row h Hp (normalized_headers headers) 0 j []);
      assumption.
  - destruct (Obj.get (record_of headers row i) "__proto__") as [v|] eqn:G;
      [|reflexivity].
    exfalso. destruct (record_of_keys headers row i) as [K _].
    assert (Hin : In "__proto__" (Obj.keys (record_of headers row i)))
      by (apply (get_In_keys _ _ v), G).
    apply K in Hin as [[_ Hc]|Hc]; [apply Hc; reflexivity | discriminate].
Qed.

Lemma csvToObjects_cell_witness :
  exists rec : Obj.t,
    nth_error (csvToObjects [["nota"; "obs"; "nota"]; ["9"; "x"; "3"]; ["10"]]) 1
    = Some rec
    /\ Obj.get rec "nota" = Some ""
    /\ Obj.get rec "__proto__" = None.
Proof.
  refine (csvToObjects_cell ["nota"; "obs"; "nota"] [["9"; "x"; "3"]; ["10"]]
            1 2 ["10"] "nota" eq_refl eq_refl eq_refl _ _).
  - intros [|[|[|[|j']]]] Hlt; try lia; discriminate.
  - discriminate.
Defined.

(** ** The records of a table have content *)

Lemma csvToObjects_has_content (csv : list (list string)) (rec : Obj.t) :
  In rec (csvToObjects csv) -> has_content rec = true.
Proof.
  destruct csv as [|headers rows]; [intros []|].
  destruct (forallb Str.blank headers) eqn:E.
  - rewrite (csvToObjects_blank_headers headers rows E). intros [].
  - rewrite (csvToObjects_unfold headers rows E). intros H.
    apply map_indexed_In in H as (row & i & _ & ->).
    unfold has_content. apply existsb_exists.
    exists ("row_" ++ decimal (i + 1))%string. split.
    + apply (get_In_values _ "_rowId"), record_of_rowId.
    + rewrite rowId_not_blank. reflexivity.
Qed.

(** ** parseCSV *)

Lemma string_ind_2 (P : string -> Prop) :
  P EmptyString ->
  (forall c, P (String c EmptyString)) ->
  (forall c d r, P r -> P (String d r) -> P (String c (String d r))) ->
  forall s, P s.
Proof.
  intros H0 H1 H2 s.
  assert (H : P s /\ forall c, P (String c s)).
  { induction s as [|d r [IHr IHdr]]; [split; [exact H0 | exact H1]|].
    split; [apply IHdr|]. intros c. apply H2; [exact IHr | apply IHdr]. }
  apply H.
Qed.

(** The scan of a line always ends by closing a field. *)
Lemma scan_line_fields (separator : ascii) (line : string) :
  forall (values : list string) (currentValue : string) (inQuotes : bool),
  exists f fs,
    scan_line separator line values currentValue inQuotes = values ++ f :: fs.
Proof.
  induction line as [|c|c d r IHr IHdr] using string_ind_2;
    intros values cur q.
  - exists cur, []. reflexivity.
  - cbn [scan_line]. destruct (Ascii.eqb c Str.QUOTE).
    + exists cur, []. reflexivity.
    + destruct (Ascii.eqb c separator && negb q).
      * exists cur, [EmptyString]. rewrite <- app_assoc. reflexivity.
      * exists (push_char cur c), []. reflexivity.
  - change (scan_line separator (String c (String d r)) values cur q)
      with (if Ascii.eqb c Str.QUOTE then
              if Ascii.eqb d Str.QUOTE
              then scan_line separator r values (push_char cur Str.QUOTE) q
              else scan_line separator (String d r) values cur (negb q)
            else if Ascii.eqb c separator && negb q
            then scan_line separator (String d r) (values ++ [cur]) "" q
            else scan_line separator (String d r) values (push_char cur c) q).
    destruct (Ascii.eqb c Str.QUOTE); [destruct (Ascii.eqb d Str.QUOTE)|];
      [apply IHr | apply IHdr |].
    destruct (Ascii.eqb c separator && negb q); [|apply IHdr].
    destruct (IHdr (values ++ [cur]) EmptyString q) as (f & fs & E).
    exists cur, (f :: fs). rewrite E, <- app_assoc. reflexivity.
Qed.

Lemma strip_enclosing_quotes_plain (value : string) :
  Str.count_char Str.QUOTE value = 0%nat -> strip_enclosing_quotes value = value.
Proof.
  unfold strip_enclosing_quotes. destruct value as [|c r]; [reflexivity|].
  cbn [Str.to_list list_ascii_of_string Str.count_char].
  destruct (Ascii.eqb_spec Str.QUOTE c) as [<-|Hne]; [discriminate|].
  intros _. destruct (Ascii.eqb_spec c Str.QUOTE) as [->|_]; [contradiction|].
  destruct (rev (list_ascii_of_string r)); reflexivity.
Qed.

Lemma collapse_quotes_plain (value : string) :
  Str.count_char Str.QUOTE value = 0%nat -> collapse_quotes value = value.
Proof.
  induction value as [|c|c d r IHr IHdr] using string_ind_2;
    [reflexivity | reflexivity |].
  intros H. cbn [Str.count_char] in H.
  destruct (Ascii.eqb_spec Str.QUOTE c) as [<-|Hne]; [discriminate|].
  change (collapse_quotes (String c (String d r)))
    with (if Ascii.eqb c Str.QUOTE && Ascii.eqb d Str.QUOTE
          then String Str.QUOTE (collapse_quotes r)
          else String c (collapse_quotes (String d r))).
  destruct (Ascii.eqb_spec c Str.QUOTE) as [->|_]; [contradiction|].
  cbn [andb]. rewrite IHdr; [reflexivity|]. exact H.
Qed.

Lemma clean_value_plain (value : string) :
  Str.count_char Str.QUOTE value = 0%nat -> clean_value value = Str.trim value.
Proof.
  intros H. unfold clean_value.
  rewrite (strip_enclosing_quotes_plain value H), (collapse_quotes_plain value H).
  reflexivity.
Qed.

Lemma clean_value_trimmed (value : string) :
  Str.trim (clean_value value) = clean_value value.
Proof. unfold clean_value. apply trim_idempotent. Qed.

(** X13.  The rows of [parseCSV] are the non-blank lines of the text, one row
    for each and in their order: no line is lost for having no field, since
    every row has at least one field.  Every field is a trimmed text.  A
    blank text has no rows. *)
Theorem parseCSV_rows (csvText : string) :
  parseCSV csvText
  = (if Str.blank csvText then []
     else map (fun line =>
                 map clean_value
                     (scan_line (detectSeparator csvText) line [] "" false))
              (List.filter (fun line => negb (Str.blank line))
                           (Str.split_lines csvText)))
  /\ List.Forall (fun row => row <> [] /\ List.Forall (fun f => Str.trim f = f) row)
                 (parseCSV csvText)
  /\ length (parseCSV csvText)
     <= length (List.filter (fun line => negb (Str.blank line))
                            (Str.split_lines csvText)).
Proof.
  assert (E : parseCSV csvText
              = if Str.blank csvText then []
                else map (fun line =>
                            map clean_value
                                (scan_line (detectSeparator csvText) line [] "" false))
                         (List.filter (fun line => negb (Str.blank line))
                                      (Str.split_lines csvText))).
  { unfold parseCSV. destruct (Str.blank csvText); [reflexivity|]. cbn zeta.
    induction (Str.split_lines csvText) as [|line lines IH]; [reflexivity|].
    cbn [map List.filter]. destruct (Str.blank line); cbn [negb map]; cbv beta.
    - exact IH.
    - destruct (scan_line_fields (detectSeparator csvText) line [] "" false)
        as (f & fs & ->).
      cbn [app map].
      change (0 <? length (clean_value f :: map clean_value fs))%nat with true.
      cbv iota. rewrite IH. reflexivity. }
  split; [exact E|]. rewrite E. destruct (Str.blank csvText).
  - split; [constructor | cbn; lia].
  - split; [|rewrite length_map; lia].
    apply List.Forall_forall. intros row Hrow.
    apply in_map_iff in Hrow as (line & <- & _).
    destruct (scan_line_fields (detectSeparator csvText) line [] "" false)
      as (f & fs & ->).
    split; [discriminate|].
    apply List.Forall_forall. intros x Hx.
    apply in_map_iff in Hx as (y & <- & _). apply clean_value_trimmed.
Qed.

Lemma scan_line_plain_step (separator c : ascii) (r : string)
  (values : list string) (cur : string) (q : bool) :
  Ascii.eqb c Str.QUOTE = false ->
  scan_line separator (String c r) values cur q
  = if Ascii.eqb c separator && negb q
    then scan_line separator r (values ++ [cur]) "" q
    else scan_line separator r values (push_char cur c) q.
Proof. intros H. cbn [scan_line]. rewrite H. reflexivity. Qed.

Lemma count_char_cons (c d : ascii) (r : string) :
  Str.count_char c (String d r) = 0%nat ->
  Ascii.eqb c d = false /\ Str.count_char c r = 0%nat.
Proof.
  cbn [Str.count_char]. destruct (Ascii.eqb c d); [discriminate|].
  intros H. split; [reflexivity | exact H].
Qed.

Lemma count_char_app (c : ascii) (a b : string) :
  Str.count_char c (a ++ b) = (Str.count_char c a + Str.count_char c b)%nat.
Proof.
  induction a as [|d a IH]; [reflexivity|].
  change (String d a ++ b)%string with (String d (a ++ b)).
  cbn [Str.count_char]. rewrite IH. lia.
Qed.

Lemma append_assoc (a b c : string) : ((a ++ b) ++ c = a ++ (b ++ c))%string.
Proof.
  induction a as [|x a IH]; [reflexivity|].
  change (String x ((a ++ b) ++ c) = String x (a ++ (b ++ c)))%string.
  rewrite IH. reflexivity.
Qed.

Lemma append_nil_r (a : string) : (a ++ "" = a)%string.
Proof.
  induction a as [|x a IH]; [reflexivity|].
  change (String x (a ++ "") = String x a)%string. rewrite IH. reflexivity.
Qed.

Lemma scan_line_split (separator : ascii) (line : string) :
  Str.count_char Str.QUOTE line = 0%nat ->
  forall (values : list string) (cur : string),
  Str.count_char separator cur = 0%nat ->
  exists fs,
    scan_line separator line values cur false = values ++ fs
    /\ String.concat (String separator "") fs = (cur ++ line)%string
    /\ length fs = S (Str.count_char separator line)
    /\ List.Forall (fun f => Str.count_char separator f = 0%nat) fs.
Proof.
  induction line as [|c r IH]; intros Hq values cur Hcur.
  - exists [cur]. cbn [scan_line String.concat length Str.count_char].
    rewrite append_nil_r. repeat split. constructor; [exact Hcur | constructor].
  - apply count_char_cons in Hq as [Hc Hq].
    rewrite scan_line_plain_step
      by (rewrite Ascii.eqb_sym; exact Hc).
    cbn [negb]. rewrite andb_true_r.
    destruct (Ascii.eqb_spec c separator) as [->|Hne].
    + destruct (IH Hq (values ++ [cur]) EmptyString eq_refl)
        as (fs & E & J & L & F).
      exists (cur :: fs). rewrite E, <- app_assoc. split; [reflexivity|].
      split.
      * destruct fs as [|f fs]; [discriminate|].
        change (String.concat (String separator "") (cur :: f :: fs))
          with (cur ++ String separator "" ++ String.concat (String separator "") (f :: fs))%string.
        rewrite J. reflexivity.
      * split; [|constructor; assumption].
        cbn [length Str.count_char]. rewrite L, Ascii.eqb_refl. reflexivity.
    + destruct (IH Hq values (push_char cur c)) as (fs & E & J & L & F).
      { unfold push_char. rewrite count_char_app, Hcur. cbn [Str.count_char].
        destruct (Ascii.eqb_spec separator c) as [->|_]; [contradiction|].
        reflexivity. }
      exists fs. split; [exact E|]. split.
      * rewrite J. unfold push_char. rewrite append_assoc. reflexivity.
      * split; [|exact F]. rewrite L. cbn [Str.count_char].
        destruct (Ascii.eqb_spec separator c) as [->|_]; [contradiction|].
        reflexivity.
Qed.

(** X14.  On a line without a quote the scan of [parseCSV] is the split at
    the separator: the fields, written with the separator between them, are
    the line again; no field holds a separator; and there is one field more
    than there are separators in the line. *)
Theorem scan_line_without_quotes (separator : ascii) (line : string) :
  Str.count_char Str.QUOTE line = 0%nat ->
  String.concat (String separator "") (scan_line separator line [] "" false)
  = line
  /\ length (scan_line separator line [] "" false)
     = S (Str.count_char separator line)
  /\ List.Forall (fun f => Str.count_char separator f = 0%nat)
                 (scan_line separator line [] "" false).
Proof.
  intros Hq.
  destruct (scan_line_split separator line Hq [] EmptyString eq_refl)
    as (fs & -> & J & L & F).
  cbn [app]. split; [exact J|]. split; [exact L | exact F].
Qed.

Lemma scan_line_without_quotes_witness :
  String.concat ";" (scan_line ";" "9; muito bom ;;" [] "" false)
  = "9; muito bom ;;"%string
  /\ length (scan_line ";" "9; muito bom ;;" [] "" false) = 4%nat.
Proof.
  destruct (scan_line_without_quotes ";" "9; muito bom ;;" eq_refl)
    as (H1 & H2 & _).
  split; [exact H1 | exact H2].
Defined.

(** A run of bytes without quote is read into the current field: all of it
    between quotes, and up to the first separator outside. *)
Lemma scan_line_run (separator : ascii) (t rest : string) (q : bool) :
  Str.count_char Str.QUOTE t = 0%nat ->
  (q = false -> Str.count_char separator t = 0%nat) ->
  forall (values : list string) (cur : string),
  scan_line separator (t ++ rest) values cur q
  = scan_line separator rest values (cur ++ t) q.
Proof.
  induction t as [|c t IH]; intros Hq Hs values cur.
  - change ("" ++ rest)%string with rest. rewrite append_nil_r. reflexivity.
  - apply count_char_cons in Hq as [Hc Hq].
    change (String c t ++ rest)%string with (String c (t ++ rest)).
    rewrite scan_line_plain_step by (rewrite Ascii.eqb_sym; exact Hc).
    assert (Hsep : Ascii.eqb c separator && negb q = false).
    { destruct q; [apply andb_false_r|].
      specialize (Hs eq_refl). apply count_char_cons in Hs as [Hs _].
      rewrite Ascii.eqb_sym, Hs. reflexivity. }
    rewrite Hsep, IH.
    + unfold push_char. rewrite append_assoc. reflexivity.
    + exact Hq.
    + intros ->. specialize (Hs eq_refl).
      apply count_char_cons in Hs as [_ Hs]. exact Hs.
Qed.

(** A quote that is not the first of a pair opens or closes the quoting. *)
Lemma scan_line_quote_step (separator c : ascii) (r : string)
  (values : list string) (cur : string) (q : bool) :
  Ascii.eqb c Str.QUOTE = false ->
  scan_line separator (String Str.QUOTE (String c r)) values cur q
  = scan_line separator (String c r) values cur (negb q).
Proof.
  intros H. cbn [scan_line]. change (Ascii.eqb Str.QUOTE Str.QUOTE) with true.
  cbv iota. rewrite H. reflexivity.
Qed.

(** One field at the head of what is left of a line. *)
Lemma scan_line_field (separator : ascii) (f : field) (rest : string) :
  Ascii.eqb separator Str.QUOTE = false ->
  field_ok separator f ->
  (rest = EmptyString \/ exists r, rest = String separator r) ->
  forall (values : list string) (cur : string),
  scan_line separator (raw_field f ++ rest) values cur false
  = scan_line separator rest values (cur ++ field_text f) false.
Proof.
  intros Hsep Hok Hrest values cur. destruct f as [t|t]; cbn [raw_field field_text].
  - destruct Hok as [Hq Hs]. apply scan_line_run; [exact Hq | intros _; exact Hs].
  - destruct Hok as [Hq Hne]. destruct t as [|c t]; [contradiction|].
    pose proof (count_char_cons _ _ _ Hq) as [Hc _].
    change (String Str.QUOTE (String c t ++ String Str.QUOTE "") ++ rest)%string
      with (String Str.QUOTE
              (String c ((t ++ String Str.QUOTE "") ++ rest)))%string.
    rewrite append_assoc.
    change (String Str.QUOTE "" ++ rest)%string with (String Str.QUOTE rest).
    rewrite scan_line_quote_step by (rewrite Ascii.eqb_sym; exact Hc).
    change (String c (t ++ String Str.QUOTE rest))%string
      with (String c t ++ String Str.QUOTE rest)%string.
    rewrite scan_line_run by (exact Hq || discriminate).
    destruct Hrest as [->|[r ->]].
    + reflexivity.
    + rewrite scan_line_quote_step by exact Hsep. reflexivity.
Qed.

Lemma scan_line_raw (separator : ascii) :
  Ascii.eqb separator Str.QUOTE = false ->
  forall (fields : list field) (f : field) (values : list string) (cur : string),
  List.Forall (field_ok separator) (f :: fields) ->
  scan_line separator (raw_line separator (f :: fields)) values cur false
  = values ++ (cur ++ field_text f)%string :: map field_text fields.
Proof.
  intros Hsep. induction fields as [|g fields IH]; intros f values cur Hok.
  - unfold raw_line. cbn [map String.concat].
    rewrite <- (append_nil_r (raw_field f)).
    rewrite scan_line_field; [reflexivity | exact Hsep | | left; reflexivity].
    apply List.Forall_inv in Hok. exact Hok.
  - unfold raw_line.
    change (String.concat (String separator "") (map raw_field (f :: g :: fields)))
      with (raw_field f ++ String separator (raw_line separator (g :: fields)))%string.
    rewrite scan_line_field;
      [| exact Hsep | apply List.Forall_inv in Hok; exact Hok
       | right; eexists; reflexivity].
    rewrite scan_line_plain_step by exact Hsep.
    rewrite Ascii.eqb_refl. cbn [andb negb].
    rewrite IH by (apply List.Forall_inv_tail in Hok; exact Hok).
    rewrite <- app_assoc. reflexivity.
Qed.

(** X15.  Writing and reading a line.  Take fields whose texts hold no quote;
    write each one bare (if it holds no separator) or between two quotes (if
    it is not empty), with the separator between them.  The scan of
    [parseCSV] reads this line back as the texts, separators inside quotes
    included, and the clean-up then trims each text. *)
Theorem scan_line_reads_raw_line (separator : ascii) (fields : list field) :
  Ascii.eqb separator Str.QUOTE = false ->
  fields <> [] ->
  List.Forall (field_ok separator) fields ->
  scan_line separator (raw_line separator fields) [] "" false
  = map field_text fields
  /\ map clean_value (scan_line separator (raw_line separator fields) [] "" false)
     = map (fun f => Str.trim (field_text f)) fields.
Proof.
  intros Hsep Hne Hok. destruct fields as [|f fields]; [contradiction|].
  assert (E : scan_line separator (raw_line separator (f :: fields)) [] "" false
              = map field_text (f :: fields))
    by (rewrite (scan_line_raw separator Hsep fields f [] "" Hok); reflexivity).
  split; [exact E|]. rewrite E, map_map. apply map_ext_in.
  intros g Hg. apply clean_value_plain.
  rewrite List.Forall_forall in Hok. specialize (Hok g Hg).
  destruct g; apply Hok.
Qed.

Lemma scan_line_reads_raw_line_witness :
  map clean_value
      (scan_line "," (raw_line "," [Bare " 9 "; Quoted "bom, obrigado"; Bare ""])
                 [] "" false)
  = ["9"; "bom, obrigado"; ""].
Proof.
  refine (proj2 (scan_line_reads_raw_line ","
                   [Bare " 9 "; Quoted "bom, obrigado"; Bare ""] eq_refl _ _)).
  - discriminate.
  - repeat constructor; discriminate.
Defined.

(** ** convertToCSVUrl *)

Lemma includes_suffix (p : string) : forall s, Str.includes (s ++ p) p = true.
Proof.
  assert (Hrefl : forall q, Str.starts_with q q = true).
  { induction q as [|a q IH]; [reflexivity|].
    cbn [Str.starts_with]. rewrite Ascii.eqb_refl, IH. reflexivity. }
  induction s as [|c s IH].
  - change ("" ++ p)%string with p. rewrite includes_unfold, Hrefl. reflexivity.
  - change (String c s ++ p)%string with (String c (s ++ p)).
    rewrite includes_unfold. cbv iota. rewrite IH. apply orb_true_r.
Qed.

Lemma is_empty_blank (s : string) : Str.is_empty s || Str.blank s = Str.blank s.
Proof. destruct s; reflexivity. Qed.

Section Appended.

(** A text that starts with a character [c0] outside the class and outside
    the literals of the pattern. *)
Variables (pat : url_pattern) (c0 : ascii) (x' : string).
Hypothesis c0_not_id : id_char c0 = false.
Hypothesis c0_not_before : Str.count_char c0 (before pat) = 0%nat.
Hypothesis c0_not_after : Str.count_char c0 (after pat) = 0%nat.

Lemma drop_prefix_appended (p : string) :
  Str.count_char c0 p = 0%nat ->
  forall s,
  drop_prefix p (s ++ String c0 x')
  = option_map (fun r => (r ++ String c0 x')%string) (drop_prefix p s).
Proof.
  induction p as [|a p IH]; intros Hp s; [reflexivity|].
  apply count_char_cons in Hp as [Ha Hp]. destruct s as [|b s].
  - change ("" ++ String c0 x')%string with (String c0 x').
    cbn [drop_prefix option_map]. rewrite Ascii.eqb_sym, Ha. reflexivity.
  - change (String b s ++ String c0 x')%string with (String b (s ++ String c0 x')).
    cbn [drop_prefix]. destruct (Ascii.eqb a b); [apply IH, Hp | reflexivity].
Qed.

Lemma span_id_appended (r : string) :
  span_id (r ++ String c0 x')
  = (fst (span_id r), (snd (span_id r) ++ String c0 x')%string).
Proof.
  induction r as [|c r IH].
  - change ("" ++ String c0 x')%string with (String c0 x').
    cbn [span_id]. rewrite c0_not_id. reflexivity.
  - change (String c r ++ String c0 x')%string with (String c (r ++ String c0 x')).
    cbn [span_id]. destruct (id_char c); [|reflexivity].
    rewrite IH. destruct (span_id r) as [id rest]. reflexivity.
Qed.

Lemma starts_with_appended (a : string) :
  Str.count_char c0 a = 0%nat ->
  forall rest,
  Str.starts_with a (rest ++ String c0 x') = Str.starts_with a rest.
Proof.
  induction a as [|a0 a IH]; intros Ha rest; [reflexivity|].
  apply count_char_cons in Ha as [Ha0 Ha]. destruct rest as [|b rest].
  - change ("" ++ String c0 x')%string with (String c0 x').
    cbn [Str.starts_with]. rewrite Ascii.eqb_sym, Ha0. reflexivity.
  - change (String b rest ++ String c0 x')%string
      with (String b (rest ++ String c0 x')).
    cbn [Str.starts_with]. rewrite IH by exact Ha. reflexivity.
Qed.

Lemma match_here_appended (s : string) :
  match_here pat (s ++ String c0 x') = match_here pat s.
Proof.
  unfold match_here. rewrite drop_prefix_appended by exact c0_not_before.
  destruct (drop_prefix (before pat) s) as [r|]; [|reflexivity].
  cbn [option_map]. rewrite span_id_appended.
  destruct (span_id r) as [id rest]. cbn [fst snd].
  rewrite starts_with_appended by exact c0_not_after. reflexivity.
Qed.

(** Such a text at the end adds no match and takes none away, if it holds
    no match itself. *)
Lemma regex_match_appended (s : string) :
  regex_match pat (String c0 x') = None ->
  regex_match pat (s ++ String c0 x') = regex_match pat s.
Proof.
  intros Hx. induction s as [|b s IH].
  - change ("" ++ String c0 x')%string with (String c0 x'). rewrite Hx.
    assert (H : match_here pat (String c0 x') = None).
    { cbn [regex_match] in Hx.
      destruct (match_here pat (String c0 x')); [discriminate | reflexivity]. }
    change (String c0 x') with ("" ++ String c0 x')%string in H.
    rewrite match_here_appended in H. cbn [regex_match]. rewrite H. reflexivity.
  - change (String b s ++ String c0 x')%string
      with (String b (s ++ String c0 x')).
    cbn [regex_match].
    change (String b (s ++ String c0 x'))
      with (String b s ++ String c0 x')%string.
    rewrite match_here_appended, IH. reflexivity.
Qed.

End Appended.

Lemma span_id_spec (s : string) :
  forallb id_char (Str.to_list (fst (span_id s))) = true
  /\ s = (fst (span_id s) ++ snd (span_id s))%string.
Proof.
  induction s as [|c s [IH1 IH2]]; [split; reflexivity|].
  cbn [span_id]. destruct (id_char c) eqn:E; [|split; reflexivity].
  destruct (span_id s) as [id rest]. cbn [fst snd] in *. split.
  - cbn [Str.to_list list_ascii_of_string forallb]. rewrite E. exact IH1.
  - change (String c id ++ rest)%string with (String c (id ++ rest)).
    rewrite <- IH2. reflexivity.
Qed.

Lemma span_id_run (id rest : string) :
  forallb id_char (Str.to_list id) = true ->
  match rest with
  | EmptyString => True
  | String c _ => id_char c = false
  end ->
  span_id (id ++ rest) = (id, rest).
Proof.
  intros Hid Hrest. induction id as [|c id IH].
  - change ("" ++ rest)%string with rest. destruct rest as [|c r]; [reflexivity|].
    cbn [span_id]. rewrite Hrest. reflexivity.
  - cbn [Str.to_list list_ascii_of_string forallb] in Hid.
    apply andb_true_iff in Hid as [Hc Hid].
    change (String c id ++ rest)%string with (String c (id ++ rest)).
    cbn [span_id]. rewrite Hc, (IH Hid). reflexivity.
Qed.

Lemma drop_prefix_app (p s : string) : drop_prefix p (p ++ s) = Some s.
Proof.
  induction p as [|a p IH]; [reflexivity|].
  change (String a p ++ s)%string with (String a (p ++ s)).
  cbn [drop_prefix]. rewrite Ascii.eqb_refl. exact IH.
Qed.

Lemma match_here_id (pat : url_pattern) (s id : string) :
  match_here pat s = Some id ->
  id <> EmptyString /\ forallb id_char (Str.to_list id) = true.
Proof.
  unfold match_here. destruct (drop_prefix (before pat) s) as [r|]; [|discriminate].
  destruct (span_id_spec r) as [H _]. destruct (span_id r) as [id' rest].
  cbn [fst] in H.
  destruct (negb (Str.is_empty id') && Str.starts_with (after pat) rest) eqn:E;
    [|discriminate].
  intros [= <-]. split; [|exact H]. intros ->. discriminate.
Qed.

Lemma regex_match_id (pat : url_pattern) (s id : string) :
  regex_match pat s = Some id ->
  id <> EmptyString /\ forallb id_char (Str.to_list id) = true.
Proof.
  induction s as [|c s IH]; cbn [regex_match];
    destruct (match_here pat _) as [id'|] eqn:E.
  - intros [= <-]. exact (match_here_id _ _ _ E).
  - discriminate.
  - intros [= <-]. exact (match_here_id _ _ _ E).
  - exact IH.
Qed.

Lemma starts_with_app (p r : string) : Str.starts_with p (p ++ r)%string = true.
Proof.
  induction p as [|x p IH]; [reflexivity|].
  change (String x p ++ r)%string with (String x (p ++ r)).
  cbn [Str.starts_with]. rewrite Ascii.eqb_refl, IH. reflexivity.
Qed.

(** The pattern at the head of a text written as literal, identifier,
    literal. *)
Lemma match_here_written (pat : url_pattern) (id rest : string) :
  id <> EmptyString ->
  forallb id_char (Str.to_list id) = true ->
  match after pat with
  | EmptyString => match rest with
                   | EmptyString => True
                   | String c _ => id_char c = false
                   end
  | String c _ => id_char c = false
  end ->
  match_here pat (before pat ++ id ++ after pat ++ rest) = Some id.
Proof.
  intros Hne Hid Hafter. unfold match_here. rewrite drop_prefix_app.
  rewrite (span_id_run id (after pat ++ rest) Hid).
  - destruct id; [contradiction|]. cbn [Str.is_empty negb andb].
    rewrite starts_with_app. reflexivity.
  - destruct (after pat) as [|c a]; [exact Hafter|]. exact Hafter.
Qed.

Lemma regex_match_here (pat : url_pattern) (s id : string) :
  match_here pat s = Some id -> regex_match pat s = Some id.
Proof. intros H. destruct s; cbn [regex_match]; rewrite H; reflexivity. Qed.

Lemma with_parameter_cases (url param : string) :
  exists c0 x',
    with_parameter url param = (url ++ String c0 x')%string
    /\ (c0 = "?"%char \/ c0 = "&"%char)
    /\ x' = param.
Proof.
  unfold with_parameter. destruct (Str.includes url "?").
  - exists "&"%char, param. auto.
  - exists "?"%char, param. auto.
Qed.

Lemma with_parameter_includes (url param : string) :
  Str.includes (with_parameter url param) param = true.
Proof.
  unfold with_parameter. destruct (Str.includes url "?").
  - apply (includes_app_r "&" param).
    change ("&" ++ param)%string with (String "&" param). apply includes_suffix.
  - apply (includes_app_r "?" param).
    change ("?" ++ param)%string with (String "?" param). apply includes_suffix.
Qed.

Lemma to_list_app (a b : string) :
  Str.to_list (a ++ b) = Str.to_list a ++ Str.to_list b.
Proof.
  induction a as [|c a IH]; [reflexivity|].
  change (String c a ++ b)%string with (String c (a ++ b)).
  cbn [Str.to_list list_ascii_of_string app]. f_equal. exact IH.
Qed.

Lemma with_parameter_not_blank (url param : string) :
  Str.blank (with_parameter url param) = false.
Proof.
  destruct (with_parameter_cases url param) as (c0 & x' & -> & Hc & _).
  apply (solid_not_blank _ c0).
  - destruct Hc as [-> | ->]; split; reflexivity.
  - rewrite to_list_app. apply in_or_app. right. left. reflexivity.
Qed.

(** Adding a parameter to an address changes no test of the three
    patterns. *)
Lemma regex_match_with_parameter (pat : url_pattern) (url param : string) :
  Str.count_char "?" (before pat) = 0%nat ->
  Str.count_char "&" (before pat) = 0%nat ->
  Str.count_char "?" (after pat) = 0%nat ->
  Str.count_char "&" (after pat) = 0%nat ->
  regex_match pat (String "?" param) = None ->
  regex_match pat (String "&" param) = None ->
  regex_match pat (with_parameter url param) = regex_match pat url.
Proof.
  intros B1 B2 A1 A2 M1 M2. unfold with_parameter.
  destruct (Str.includes url "?").
  - change ("&" ++ param)%string with (String "&" param).
    apply regex_match_appended; [reflexivity | exact B2 | exact A2 | exact M2].
  - change ("?" ++ param)%string with (String "?" param).
    apply regex_match_appended; [reflexivity | exact B1 | exact A1 | exact M1].
Qed.

Ltac parameter_inert :=
  apply regex_match_with_parameter; reflexivity.

(** X16.  The page accepts exactly the addresses the fetch can use:
    [validateUrl] holds of an address if and only if [convertToCSVUrl] gives
    an address for it.  A form address, a blank text and an address of no
    known shape have neither. *)
Theorem validateUrl_iff_convertible (url : string) :
  validateUrl url = true <-> exists csvUrl, convertToCSVUrl url = Some csvUrl.
Proof.
  unfold validateUrl, convertToCSVUrl, regex_test. rewrite is_empty_blank.
  destruct (Str.blank url); [split; [discriminate | intros [r H]; discriminate]|].
  destruct (regex_match patterns.export url) as [e|].
  - rewrite orb_true_r. split; [intros _|reflexivity].
    destruct (Str.includes url "format=csv"); eexists; reflexivity.
  - destruct (regex_match patterns.edit url) as [i|].
    + split; [intros _; eexists; reflexivity | reflexivity].
    + destruct (regex_match patterns.published url) as [p|].
      * split; [intros _|reflexivity].
        destruct (Str.includes url "output=csv"); eexists; reflexivity.
      * destruct (regex_match patterns.form url);
          (split; [discriminate | intros [r H]; discriminate]).
Qed.

Lemma validateUrl_iff_convertible_witness :
  validateUrl "https://docs.google.com/spreadsheets/d/1AbC-d_9/edit#gid=0" = true.
Proof.
  apply (proj2 (validateUrl_iff_convertible
                  "https://docs.google.com/spreadsheets/d/1AbC-d_9/edit#gid=0")).
  eexists. reflexivity.
Defined.

(** X17.  An address that [convertToCSVUrl] returns is one it returns
    unchanged: converting twice is converting once.  The address asks for
    comma-separated values, by [format=csv] or by [output=csv], and
    [validateUrl] accepts it. *)
Theorem convertToCSVUrl_idempotent (url csvUrl : string) :
  convertToCSVUrl url = Some csvUrl ->
  convertToCSVUrl csvUrl = Some csvUrl
  /\ (Str.includes csvUrl "format=csv" = true
      \/ Str.includes csvUrl "output=csv" = true)
  /\ validateUrl csvUrl = true.
Proof.
  intros H.
  assert (Hfix : convertToCSVUrl csvUrl = Some csvUrl
                 /\ (Str.includes csvUrl "format=csv" = true
                     \/ Str.includes csvUrl "output=csv" = true)).
  { revert H. unfold convertToCSVUrl at 1. unfold regex_test.
    rewrite is_empty_blank.
    destruct (Str.blank url) eqn:Hb; [discriminate|].
    destruct (regex_match patterns.export url) as [e|] eqn:He.
    - destruct (Str.includes url "format=csv") eqn:Hf; intros [= <-].
      + split; [|left; exact Hf].
        unfold convertToCSVUrl, regex_test. rewrite is_empty_blank, Hb, He, Hf.
        reflexivity.
      + pose proof (with_parameter_includes url "format=csv") as Hi.
        split; [|left; exact Hi].
        unfold convertToCSVUrl, regex_test.
        rewrite is_empty_blank, with_parameter_not_blank.
        replace (regex_match patterns.export (with_parameter url "format=csv"))
          with (regex_match patterns.export url) by (symmetry; parameter_inert).
        rewrite He, Hi. reflexivity.
    - destruct (regex_match patterns.edit url) as [id|] eqn:Hedit.
      + intros [= <-]. apply regex_match_id in Hedit as [Hne Hid].
        assert (Hm : regex_match patterns.export
                       ("https://docs.google.com/spreadsheets/d/" ++ id
                        ++ "/export?format=csv") = Some id).
        { apply regex_match_here.
          exact (match_here_written patterns.export id "?format=csv"
                   Hne Hid eq_refl). }
        assert (Hi : Str.includes
                       ("https://docs.google.com/spreadsheets/d/" ++ id
                        ++ "/export?format=csv") "format=csv" = true).
        { apply (includes_app_r "/export?" "format=csv").
          change ("/export?" ++ "format=csv")%string with "/export?format=csv".
          rewrite <- append_assoc. apply includes_suffix. }
        split; [|left; exact Hi].
        unfold convertToCSVUrl, regex_test. rewrite is_empty_blank, Hm, Hi.
        rewrite (solid_not_blank _ "h"%char);
          [reflexivity | split; reflexivity | left; reflexivity].
      + destruct (regex_match patterns.published url) as [p|] eqn:Hp.
        * destruct (Str.includes url "output=csv") eqn:Ho; intros [= <-].
          -- split; [|right; exact Ho].
             unfold convertToCSVUrl, regex_test.
             rewrite is_empty_blank, Hb, He, Hedit, Hp, Ho. reflexivity.
          -- pose proof (with_parameter_includes url "output=csv") as Hi.
             split; [|right; exact Hi].
             unfold convertToCSVUrl, regex_test.
             rewrite is_empty_blank, with_parameter_not_blank.
             replace (regex_match patterns.export (with_parameter url "output=csv"))
               with (regex_match patterns.export url)
               by (symmetry; parameter_inert).
             replace (regex_match patterns.edit (with_parameter url "output=csv"))
               with (regex_match patterns.edit url)
               by (symmetry; parameter_inert).
             replace (regex_match patterns.published
                        (with_parameter url "output=csv"))
               with (regex_match patterns.published url)
               by (symmetry; parameter_inert).
             rewrite He, Hedit, Hp, Hi. reflexivity.
        * destruct (regex_match patterns.form url); discriminate. }
  destruct Hfix as [Hfix Hcsv]. split; [exact Hfix|]. split; [exact Hcsv|].
  revert Hfix. unfold validateUrl, convertToCSVUrl, regex_test.
  rewrite is_empty_blank. destruct (Str.blank csvUrl); [discriminate|].
  destruct (regex_match patterns.export csvUrl); [intros _; apply orb_true_r|].
  destruct (regex_match patterns.edit csvUrl); [reflexivity|].
  destruct (regex_match patterns.published csvUrl); [reflexivity|].
  destruct (regex_match patterns.form csvUrl); discriminate.
Qed.

Lemma convertToCSVUrl_idempotent_witness :
  convertToCSVUrl "https://docs.google.com/spreadsheets/d/e/2PACX-1v_Q/pub?gid=0&output=csv"
  = Some "https://docs.google.com/spreadsheets/d/e/2PACX-1v_Q/pub?gid=0&output=csv".
Proof.
  exact (proj1 (convertToCSVUrl_idempotent
                  "https://docs.google.com/spreadsheets/d/e/2PACX-1v_Q/pub?gid=0"
                  "https://docs.google.com/spreadsheets/d/e/2PACX-1v_Q/pub?gid=0&output=csv"
                  eq_refl)).
Defined.

(** X18.  Of an address [.../spreadsheets/d/ID/edit...] that does not match
    the export pattern, only the identifier is kept: whatever follows
    [/edit], the selected tab included, does not reach the result. *)
Theorem convertToCSVUrl_edit (id rest : string) :
  id <> EmptyString ->
  forallb id_char (Str.to_list id) = true ->
  regex_test patterns.export
    ("https://docs.google.com/spreadsheets/d/" ++ id ++ "/edit" ++ rest) = false ->
  convertToCSVUrl
    ("https://docs.google.com/spreadsheets/d/" ++ id ++ "/edit" ++ rest)
  = Some ("https://docs.google.com/spreadsheets/d/" ++ id
          ++ "/export?format=csv")%string.
Proof.
  intros Hne Hid Hexp. unfold convertToCSVUrl.
  rewrite is_empty_blank, Hexp.
  rewrite (solid_not_blank _ "h"%char);
    [| split; reflexivity | left; reflexivity].
  assert (Hm : regex_match patterns.edit
                 ("https://docs.google.com/spreadsheets/d/" ++ id
                  ++ "/edit" ++ rest) = Some id).
  { apply regex_match_here.
    exact (match_here_written patterns.edit id rest Hne Hid eq_refl). }
  rewrite Hm. reflexivity.
Qed.

Lemma convertToCSVUrl_edit_witness :
  convertToCSVUrl "https://docs.google.com/spreadsheets/d/1AbC-d_9/edit#gid=1234"
  = Some "https://docs.google.com/spreadsheets/d/1AbC-d_9/export?format=csv".
Proof.
  refine (convertToCSVUrl_edit "1AbC-d_9" "#gid=1234" _ eq_refl eq_refl).
  discriminate.
Defined.

(** ** Lines *)

Lemma split_lines_cons (c : ascii) (r : string) :
  Ascii.eqb c Str.LF = false ->
  match r with
  | String d _ => Ascii.eqb c Str.CR && Ascii.eqb d Str.LF = false
  | EmptyString => True
  end ->
  Str.split_lines (String c r)
  = match Str.split_lines r with
    | l :: ls => String c l :: ls
    | [] => [String c EmptyString]
    end.
Proof.
  intros Hc Hr. cbn [Str.split_lines]. rewrite Hc.
  destruct r as [|d r']; [reflexivity|]. rewrite Hr. reflexivity.
Qed.

(** A text without line feed is one line. *)
Lemma split_lines_one (l : string) :
  Str.count_char Str.LF l = 0%nat -> Str.split_lines l = [l].
Proof.
  induction l as [|c l IH]; intros H; [reflexivity|].
  apply count_char_cons in H as [Hc H].
  rewrite split_lines_cons.
  - rewrite (IH H). reflexivity.
  - rewrite Ascii.eqb_sym. exact Hc.
  - destruct l as [|d l']; [exact I|].
    apply count_char_cons in H as [Hd _].
    rewrite (Ascii.eqb_sym d), Hd. apply andb_false_r.
Qed.

(** A line feed ends the line before it, which is kept as it is unless it
    ends with a carriage return. *)
Lemma split_lines_line (l rest : string) :
  Str.count_char Str.LF l = 0%nat ->
  last_char l <> Some Str.CR ->
  Str.split_lines (l ++ String Str.LF rest) = l :: Str.split_lines rest.
Proof.
  induction l as [|c l IH]; intros H Hlast; [reflexivity|].
  apply count_char_cons in H as [Hc H].
  change (String c l ++ String Str.LF rest)%string
    with (String c (l ++ String Str.LF rest)).
  rewrite split_lines_cons.
  - rewrite IH; [reflexivity | exact H |].
    destruct l as [|d l']; [discriminate | exact Hlast].
  - rewrite Ascii.eqb_sym. exact Hc.
  - destruct l as [|d l'].
    + change ("" ++ String Str.LF rest)%string with (String Str.LF rest).
      destruct (Ascii.eqb_spec c Str.CR) as [->|_]; [|reflexivity].
      exfalso. apply Hlast. reflexivity.
    + change (String d l' ++ String Str.LF rest)%string
        with (String d (l' ++ String Str.LF rest)).
      apply count_char_cons in H as [Hd _].
      rewrite (Ascii.eqb_sym d), Hd. apply andb_false_r.
Qed.

Lemma split_lines_concat (lines : list string) :
  lines <> [] ->
  List.Forall (fun l => Str.count_char Str.LF l = 0%nat
                        /\ last_char l <> Some Str.CR) lines ->
  Str.split_lines (String.concat (String Str.LF "") lines) = lines.
Proof.
  induction lines as [|l lines IH]; intros Hne Hall; [contradiction|].
  apply List.Forall_cons_iff in Hall as [[Hl Hlast] Hall].
  destruct lines as [|l2 lines].
  - cbn [String.concat]. apply split_lines_one, Hl.
  - change (String.concat (String Str.LF "") (l :: l2 :: lines))
      with (l ++ String Str.LF (String.concat (String Str.LF "") (l2 :: lines)))%string.
    rewrite (split_lines_line l _ Hl Hlast), IH; [reflexivity | discriminate | exact Hall].
Qed.

Lemma parseCSV_lines (csvText : string) :
  Str.blank csvText = false ->
  parseCSV csvText
  = map (fun line =>
           map clean_value (scan_line (detectSeparator csvText) line [] "" false))
        (List.filter (fun line => negb (Str.blank line))
                     (Str.split_lines csvText)).
Proof.
  intros Hb. unfold parseCSV. rewrite Hb. cbn zeta.
  induction (Str.split_lines csvText) as [|line lines IH]; [reflexivity|].
  cbn [map List.filter]. destruct (Str.blank line); cbn [negb map]; cbv beta.
  - exact IH.
  - destruct (scan_line_fields (detectSeparator csvText) line [] "" false)
      as (f & fs & ->).
    cbn [app map].
    change (0 <? length (clean_value f :: map clean_value fs))%nat with true.
    cbv iota. rewrite IH. reflexivity.
Qed.

Lemma detectSeparator_not_quote (csvText : string) :
  Ascii.eqb (detectSeparator csvText) Str.QUOTE = false.
Proof.
  rewrite detectSeparator_cases. destruct (Str.blank csvText); [reflexivity|].
  destruct (first_line csvText) as [line|]; [|reflexivity]. cbv zeta.
  repeat match goal with
         | |- context [(?a <? ?b)%nat] => destruct (a <? b)%nat
         end; reflexivity.
Qed.

(** X19.  Writing and reading a table.  Write the rows one per line, each as
    its fields with the separator between them (texts without quote; a text
    bare if it holds no separator, between quotes if it is not empty), no
    line blank, holding a line feed or ending with a carriage return.  If
    the separator is the one [detectSeparator] finds in the text, [parseCSV]
    reads the rows back, each text trimmed. *)
Theorem parseCSV_reads_table (rows : list (list field)) (csvText : string) :
  csvText = raw_text (detectSeparator csvText) rows ->
  List.Forall (row_ok (detectSeparator csvText)) rows ->
  Str.blank csvText = false ->
  parseCSV csvText = map (map (fun f => Str.trim (field_text f))) rows.
Proof.
  intros Htext Hrows Hb. rewrite (parseCSV_lines csvText Hb).
  set (sep := detectSeparator csvText) in *.
  assert (Hsep : Ascii.eqb sep Str.QUOTE = false)
    by apply detectSeparator_not_quote.
  assert (Hne : rows <> []).
  { intros ->. rewrite Htext in Hb. discriminate Hb. }
  assert (Hlines : Str.split_lines csvText = map (raw_line sep) rows).
  { rewrite Htext at 1. unfold raw_text. apply split_lines_concat.
    - destruct rows; [contradiction | discriminate].
    - apply List.Forall_forall. intros l Hl.
      apply in_map_iff in Hl as (row & <- & Hrow).
      rewrite List.Forall_forall in Hrows.
      destruct (Hrows row Hrow) as (_ & _ & _ & H1 & H2). split; assumption. }
  rewrite Hlines. clear Htext Hlines Hne Hb.
  induction Hrows as [|row rows Hrow Hrows IH]; [reflexivity|].
  destruct Hrow as (Hrne & Hok & Hnb & _ & _).
  cbn [map List.filter]. rewrite Hnb. cbn [negb map]. f_equal; [|exact IH].
  destruct row as [|f row]; [contradiction|].
  rewrite (scan_line_raw sep Hsep row f [] "" Hok).
  cbn [app]. change ("" ++ field_text f)%string with (field_text f).
  change (field_text f :: map field_text row) with (map field_text (f :: row)).
  rewrite map_map. apply map_ext_in. intros g Hg. apply clean_value_plain.
  rewrite List.Forall_forall in Hok. specialize (Hok g Hg).
  destruct g; apply Hok.
Qed.

Lemma parseCSV_reads_table_witness :
  parseCSV (raw_text ";" [[Bare "nome"; Bare " nota "];
                          [Quoted "Silva; Ana"; Bare "10"];
                          [Bare "Rui"; Bare ""]])
  = [["nome"; "nota"]; ["Silva; Ana"; "10"]; ["Rui"; ""]].
Proof.
  refine (parseCSV_reads_table
            [[Bare "nome"; Bare " nota "];
             [Quoted "Silva; Ana"; Bare "10"];
             [Bare "Rui"; Bare ""]]
            (raw_text ";" [[Bare "nome"; Bare " nota "];
                           [Quoted "Silva; Ana"; Bare "10"];
                           [Bare "Rui"; Bare ""]])
            eq_refl _ eq_refl).
  repeat constructor; discriminate.
Defined.

(** ** The order of the keys *)

Lemma digits_val_from (ds : list ascii) :
  forall acc : Z,
  fold_left (fun acc c => 10 * acc + Str.digit_val c)%Z ds acc
  = (acc * 10 ^ Z.of_nat (length ds) + Str.digits_val ds)%Z.
Proof.
  unfold Str.digits_val. induction ds as [|c ds IH]; intros acc.
  - cbn. lia.
  - cbn [fold_left length]. rewrite IH, (IH (10 * 0 + Str.digit_val c)%Z).
    rewrite Nat2Z.inj_succ, Z.pow_succ_r by lia. ring.
Qed.

Lemma digits_val_cons (c : ascii) (ds : list ascii) :
  Str.digits_val (c :: ds)
  = (Str.digit_val c * 10 ^ Z.of_nat (length ds) + Str.digits_val ds)%Z.
Proof.
  unfold Str.digits_val at 1. cbn [fold_left]. rewrite digits_val_from.
  rewrite Z.mul_0_r, Z.add_0_l. reflexivity.
Qed.

Lemma is_digit_val (c : ascii) :
  Str.is_digit c = true -> (0 <= Str.digit_val c <= 9)%Z.
Proof.
  unfold Str.is_digit, Str.digit_val. cbv zeta. intros H.
  apply andb_true_iff in H as [H1 H2]. apply N.leb_le in H1, H2. lia.
Qed.

Lemma digit_val_inj (c d : ascii) : Str.digit_val c = Str.digit_val d -> c = d.
Proof.
  unfold Str.digit_val, Str.code. intros H.
  assert (E : N_of_ascii c = N_of_ascii d) by lia.
  rewrite <- (ascii_N_embedding c), <- (ascii_N_embedding d), E. reflexivity.
Qed.

Lemma digits_val_bound (ds : list ascii) :
  forallb Str.is_digit ds = true ->
  (0 <= Str.digits_val ds < 10 ^ Z.of_nat (length ds))%Z.
Proof.
  induction ds as [|c ds IH]; intros H; [cbn; lia|].
  cbn [forallb] in H. apply andb_true_iff in H as [Hc H].
  specialize (IH H). apply is_digit_val in Hc.
  rewrite digits_val_cons. cbn [length]. rewrite Nat2Z.inj_succ, Z.pow_succ_r by lia.
  nia.
Qed.

Lemma digits_val_inj_length (ds ds' : list ascii) :
  length ds = length ds' ->
  forallb Str.is_digit ds = true -> forallb Str.is_digit ds' = true ->
  Str.digits_val ds = Str.digits_val ds' -> ds = ds'.
Proof.
  revert ds'. induction ds as [|c ds IH]; intros [|c' ds'] Hlen H H' E;
    try discriminate; [reflexivity|].
  cbn [forallb] in H, H'. apply andb_true_iff in H as [Hc H], H' as [Hc' H'].
  injection Hlen as Hlen. rewrite !digits_val_cons, <- Hlen in E.
  pose proof (digits_val_bound ds H) as B.
  pose proof (digits_val_bound ds' H') as B'. rewrite <- Hlen in B'.
  assert (Hd : Str.digit_val c = Str.digit_val c') by nia.
  rewrite (digit_val_inj c c' Hd). f_equal. apply IH; try assumption. nia.
Qed.

Lemma span_digits_spec (s : string) :
  forallb Str.is_digit (fst (Str.span_digits s)) = true
  /\ s = (Str.of_list (fst (Str.span_digits s)) ++ snd (Str.span_digits s))%string.
Proof.
  induction s as [|c s [IH1 IH2]]; [split; reflexivity|].
  cbn [Str.span_digits]. destruct (Str.is_digit c) eqn:E; [|split; reflexivity].
  destruct (Str.span_digits s) as [ds rest]. cbn [fst snd] in *. split.
  - cbn [forallb]. rewrite E. exact IH1.
  - cbn [Str.of_list string_of_list_ascii].
    change (String c (string_of_list_ascii ds) ++ rest)%string
      with (String c (Str.of_list ds ++ rest)).
    rewrite <- IH2. reflexivity.
Qed.

(** What [array_index] accepts: the decimal digits of the index, without a
    leading zero. *)
Lemma array_index_digits (k : string) (i : Z) :
  Obj.array_index k = Some i ->
  exists c ds,
    k = Str.of_list (c :: ds)
    /\ forallb Str.is_digit (c :: ds) = true
    /\ (Str.digit_val c = 0%Z -> ds = [])
    /\ Str.digits_val (c :: ds) = i.
Proof.
  unfold Obj.array_index. destruct (span_digits_spec k) as [Hd Hk].
  destruct (Str.span_digits k) as [[|c ds] [|x rest]]; try discriminate.
  cbn [fst snd] in Hd, Hk. rewrite append_nil_r in Hk. cbv zeta.
  destruct (Ascii.eqb_spec c "0") as [->|Hc].
  - destruct ds as [|d ds]; cbn [negb andb]; [|discriminate].
    destruct (_ <=? _)%Z; [|discriminate]. intros [= <-].
    exists "0"%char, []. repeat split; assumption.
  - cbn [andb]. destruct (_ <=? _)%Z; [|discriminate]. intros [= <-].
    exists c, ds. repeat split; try assumption.
    intros Hz. exfalso. apply Hc. apply digit_val_inj. exact Hz.
Qed.

Lemma array_index_inj (k k' : string) (i : Z) :
  Obj.array_index k = Some i -> Obj.array_index k' = Some i -> k = k'.
Proof.
  intros H H'.
  apply array_index_digits in H as (c & ds & -> & Hd & Hz & Hv).
  apply array_index_digits in H' as (c' & ds' & -> & Hd' & Hz' & Hv').
  f_equal. rewrite <- Hv' in Hv. clear Hv' i.
  pose proof Hd as Hd0. pose proof Hd' as Hd0'.
  cbn [forallb] in Hd0, Hd0'.
  apply andb_true_iff in Hd0 as [Hc Hds], Hd0' as [Hc' Hds'].
  pose proof (is_digit_val c Hc) as Bc. pose proof (is_digit_val c' Hc') as Bc'.
  pose proof (digits_val_bound ds Hds) as B.
  pose proof (digits_val_bound ds' Hds') as B'.
  rewrite !digits_val_cons in Hv.
  assert (P : (1 <= 10 ^ Z.of_nat (length ds))%Z)
    by (apply (Z.pow_le_mono_r 10 0); lia).
  assert (P' : (1 <= 10 ^ Z.of_nat (length ds'))%Z)
    by (apply (Z.pow_le_mono_r 10 0); lia).
  assert (Hlen : length ds = length ds').
  { destruct (Z.eq_dec (Str.digit_val c) 0%Z) as [E|E];
      destruct (Z.eq_dec (Str.digit_val c') 0%Z) as [E'|E'].
    - rewrite (Hz E), (Hz' E'). reflexivity.
    - exfalso. pose proof (Hz E) as ->.
      change (Str.digits_val []) with 0%Z in Hv. nia.
    - exfalso. pose proof (Hz' E') as ->.
      change (Str.digits_val []) with 0%Z in Hv. nia.
    - destruct (Nat.lt_trichotomy (length ds) (length ds')) as [L|[L|L]];
        [exfalso | exact L | exfalso].
      + assert (H : (10 ^ Z.of_nat (S (length ds)) <= 10 ^ Z.of_nat (length ds'))%Z)
          by (apply Z.pow_le_mono_r; lia).
        rewrite Nat2Z.inj_succ, Z.pow_succ_r in H by lia. nia.
      + assert (H : (10 ^ Z.of_nat (S (length ds')) <= 10 ^ Z.of_nat (length ds))%Z)
          by (apply Z.pow_le_mono_r; lia).
        rewrite Nat2Z.inj_succ, Z.pow_succ_r in H by lia. nia. }
  apply digits_val_inj_length; try assumption.
  - cbn [length]. rewrite Hlen. reflexivity.
  - rewrite !digits_val_cons. exact Hv.
Qed.
Lemma array_index_nonneg (k : string) (i : Z) :
  Obj.array_index k = Some i -> (0 <= i)%Z.
Proof.
  intros H. apply array_index_digits in H as (c & ds & _ & Hd & _ & <-).
  apply (digits_val_bound (c :: ds) Hd).
Qed.

Lemma key_order_weaken (lo lo' : Z) (ks : list string) :
  (lo' <= lo)%Z -> key_order lo ks -> key_order lo' ks.
Proof.
  destruct ks as [|k r]; [auto|]. cbn [key_order].
  destruct (Obj.array_index k); [|auto]. intros Hle [H1 H2]. split; [lia | exact H2].
Qed.

Lemma key_order_insert_index (i : Z) (k v : string) (o : Obj.t) :
  Obj.array_index k = Some i ->
  ~ In k (Obj.keys o) ->
  forall lo, (lo < i)%Z -> key_order lo (Obj.keys o) ->
  key_order lo (Obj.keys (Obj.insert_index i k v o)).
Proof.
  intros Hk. unfold Obj.keys. induction o as [|[k0 v0] o IH]; intros Hin lo Hlo Ho.
  - cbn [Obj.insert_index map fst key_order]. rewrite Hk. split; [exact Hlo | exact I].
  - cbn [Obj.insert_index]. cbn [map fst key_order] in Ho.
    destruct (Obj.array_index k0) as [j|] eqn:Hk0.
    + destruct Ho as [Hj Ho]. destruct (Z.ltb_spec j i) as [Hlt|Hge].
      * cbn [map fst key_order]. rewrite Hk0. split; [exact Hj|].
        apply IH; [|exact Hlt | exact Ho].
        intros Hc. apply Hin. right. exact Hc.
      * cbn [map fst key_order]. rewrite Hk, Hk0. split; [exact Hlo|].
        split; [|exact Ho].
        assert (j <> i); [|lia]. intros ->. apply Hin. left. cbn [fst].
        exact (array_index_inj k0 k i Hk0 Hk).
    + cbn [map fst key_order]. rewrite Hk, Hk0. split; [exact Hlo|].
      exact Ho.
Qed.

Lemma key_order_append (k : string) (ks : list string) :
  Obj.array_index k = None ->
  forall lo, key_order lo ks -> key_order lo (ks ++ [k]).
Proof.
  intros Hk. induction ks as [|k0 ks IH]; intros lo Ho.
  - cbn [app key_order]. rewrite Hk. constructor.
  - cbn [app key_order] in *. destruct (Obj.array_index k0) as [j|].
    + destruct Ho as [Hj Ho]. split; [exact Hj | apply IH, Ho].
    + apply List.Forall_app. split; [exact Ho|]. constructor; [exact Hk | constructor].
Qed.

(** An assignment keeps the properties in the order of an object. *)
Lemma ordered_set (k v : string) (o : Obj.t) :
  ordered o -> ordered (Obj.set k v o).
Proof.
  intros (Hnd & Hp & Ho). destruct (keys_set k v o) as [K1 K2].
  split; [apply K2, Hnd|]. split.
  - rewrite K1. intros [H|[E [H|H]]]; [auto | auto | subst k; auto].
  - unfold Obj.set. destruct (Obj.has k o) eqn:Hhas.
    + rewrite keys_replace. exact Ho.
    + assert (Hnot : ~ In k (Obj.keys o)).
      { intros H. apply has_In_keys in H. congruence. }
      destruct (String.eqb k "__proto__"); [exact Ho|].
      destruct (Obj.array_index k) as [i|] eqn:Hk.
      * apply (key_order_insert_index i k v o Hk Hnot); [|exact Ho].
        apply array_index_nonneg in Hk. lia.
      * unfold Obj.keys. rewrite map_app. apply key_order_append; assumption.
Qed.

Lemma key_order_prefix (k : string) (i : Z) (rest : list string) :
  Obj.array_index k = Some i ->
  forall (ks : list string) (lo : Z),
  key_order lo (ks ++ k :: rest) ->
  (lo < i)%Z
  /\ List.Forall (fun k0 => exists j, Obj.array_index k0 = Some j /\ (j < i)%Z) ks.
Proof.
  intros Hk. induction ks as [|k0 ks IH]; intros lo Ho.
  - cbn [app key_order] in Ho. rewrite Hk in Ho. split; [apply Ho | constructor].
  - cbn [app key_order] in Ho. destruct (Obj.array_index k0) as [j|] eqn:Hk0.
    + destruct Ho as [Hj Ho]. destruct (IH j Ho) as [Hji Hall].
      split; [lia|]. constructor; [|exact Hall]. exists j. split; [exact Hk0 | exact Hji].
    + exfalso. apply List.Forall_app in Ho as [_ Ho].
      apply List.Forall_inv in Ho. congruence.
Qed.

Lemma insert_index_last (i : Z) (k v : string) (o : Obj.t) :
  List.Forall (fun k0 => exists j, Obj.array_index k0 = Some j /\ (j < i)%Z)
              (Obj.keys o) ->
  Obj.insert_index i k v o = o ++ [(k, v)].
Proof.
  unfold Obj.keys. induction o as [|[k0 v0] o IH]; intros H; [reflexivity|].
  cbn [map fst] in H. apply List.Forall_cons_iff in H as [(j & Hj & Hlt) H].
  cbn [Obj.insert_index]. rewrite Hj.
  destruct (Z.ltb_spec j i); [|lia]. rewrite (IH H). reflexivity.
Qed.

(** Assigning the properties of an ordered object one after the other
    builds the same object. *)
Lemma ordered_assigned (es : Obj.t) :
  forall acc : Obj.t,
  ordered (acc ++ es) ->
  fold_left (fun acc (e : string * string) => Obj.set (fst e) (snd e) acc) es acc
  = acc ++ es.
Proof.
  induction es as [|[k v] es IH]; intros acc Hord.
  - rewrite app_nil_r. reflexivity.
  - cbn [fold_left fst snd].
    assert (Hset : Obj.set k v acc = acc ++ [(k, v)]).
    { destruct Hord as (Hnd & Hp & Ho). unfold Obj.keys in Hnd, Hp, Ho.
      rewrite map_app in Hnd, Hp, Ho. cbn [map fst] in Hnd, Hp, Ho.
      assert (Hnot : ~ In k (map fst acc)).
      { apply NoDup_app in Hnd as (_ & Hd & _). intros Hin.
        apply (Hd k); [apply list_elem_of_In; exact Hin|].
        apply list_elem_of_In. left. reflexivity. }
      unfold Obj.set.
      destruct (Obj.has k acc) eqn:Hhas;
        [apply has_In_keys in Hhas; contradiction|].
      destruct (String.eqb_spec k "__proto__") as [->|_].
      { exfalso. apply Hp. apply in_or_app. right. left. reflexivity. }
      destruct (Obj.array_index k) as [i|] eqn:Hk; [|reflexivity].
      apply insert_index_last.
      exact (proj2 (key_order_prefix k i (map fst es) Hk (map fst acc) (-1) Ho)). }
    rewrite Hset. rewrite IH; rewrite <- app_assoc; [reflexivity | exact Hord].
Qed.

Lemma ordered_well_formed (o : Obj.t) : ordered o -> well_formed o.
Proof. intros H. exact (ordered_assigned o [] H). Qed.

Lemma ordered_nil : ordered [].
Proof.
  split; [apply NoDup_nil_2|]. split; [intros []|exact I].
Qed.

Lemma record_of_ordered (headers row : list string) (i : nat) :
  ordered (record_of headers row i).
Proof.
  unfold record_of. apply ordered_set.
  generalize (combine (seq 0 (length (normalized_headers headers)))
                      (normalized_headers headers)).
  intros es. generalize ordered_nil. generalize (@nil (string * string)).
  induction es as [|[idx h] es IH]; intros o Ho; [exact Ho|].
  cbn [fold_left]. apply IH, ordered_set, Ho.
Qed.

Lemma csvToObjects_well_formed (csv : list (list string)) :
  List.Forall well_formed (csvToObjects csv).
Proof.
  apply List.Forall_forall. intros rec Hrec.
  destruct csv as [|headers rows]; [destruct Hrec|].
  destruct (forallb Str.blank headers) eqn:E.
  - rewrite (csvToObjects_blank_headers headers rows E) in Hrec. destruct Hrec.
  - rewrite (csvToObjects_unfold headers rows E) in Hrec.
    apply map_indexed_In in Hrec as (row & i & _ & ->).
    apply ordered_well_formed, record_of_ordered.
Qed.

Lemma filter_all {A : Type} (f : A -> bool) (l : list A) :
  (forall x, In x l -> f x = true) -> List.filter f l = l.
Proof.
  induction l as [|x l IH]; intros H; [reflexivity|].
  cbn [List.filter]. rewrite (H x) by (left; reflexivity).
  f_equal. apply IH. intros y Hy. apply H. right. exact Hy.
Qed.

(** X20.  Cleaning what [csvToObjects] built.  [cleanSheetData] drops none
    of the records: the row identifier is a value that is not blank, so a
    data row of empty cells stays in.  Each record keeps its keys in their
    order and has its values trimmed; cleaning a second time changes
    nothing. *)
Theorem cleanSheetData_csvToObjects (csv : list (list string)) :
  cleanSheetData (csvToObjects csv)
  = map (map_values Str.trim) (csvToObjects csv)
  /\ length (cleanSheetData (csvToObjects csv)) = length (csvToObjects csv)
  /\ map Obj.keys (cleanSheetData (csvToObjects csv))
     = map Obj.keys (csvToObjects csv)
  /\ cleanSheetData (cleanSheetData (csvToObjects csv))
     = cleanSheetData (csvToObjects csv).
Proof.
  pose proof (csvToObjects_well_formed csv) as Hwf.
  pose proof (csvToObjects_has_content csv) as Hall.
  revert Hwf Hall. generalize (csvToObjects csv) as data. intros data Hwf Hall.
  assert (E : cleanSheetData data = map (map_values Str.trim) data).
  { rewrite cleanSheetData_unfold, (filter_all has_content data Hall).
    apply map_ext_in. intros o Ho. apply clean_row_well_formed.
    rewrite List.Forall_forall in Hwf. exact (Hwf o Ho). }
  split; [exact E|]. rewrite E. split; [apply length_map|]. split.
  - rewrite map_map. apply map_ext. intros o. apply keys_map_values.
  - rewrite cleanSheetData_unfold, filter_all.
    + rewrite map_map. apply map_ext_in. intros o Ho.
      rewrite clean_row_well_formed.
      * apply map_values_trim_twice.
      * apply well_formed_map_values.
        rewrite List.Forall_forall in Hwf. exact (Hwf o Ho).
    + intros o Ho. apply in_map_iff in Ho as (o' & <- & Ho').
      rewrite has_content_trim. exact (Hall o' Ho').
Qed.

(** ** getSheetInfo *)

Lemma all_columns_spec (data : list Obj.t) :
  NoDup (all_columns data)
  /\ (forall k, In k (all_columns data)
                <-> exists row, In row data /\ In k (Obj.keys row)).
Proof.
  unfold all_columns.
  assert (H : forall seen : list string,
            NoDup seen ->
            let out := fold_left (fun seen row =>
                                    fold_left add_column (Obj.keys row) seen)
                                 data seen in
            NoDup out
            /\ (forall k, In k out
                          <-> In k seen
                              \/ exists row, In row data /\ In k (Obj.keys row))).
  { induction data as [|row data IH]; intros seen Hnd; cbn [fold_left]; cbv zeta.
    - split; [exact Hnd|]. intros k. split; [auto|].
      intros [H|(row & [] & _)]. exact H.
    - destruct (unique_fold (Obj.keys row) seen) as (U1 & U2 & _).
      cbv zeta in U1, U2.
      destruct (IH (fold_left add_column (Obj.keys row) seen) (U1 Hnd))
        as [I1 I2].
      split; [exact I1|]. intros k. rewrite I2.
      change (fold_left add_column (Obj.keys row) seen)
        with (fold_left (fun seen x => if existsb (String.eqb x) seen then seen
                                       else seen ++ [x]) (Obj.keys row) seen).
      rewrite U2. split.
      + intros [[H|H]|(r & Hr & Hk)].
        * left. exact H.
        * right. exists row. split; [left; reflexivity | exact H].
        * right. exists r. split; [right; exact Hr | exact Hk].
      + intros [H|(r & [<-|Hr] & Hk)].
        * left. left. exact H.
        * left. right. exact Hk.
        * right. exists r. split; assumption. }
  destruct (H [] NoDup_nil_2) as [H1 H2]. split; [exact H1|].
  intros k. rewrite H2. split; [intros [[]|H']; exact H' | auto].
Qed.

Lemma listed_columns_spec (data : list Obj.t) :
  NoDup (listed_columns data)
  /\ (forall k, In k (listed_columns data)
                <-> k <> "_rowId"
                    /\ exists row, In row data /\ In k (Obj.keys row)).
Proof.
  destruct (all_columns_spec data) as [Hnd Hin]. unfold listed_columns. split.
  - apply NoDup_ListNoDup, List.NoDup_filter, NoDup_ListNoDup, Hnd.
  - intros k. rewrite filter_In, Hin. split.
    + intros [H E]. split; [|exact H]. intros ->. discriminate.
    + intros [Hne H]. split; [exact H|].
      destruct (String.eqb_spec k "_rowId"); [contradiction | reflexivity].
Qed.

Lemma filter_values_spec (data : list Obj.t) (column : string) :
  (exists row, In row data /\ lookup row column = Inherited)
  /\ filter_values (map (fun row => lookup row column) data) = Throw TypeError
  \/ (forall row, In row data -> lookup row column <> Inherited)
     /\ filter_values (map (fun row => lookup row column) data)
        = Ok (column_values data column).
Proof.
  induction data as [|row data IH].
  - right. split; [intros row []|reflexivity].
  - cbn [map filter_values column_values flat_map].
    fold (column_values data column).
    destruct (lookup row column) as [v| |] eqn:E.
    + destruct IH as [[(r & Hr & Hi) Ht]|[Hn Hok]].
      * left. split; [exists r; split; [right; exact Hr | exact Hi]|].
        rewrite Ht. destruct (Str.blank v); reflexivity.
      * right. split.
        -- intros r [<-|Hr]; [rewrite E; discriminate | apply Hn, Hr].
        -- rewrite Hok. destruct (Str.blank v); reflexivity.
    + left. split; [|reflexivity]. exists row. split; [left; reflexivity | exact E].
    + destruct IH as [[(r & Hr & Hi) Ht]|[Hn Hok]].
      * left. split; [exists r; split; [right; exact Hr | exact Hi] | exact Ht].
      * right. split; [|exact Hok].
        intros r [<-|Hr]; [rewrite E; discriminate | apply Hn, Hr].
Qed.

Lemma type_column_unfold (data : list Obj.t) (acc : Obj.t) (c : string) :
  type_column data acc c
  = match filter_values (map (fun row => lookup row c) data) with
    | Ok values => Ok (Obj.set c (column_type values) acc)
    | Throw e => Throw e
    end.
Proof. reflexivity. Qed.

(** The loop over the columns: it throws at the first column with an
    inherited cell, and otherwise assigns each column its type. *)
Lemma type_columns_spec (data : list Obj.t) (columns : list string) :
  forall acc : Obj.t,
  (exists column row,
     In column columns /\ In row data /\ lookup row column = Inherited)
  /\ for_of (type_column data) columns acc = Throw TypeError
  \/ (forall column row,
        In column columns -> In row data -> lookup row column <> Inherited)
     /\ for_of (type_column data) columns acc
        = Ok (fold_left (fun acc column =>
                           Obj.set column
                                   (column_type (column_values data column)) acc)
                        columns acc).
Proof.
  induction columns as [|c columns IH]; intros acc.
  - right. split; [intros column row []|reflexivity].
  - cbn [for_of fold_left]. rewrite type_column_unfold.
    destruct (filter_values_spec data c) as [[(r & Hr & Hi) Ht]|[Hn Hok]].
    + left. split; [|rewrite Ht; reflexivity].
      exists c, r. split; [left; reflexivity|]. split; assumption.
    + rewrite Hok. cbn [mbind result_bind].
      destruct (IH (Obj.set c (column_type (column_values data c)) acc))
        as [[(c' & r & Hc' & Hr & Hi) Ht]|[Hn' Hok']].
      * left. split; [|exact Ht]. exists c', r.
        split; [right; exact Hc'|]. split; assumption.
      * right. split; [|exact Hok'].
        intros column row [<-|Hc] Hrow; [apply Hn, Hrow | apply Hn'; assumption].
Qed.

Lemma get_fold_types_other (f : string -> string) (columns : list string) :
  forall (acc : Obj.t) (column : string),
  ~ In column columns ->
  Obj.get (fold_left (fun acc c => Obj.set c (f c) acc) columns acc) column
  = Obj.get acc column.
Proof.
  induction columns as [|c columns IH]; intros acc column Hnot; [reflexivity|].
  cbn [fold_left]. rewrite IH by (intros H; apply Hnot; right; exact H).
  apply get_set_other. intros ->. apply Hnot. left. reflexivity.
Qed.

Lemma get_fold_types (f : string -> string) (columns : list string) :
  forall (acc : Obj.t) (column : string),
  NoDup columns -> In column columns -> column <> "__proto__" ->
  Obj.get (fold_left (fun acc c => Obj.set c (f c) acc) columns acc) column
  = Some (f column).
Proof.
  induction columns as [|c columns IH]; intros acc column Hnd Hin Hp;
    [destruct Hin|].
  apply NoDup_cons in Hnd as [Hc Hnd]. rewrite list_elem_of_In in Hc.
  cbn [fold_left]. destruct Hin as [<-|Hin].
  - rewrite get_fold_types_other by exact Hc. apply get_set_same, Hp.
  - apply IH; assumption.
Qed.

Lemma keys_fold_types (f : string -> string) (columns : list string) :
  forall (acc : Obj.t) (k : string),
  In k (Obj.keys (fold_left (fun acc c => Obj.set c (f c) acc) columns acc)) ->
  In k (Obj.keys acc) \/ In k columns.
Proof.
  induction columns as [|c columns IH]; intros acc k H; [left; exact H|].
  cbn [fold_left] in H. apply IH in H as [H|H]; [|right; right; exact H].
  apply (proj1 (keys_set c (f c) acc)) in H as [H|[-> _]];
    [left; exact H | right; left; reflexivity].
Qed.

Lemma get_None_has (o : Obj.t) (k : string) :
  Obj.get o k = None -> Obj.has k o = false.
Proof.
  unfold Obj.has. induction o as [|[k0 v0] o IH]; [reflexivity|].
  cbn [Obj.get existsb fst]. destruct (String.eqb k k0); [discriminate|].
  exact IH.
Qed.

(** X21.  [getSheetInfo] throws exactly when a record lacks a column that
    another record has and whose name is a member of [Object.prototype]
    ([toString], [constructor] and the like): the cell is then a function,
    which has no [trim]. *)
Theorem getSheetInfo_throws (data : list Obj.t) :
  getSheetInfo data = Throw TypeError
  <-> exists column row,
        In column (listed_columns data) /\ In row data
        /\ Obj.has column row = false
        /\ In column object_prototype_members.
Proof.
  assert (Hlook : forall row column,
            lookup row column = Inherited
            <-> Obj.has column row = false
                /\ In column object_prototype_members).
  { intros row column. unfold lookup. rewrite <- existsb_eqb_In.
    destruct (Obj.get row column) as [v|] eqn:G.
    - split; [discriminate|]. intros [Hhas _]. exfalso.
      apply get_In_keys, has_In_keys in G. congruence.
    - pose proof (get_None_has row column G) as Hhas.
      destruct (existsb (String.eqb column) object_prototype_members);
        split; try discriminate; auto.
      intros [_ H]. discriminate. }
  destruct data as [|row0 data]; [split; [discriminate | intros (c & r & _ & [] & _)]|].
  unfold getSheetInfo. cbv zeta. fold (listed_columns (row0 :: data)).
  destruct (type_columns_spec (row0 :: data) (listed_columns (row0 :: data)) [])
    as [[(c & r & Hc & Hr & Hi) Ht]|[Hn Hok]].
  - rewrite Ht. split; [intros _|reflexivity].
    exists c, r. apply Hlook in Hi. tauto.
  - rewrite Hok. split; [discriminate|].
    intros (c & r & Hc & Hr & Hhas & Hm). exfalso.
    apply (Hn c r Hc Hr). apply Hlook. split; assumption.
Qed.

Lemma getSheetInfo_throws_witness :
  getSheetInfo [[("nota", "9"); ("toString", "a")]; [("nota", "7")]]
  = Throw TypeError.
Proof.
  apply (proj2 (getSheetInfo_throws
                  [[("nota", "9"); ("toString", "a")]; [("nota", "7")]])).
  exists "toString", [("nota", "7")].
  split; [right; left; reflexivity|]. split; [right; left; reflexivity|].
  split; [reflexivity|]. do 8 right. left. reflexivity.
Defined.

(** X22.  When it does not throw (no record lacks a column named like a
    member of [Object.prototype]), [getSheetInfo] counts the records, lists
    each key of any record once, in the order of first occurrence and
    without [_rowId], and gives each listed column the type of its values
    that are not blank. *)
Theorem getSheetInfo_returns (data : list Obj.t) :
  (forall column row,
     In column (listed_columns data) -> In row data ->
     In column object_prototype_members -> Obj.has column row = true) ->
  exists info,
    getSheetInfo data = Ok info
    /\ Info.rowCount info = length data
    /\ Info.columns info = listed_columns data
    /\ Info.columnCount info = length (listed_columns data)
    /\ NoDup (Info.columns info)
    /\ (forall k, In k (Info.columns info)
                  <-> k <> "_rowId"
                      /\ exists row, In row data /\ In k (Obj.keys row))
    /\ (data = [] -> Info.columnTypes info = None)
    /\ (data <> [] ->
        exists types,
          Info.columnTypes info = Some types
          /\ (forall k, In k (Obj.keys types) -> In k (Info.columns info))
          /\ (forall column,
                In column (Info.columns info) -> column <> "__proto__" ->
                Obj.get types column
                = Some (column_type (column_values data column)))).
Proof.
  intros Hown. destruct (listed_columns_spec data) as [Hnd Hin].
  destruct data as [|row0 data].
  - eexists. split; [reflexivity|]. cbn [Info.rowCount Info.columns
      Info.columnCount Info.columnTypes length].
    split; [reflexivity|]. split; [reflexivity|]. split; [reflexivity|].
    split; [exact Hnd|]. split; [exact Hin|]. split; [reflexivity|].
    intros Hne. contradiction.
  - unfold getSheetInfo. cbv zeta. fold (listed_columns (row0 :: data)).
    destruct (type_columns_spec (row0 :: data) (listed_columns (row0 :: data)) [])
      as [[(c & r & Hc & Hr & Hi) Ht]|[Hn Hok]].
    + exfalso. unfold lookup in Hi.
      destruct (Obj.get r c) as [v|] eqn:G; [discriminate|].
      destruct (existsb (String.eqb c) object_prototype_members) eqn:E;
        [|discriminate].
      apply existsb_eqb_In in E. specialize (Hown c r Hc Hr E).
      rewrite (get_None_has r c G) in Hown. discriminate.
    + rewrite Hok. cbn [mbind result_bind]. eexists. split; [reflexivity|].
      cbn [Info.rowCount Info.columns Info.columnCount Info.columnTypes].
      split; [reflexivity|]. split; [reflexivity|]. split; [reflexivity|].
      split; [exact Hnd|]. split; [exact Hin|]. split; [discriminate|].
      intros _. eexists. split; [reflexivity|]. split.
      * intros k Hk.
        apply (keys_fold_types
                 (fun c => column_type (column_values (row0 :: data) c))) in Hk
          as [[]|Hk]. exact Hk.
      * intros column Hc Hp.
        exact (get_fold_types
                 (fun c => column_type (column_values (row0 :: data) c))
                 _ [] column Hnd Hc Hp).
Qed.

Lemma getSheetInfo_returns_witness :
  exists info,
    getSheetInfo [[("nota", "9"); ("toString", "a")]; [("toString", ""); ("b", "x")]]
    = Ok info
    /\ Info.columns info = ["nota"; "toString"; "b"].
Proof.
  destruct (getSheetInfo_returns
              [[("nota", "9"); ("toString", "a")]; [("toString", ""); ("b", "x")]])
    as (info & H & _ & Hc & _).
  - intros column row Hc [<-|[<-|[]]] Hm; vm_compute in Hc;
      destruct Hc as [<-|[<-|[<-|[]]]]; try reflexivity;
      vm_compute in Hm; repeat (destruct Hm as [Hm|Hm]; [discriminate|]);
      destruct Hm.
  - exists info. split; [exact H | exact Hc].
Defined.
(** ** The sheet information of a table *)

Lemma keys_insert_index_congr (i : Z) (k v v' : string) (o : Obj.t) :
  forall o' : Obj.t,
  Obj.keys o = Obj.keys o' ->
  Obj.keys (Obj.insert_index i k v o) = Obj.keys (Obj.insert_index i k v' o').
Proof.
  unfold Obj.keys. induction o as [|[k0 v0] o IH]; intros [|[k0' v0'] o'] H;
    try discriminate; [reflexivity|].
  cbn [map fst] in H. injection H as <- H. cbn [Obj.insert_index].
  destruct (Obj.array_index k0) as [j|]; [destruct (j <? i)%Z|]; cbn [map fst].
  - rewrite (IH o' H). reflexivity.
  - rewrite H. reflexivity.
  - rewrite H. reflexivity.
Qed.

(** Where an assignment puts a key depends on the keys alone. *)
Lemma keys_set_congr (k v v' : string) (o o' : Obj.t) :
  Obj.keys o = Obj.keys o' ->
  Obj.keys (Obj.set k v o) = Obj.keys (Obj.set k v' o').
Proof.
  intros H. unfold Obj.set. rewrite !has_keys, <- H.
  destruct (existsb (String.eqb k) (Obj.keys o)).
  - rewrite !keys_replace. exact H.
  - destruct (String.eqb k "__proto__"); [exact H|].
    destruct (Obj.array_index k) as [i|].
    + apply keys_insert_index_congr, H.
    + unfold Obj.keys in *. rewrite !map_app, H. reflexivity.
Qed.

Lemma record_of_keys_congr (headers row row' : list string) (i i' : nat) :
  Obj.keys (record_of headers row i) = Obj.keys (record_of headers row' i').
Proof.
  unfold record_of. apply keys_set_congr.
  generalize (combine (seq 0 (length (normalized_headers headers)))
                      (normalized_headers headers)).
  intros es.
  assert (H : Obj.keys (@nil (string * string)) = Obj.keys (@nil (string * string)))
    by reflexivity.
  revert H. generalize (@nil (string * string)) at 1 3.
  generalize (@nil (string * string)).
  induction es as [|[idx h] es IH]; intros o o' H; [exact H|].
  cbn [fold_left]. apply IH, keys_set_congr, H.
Qed.

Lemma add_columns_new (ks : list string) :
  forall seen : list string,
  NoDup (seen ++ ks) -> fold_left add_column ks seen = seen ++ ks.
Proof.
  induction ks as [|k ks IH]; intros seen Hnd; [rewrite app_nil_r; reflexivity|].
  cbn [fold_left]. unfold add_column at 2.
  destruct (existsb (String.eqb k) seen) eqn:E.
  - exfalso. apply existsb_eqb_In in E.
    apply NoDup_app in Hnd as (_ & Hd & _).
    apply (Hd k); apply list_elem_of_In; [exact E | left; reflexivity].
  - rewrite IH; rewrite <- app_assoc; [reflexivity | exact Hnd].
Qed.

Lemma add_columns_seen (ks : list string) :
  forall seen : list string,
  (forall k, In k ks -> In k seen) -> fold_left add_column ks seen = seen.
Proof.
  induction ks as [|k ks IH]; intros seen H; [reflexivity|].
  cbn [fold_left]. unfold add_column at 2.
  rewrite (proj2 (existsb_eqb_In k seen)) by (apply H; left; reflexivity).
  apply IH. intros k' Hk'. apply H. right. exact Hk'.
Qed.

(** The columns of records that all have the same keys are those keys. *)
Lemma all_columns_same_keys (ks : list string) (row : Obj.t) (data : list Obj.t) :
  NoDup ks ->
  (forall r, In r (row :: data) -> Obj.keys r = ks) ->
  all_columns (row :: data) = ks.
Proof.
  intros Hnd H. unfold all_columns. cbn [fold_left].
  rewrite (H row) by (left; reflexivity).
  rewrite (add_columns_new ks [] Hnd). cbn [app].
  assert (Hd : forall r, In r data -> Obj.keys r = ks)
    by (intros r Hr; apply H; right; exact Hr).
  clear H. induction data as [|r data IH]; [reflexivity|].
  cbn [fold_left]. rewrite (Hd r) by (left; reflexivity).
  rewrite add_columns_seen by auto.
  apply IH. intros r' Hr'. apply Hd. right. exact Hr'.
Qed.

Lemma cleaned_table_values (csv : list (list string)) :
  cleanSheetData (csvToObjects csv)
  = map (map_values Str.trim) (csvToObjects csv).
Proof.
  rewrite cleanSheetData_unfold,
    (filter_all has_content _ (csvToObjects_has_content csv)).
  apply map_ext_in. intros o Ho. apply clean_row_well_formed.
  pose proof (csvToObjects_well_formed csv) as Hwf.
  rewrite List.Forall_forall in Hwf. exact (Hwf o Ho).
Qed.

Lemma column_type_cases (values : list string) :
  In (column_type values) ["empty"; "number"; "date"; "text"].
Proof.
  unfold column_type.
  destruct (length values =? 0)%nat; [left; reflexivity|].
  destruct (forallb is_number_text values); [right; left; reflexivity|].
  destruct (forallb is_date_text values);
    [right; right; left; reflexivity | right; right; right; left; reflexivity].
Qed.

(** X23.  The sheet information of a table that went through [csvToObjects]
    and [cleanSheetData] is always computed.  It counts the data rows; its
    columns are the normalized headers, each once and in the order of the
    keys of a record, without [_rowId] (and without [__proto__], which
    names no property); every column has one of the four types. *)
Theorem getSheetInfo_of_table (headers : list string) (rows : list (list string)) :
  forallb Str.blank headers = false ->
  rows <> [] ->
  exists info types,
    getSheetInfo (cleanSheetData (csvToObjects (headers :: rows))) = Ok info
    /\ Info.rowCount info = length rows
    /\ Info.columnCount info = length (Info.columns info)
    /\ Info.columns info
       = List.filter (fun key => negb (String.eqb key "_rowId"))
                     (Obj.keys (record_of headers [] 0))
    /\ NoDup (Info.columns info)
    /\ (forall k, In k (Info.columns info)
                  <-> In k (normalized_headers headers)
                      /\ k <> "__proto__" /\ k <> "_rowId")
    /\ Info.columnTypes info = Some types
    /\ (forall column,
          In column (Info.columns info) ->
          exists type,
            Obj.get types column = Some type
            /\ In type ["empty"; "number"; "date"; "text"]).
Proof.
  intros Hh Hrows.
  rewrite cleaned_table_values, (csvToObjects_unfold headers rows Hh).
  set (ks := Obj.keys (record_of headers [] 0)).
  remember (map (map_values Str.trim) (map_indexed (record_of headers) rows))
    as data eqn:Hdata.
  assert (Hkeys : forall r, In r data -> Obj.keys r = ks).
  { intros r Hr. rewrite Hdata in Hr. apply in_map_iff in Hr as (r0 & <- & Hr0).
    apply map_indexed_In in Hr0 as (row & i & _ & ->).
    rewrite keys_map_values. apply record_of_keys_congr. }
  destruct (record_of_keys headers [] 0) as [Kin Knd]. fold ks in Kin, Knd.
  assert (Hlen : length data = length rows).
  { rewrite Hdata, length_map. apply map_indexed_length. }
  clear Hdata. destruct data as [|row0 data].
  { exfalso. destruct rows; [contradiction | discriminate Hlen]. }
  assert (Hall : all_columns (row0 :: data) = ks)
    by (apply all_columns_same_keys; assumption).
  assert (Hlisted : listed_columns (row0 :: data)
                    = List.filter (fun key => negb (String.eqb key "_rowId")) ks)
    by (unfold listed_columns; rewrite Hall; reflexivity).
  assert (Hin : forall k, In k (listed_columns (row0 :: data))
                          <-> In k (normalized_headers headers)
                              /\ k <> "__proto__" /\ k <> "_rowId").
  { intros k. rewrite Hlisted, filter_In, Kin. split.
    - intros [[[H1 H2]|H] E]; [|subst k; discriminate].
      split; [exact H1|]. split; [exact H2|]. intros ->. discriminate.
    - intros (H1 & H2 & H3). split; [left; split; assumption|].
      destruct (String.eqb_spec k "_rowId"); [contradiction | reflexivity]. }
  assert (Hnd : NoDup (listed_columns (row0 :: data))).
  { rewrite Hlisted. apply NoDup_ListNoDup, List.NoDup_filter, NoDup_ListNoDup, Knd. }
  unfold getSheetInfo. cbv zeta. fold (listed_columns (row0 :: data)).
  destruct (type_columns_spec (row0 :: data) (listed_columns (row0 :: data)) [])
    as [[(c & r & Hc & Hr & Hi) Ht]|[Hn Hok]].
  - exfalso. unfold lookup in Hi.
    destruct (Obj.get r c) as [v|] eqn:G; [discriminate|].
    apply get_None_has in G.
    assert (Hk : In c (Obj.keys r)).
    { rewrite (Hkeys r Hr). rewrite Hlisted in Hc.
      apply filter_In in Hc as [Hc _]. exact Hc. }
    apply has_In_keys in Hk. congruence.
  - rewrite Hok. cbn [mbind result_bind]. eexists. eexists.
    split; [reflexivity|].
    cbn [Info.rowCount Info.columns Info.columnCount Info.columnTypes].
    split; [exact Hlen|]. split; [reflexivity|]. split; [exact Hlisted|].
    split; [exact Hnd|]. split; [exact Hin|]. split; [reflexivity|].
    intros column Hc. eexists. split.
    + apply (get_fold_types
               (fun c => column_type (column_values (row0 :: data) c))
               _ [] column Hnd Hc).
      apply Hin in Hc. apply Hc.
    + apply column_type_cases.
Qed.

Lemma getSheetInfo_of_table_witness :
  exists info types,
    getSheetInfo (cleanSheetData (csvToObjects
                    [["nota"; ""; "quando"]; ["9"; "x"; "2024-01-05"]; ["10"]]))
    = Ok info
    /\ Info.rowCount info = 2%nat
    /\ Info.columns info = ["nota"; "coluna_2"; "quando"]
    /\ Info.columnTypes info = Some types.
Proof.
  destruct (getSheetInfo_of_table ["nota"; ""; "quando"]
              [["9"; "x"; "2024-01-05"]; ["10"]] eq_refl)
    as (info & types & H & Hr & _ & Hc & _ & _ & Ht & _); [discriminate|].
  exists info, types. split; [exact H|]. split; [exact Hr|].
  split; [rewrite Hc; reflexivity | exact Ht].
Defined.
(** ** The types of the columns *)

Lemma digit_solid (c : ascii) : Str.is_digit c = true -> solid c.
Proof.
  unfold Str.is_digit, solid, Str.is_ws1. cbv zeta. intros H.
  apply andb_true_iff in H as [H1 H2]. apply N.leb_le in H1, H2.
  split; [lia|].
  apply orb_false_iff. split.
  - apply andb_false_iff. right. apply N.leb_gt. lia.
  - apply N.eqb_neq. lia.
Qed.

(** A text between two solid bytes has nothing to trim. *)
Lemma trim_fixed_ends (s : string) (c d : ascii) (r r' : list ascii) :
  Str.to_list s = c :: r -> rev (Str.to_list s) = d :: r' ->
  solid c -> solid d -> Str.trim s = s.
Proof.
  intros Hl Hr Hc Hd. unfold Str.trim, Str.trimEnd, Str.trimStart.
  assert (Hhead : head_ok (Str.to_list s)).
  { rewrite Hl. destruct (solid_not_ws c Hc) as (H1 & H2 & H3).
    destruct r as [|c2 [|c3 r3]]; cbn [head_ok].
    - split; [exact H1 | exact I].
    - split; [exact H1|]. split; [apply H2 | exact I].
    - split; [exact H1|]. split; [apply H2 | apply H3]. }
  assert (Hend : end_ok (rev (Str.to_list s))).
  { rewrite Hr. destruct (solid_not_ws d Hd) as (H1 & H2 & H3).
    destruct r' as [|c2 [|c3 r3]]; cbn [end_ok].
    - split; [exact H1 | exact I].
    - split; [exact H1|]. split; [apply H2 | exact I].
    - split; [exact H1|]. split; [apply H2 | apply H3]. }
  rewrite (head_ok_fixed _ Hhead), of_list_to_list, (end_ok_fixed _ Hend).
  rewrite rev_involutive. apply of_list_to_list.
Qed.

Lemma rev_digits_end (a b : list ascii) :
  b <> [] -> forallb Str.is_digit b = true ->
  exists d r, rev (a ++ b) = d :: r /\ Str.is_digit d = true.
Proof.
  intros Hne Hb. rewrite rev_app_distr.
  destruct (rev b) as [|d r] eqn:E.
  - exfalso. apply Hne. rewrite <- (rev_involutive b), E. reflexivity.
  - exists d, (r ++ rev a). split; [reflexivity|].
    rewrite forallb_forall in Hb. apply Hb. apply in_rev. rewrite E.
    left. reflexivity.
Qed.

Lemma span_digits_list (s : string) :
  Str.to_list s
  = fst (Str.span_digits s) ++ Str.to_list (snd (Str.span_digits s)).
Proof.
  destruct (span_digits_spec s) as [_ H]. rewrite H at 1.
  rewrite to_list_app, to_list_of_list. reflexivity.
Qed.

Lemma between_nonempty {A : Type} (hi : nat) (l : list A) :
  between 1 hi (length l) = true -> l <> [].
Proof. intros H ->. discriminate H. Qed.

(** The shape of a text that the date pattern matches. *)
Lemma is_date_text_shape (value : string) :
  is_date_text value = true ->
  exists c d1 s1 rest a b,
    Str.span_digits value = (c :: d1, String s1 rest)
    /\ Str.is_digit c = true
    /\ is_date_separator s1 = true
    /\ Str.to_list value = a ++ b
    /\ b <> [] /\ forallb Str.is_digit b = true.
Proof.
  unfold is_date_text. intros H.
  pose proof (span_digits_spec value) as [D1 _].
  pose proof (span_digits_list value) as L1.
  destruct (Str.span_digits value) as [d1 r1]. cbn [fst snd] in D1, L1.
  destruct r1 as [|s1 r1']; [discriminate|].
  apply andb_true_iff in H as [H H2]. apply andb_true_iff in H as [B1 S1].
  pose proof (span_digits_spec r1') as [D2 _].
  pose proof (span_digits_list r1') as L2.
  destruct (Str.span_digits r1') as [d2 r2]. cbn [fst snd] in D2, L2.
  destruct r2 as [|s2 r2']; [discriminate|].
  apply andb_true_iff in H2 as [_ H3].
  pose proof (span_digits_spec r2') as [D3 _].
  pose proof (span_digits_list r2') as L3.
  destruct (Str.span_digits r2') as [d3 r3]. cbn [fst snd] in D3, L3.
  apply andb_true_iff in H3 as [B3 E3].
  destruct r3; [|discriminate]. cbn [Str.to_list list_ascii_of_string] in L3.
  rewrite app_nil_r in L3.
  destruct d1 as [|c d1]; [discriminate|].
  cbn [forallb] in D1. apply andb_true_iff in D1 as [Dc _].
  exists c, d1, s1, r1', ((c :: d1) ++ s1 :: d2 ++ [s2]), d3.
  split; [reflexivity|]. split; [exact Dc|]. split; [exact S1|]. split.
  - rewrite L1. cbn [Str.to_list list_ascii_of_string].
    change (list_ascii_of_string r1') with (Str.to_list r1'). rewrite L2.
    cbn [Str.to_list list_ascii_of_string].
    change (list_ascii_of_string r2') with (Str.to_list r2'). rewrite L3.
    rewrite <- !app_assoc. cbn [app]. rewrite <- app_assoc. reflexivity.
  - split; [exact (between_nonempty 4 d3 B3) | exact D3].
Qed.

Lemma span_digits_all (l : list ascii) :
  forallb Str.is_digit l = true -> Str.span_digits (Str.of_list l) = (l, EmptyString).
Proof.
  induction l as [|c l IH]; intros H; [reflexivity|].
  cbn [forallb] in H. apply andb_true_iff in H as [Hc H].
  cbn [Str.of_list string_of_list_ascii Str.span_digits]. rewrite Hc.
  change (string_of_list_ascii l) with (Str.of_list l). rewrite (IH H).
  reflexivity.
Qed.

Lemma is_number_digits (l : list ascii) :
  l <> [] -> forallb Str.is_digit l = true ->
  is_number_text (Str.of_list l) = true.
Proof.
  intros Hne Hl. destruct l as [|c r]; [contradiction|].
  destruct (rev_digits_end [] (c :: r)) as (d & r' & Hrev & Hd);
    [discriminate | exact Hl |].
  cbn [app] in Hrev.
  pose proof Hl as Hl'. cbn [forallb] in Hl'.
  apply andb_true_iff in Hl' as [Hc _].
  assert (Htrim : Str.trim (Str.of_list (c :: r)) = Str.of_list (c :: r)).
  { apply (trim_fixed_ends _ c d r r'); rewrite ?to_list_of_list;
      [reflexivity | exact Hrev | exact (digit_solid c Hc)
       | exact (digit_solid d Hd)]. }
  unfold is_number_text. rewrite Htrim. cbv zeta.
  assert (Hsign : strip_sign (Str.of_list (c :: r)) = Str.of_list (c :: r)).
  { cbn [Str.of_list string_of_list_ascii strip_sign].
    destruct (Ascii.eqb_spec c "+") as [->|_]; [discriminate Hc|].
    destruct (Ascii.eqb_spec c "-") as [->|_]; [discriminate Hc|].
    reflexivity. }
  rewrite Hsign. unfold unsigned_decimal_literal.
  rewrite (span_digits_all (c :: r) Hl).
  cbn [nonempty]. rewrite orb_true_r, orb_true_r. reflexivity.
Qed.

(** X24.  The number test and the date test of [getSheetInfo] never both
    hold of a text, so a column of dates is typed [date] although the number
    test comes first; and a column whose values are written in decimal
    digits, as grades are, is typed [number]. *)
Theorem column_type_texts :
  (forall value, is_date_text value = true -> is_number_text value = false)
  /\ (forall values, values <> [] -> forallb is_date_text values = true ->
      column_type values = "date")
  /\ (forall values, values <> [] ->
      List.Forall (fun value => value <> EmptyString
                                /\ forallb Str.is_digit (Str.to_list value) = true)
                  values ->
      column_type values = "number").
Proof.
  assert (Hdate : forall value,
            is_date_text value = true -> is_number_text value = false).
  { intros value H.
    destruct (is_date_text_shape value H)
      as (c & d1 & s1 & rest & a & b & Hspan & Hc & Hs & Hl & Hb & Hdb).
    pose proof (span_digits_list value) as L. rewrite Hspan in L.
    cbn [fst snd app] in L.
    destruct (rev_digits_end a b Hb Hdb) as (d & r & Hrev & Hd).
    rewrite <- Hl in Hrev.
    assert (Htrim : Str.trim value = value)
      by (exact (trim_fixed_ends value c d _ r L Hrev
                   (digit_solid c Hc) (digit_solid d Hd))).
    destruct value as [|c0 value']; [discriminate L|].
    cbn [Str.to_list list_ascii_of_string] in L. injection L as -> L.
    unfold is_number_text. rewrite Htrim. cbv zeta.
    assert (Hsign : strip_sign (String c value') = String c value').
    { unfold strip_sign.
      destruct (Ascii.eqb_spec c "+") as [->|_]; [discriminate Hc|].
      destruct (Ascii.eqb_spec c "-") as [->|_]; [discriminate Hc|].
      reflexivity. }
    rewrite Hsign. cbn [Str.is_empty orb].
    apply orb_false_iff. split.
    - unfold unsigned_decimal_literal. rewrite Hspan.
      apply orb_false_iff. split.
      + apply String.eqb_neq. intros E. injection E as -> _. discriminate Hc.
      + unfold is_date_separator in Hs.
        destruct (Ascii.eqb_spec s1 ".") as [->|_]; [discriminate Hs|].
        cbn [nonempty andb exponent_part_opt].
        destruct (Ascii.eqb_spec s1 "e") as [->|_]; [discriminate Hs|].
        destruct (Ascii.eqb_spec s1 "E") as [->|_]; [discriminate Hs|].
        reflexivity.
    - unfold non_decimal_literal. destruct value' as [|p r0]; [reflexivity|].
      assert (Hp : Str.is_digit p = true \/ is_date_separator p = true).
      { cbn [Str.span_digits] in Hspan. rewrite Hc in Hspan.
        destruct (Str.is_digit p) eqn:Ep; [left; reflexivity|].
        right. replace p with s1 by congruence. exact Hs. }
      destruct (Ascii.eqb c "0"); [|reflexivity]. cbn [andb].
      assert (Hnot : forall x : ascii,
                (Str.is_digit x = false) -> (is_date_separator x = false) ->
                Ascii.eqb p x = false).
      { intros x Hx1 Hx2. destruct (Ascii.eqb_spec p x) as [->|_]; [|reflexivity].
        destruct Hp; congruence. }
      rewrite (Hnot "b"%char), (Hnot "B"%char), (Hnot "o"%char), (Hnot "O"%char),
        (Hnot "x"%char), (Hnot "X"%char) by reflexivity.
      reflexivity. }
  split; [exact Hdate|]. split.
  - intros values Hne Hall. unfold column_type.
    destruct values as [|v values]; [contradiction|]. cbn [length Nat.eqb].
    rewrite Hall. cbn [forallb] in Hall |- *.
    apply andb_true_iff in Hall as [Hv _]. rewrite (Hdate v Hv). reflexivity.
  - intros values Hne Hall. unfold column_type.
    destruct values as [|v0 values0]; [contradiction|]. cbn [length Nat.eqb].
    replace (forallb is_number_text (v0 :: values0)) with true; [reflexivity|].
    symmetry. apply forallb_forall. intros v Hv.
    rewrite List.Forall_forall in Hall. destruct (Hall v Hv) as [Hv1 Hv2].
    rewrite <- (of_list_to_list v). apply is_number_digits; [|exact Hv2].
    intros E. apply Hv1. rewrite <- (of_list_to_list v), E. reflexivity.
Qed.

Lemma column_type_texts_witness :
  column_type ["2024-01-05"; "5/1/24"] = "date"
  /\ column_type ["9"; "10"; "0"] = "number".
Proof.
  destruct column_type_texts as (_ & Hdate & Hnum). split.
  - apply Hdate; [discriminate | reflexivity].
  - apply Hnum; [discriminate|].
    repeat constructor; discriminate.
Defined.

(** ** calculateNPS: the table of categories *)

Lemma initial_categoriaPorNota_lookup (k : Z) :
  initial_categoriaPorNota !! k
  = if ((0 <=? k) && (k <=? 10))%Z
    then Some (if (k <=? 6)%Z then DETRATOR
               else if (k <=? 8)%Z then NEUTRO else PROMOTOR)
    else None.
Proof.
  destruct (decide (0 <= k <= 10)%Z) as [Hk|Hk].
  - assert (k = 0 \/ k = 1 \/ k = 2 \/ k = 3 \/ k = 4 \/ k = 5 \/ k = 6 \/ k = 7
            \/ k = 8 \/ k = 9 \/ k = 10)%Z as Hcases by lia.
    repeat (destruct Hcases as [->|Hcases]; [vm_compute; reflexivity|]).
    subst k. vm_compute. reflexivity.
  - replace ((0 <=? k) && (k <=? 10))%Z with false
      by (symmetry; apply andb_false_iff; rewrite Z.leb_gt, Z.leb_gt; lia).
    change initial_categoriaPorNota
      with (<[10%Z := getNPSCategory (Num.of_Z 10)]>
            (<[9%Z := getNPSCategory (Num.of_Z 9)]>
            (<[8%Z := getNPSCategory (Num.of_Z 8)]>
            (<[7%Z := getNPSCategory (Num.of_Z 7)]>
            (<[6%Z := getNPSCategory (Num.of_Z 6)]>
            (<[5%Z := getNPSCategory (Num.of_Z 5)]>
            (<[4%Z := getNPSCategory (Num.of_Z 4)]>
            (<[3%Z := getNPSCategory (Num.of_Z 3)]>
            (<[2%Z := getNPSCategory (Num.of_Z 2)]>
            (<[1%Z := getNPSCategory (Num.of_Z 1)]>
            (<[0%Z := getNPSCategory (Num.of_Z 0)]>
               (∅ : gmap Z NPSCategory)))))))))))).
    rewrite !lookup_insert_ne by lia. apply lookup_empty.
Qed.

(** X25.  The table [categoriaPorNota] of a summary.  With at least one
    valid answer it gives each grade from 0 to 10 its category (0 to 6
    detractor, 7 and 8 neutral, 9 and 10 promoter) and has no other key;
    with none it is empty, like the histogram, so a chart that looks up the
    category of each bar finds none. *)
Theorem calculateNPS_category_table (data : list Obj.t)
  (given : option (list string)) (r : NPSData) :
  calculateNPS data given = Ok r ->
  (totalRespostas r = 0%nat -> categoriaPorNota r = ∅)
  /\ (0 < totalRespostas r ->
      forall k : Z,
        categoriaPorNota r !! k
        = if ((0 <=? k) && (k <=? 10))%Z
          then Some (if (k <=? 6)%Z then DETRATOR
                     else if (k <=? 8)%Z then NEUTRO else PROMOTOR)
          else None)
  /\ (forall k : Z, is_Some (categoriaPorNota r !! k)
                    -> (0 <= k <= 10)%Z /\ 0 < totalRespostas r).
Proof.
  intros H.
  assert (Hr : (totalRespostas r = 0%nat /\ categoriaPorNota r = ∅)
               \/ (0 < totalRespostas r
                   /\ categoriaPorNota r = initial_categoriaPorNota)).
  { apply calculateNPS_cases in H as [[analyzed ->]|(cols & st & _ & H)].
    - left. split; reflexivity.
    - unfold summarize in H. apply bind_Ok in H as (t & _ & H).
      destruct (Nat.eqb_spec (t_totalRespostas t) 0) as [E|E].
      + injection H as <-. left. split; reflexivity.
      + injection H as <-. right. cbn [totalRespostas categoriaPorNota].
        split; [lia | reflexivity]. }
  destruct Hr as [[H0 He]|[Hpos He]].
  - split; [intros _; exact He|]. split; [intros Hc; lia|].
    intros k Hk. rewrite He, lookup_empty in Hk. destruct Hk; discriminate.
  - split; [intros Hc; lia|]. split.
    + intros _ k. rewrite He. apply initial_categoriaPorNota_lookup.
    + intros k Hk. rewrite He, initial_categoriaPorNota_lookup in Hk.
      split; [|exact Hpos].
      destruct (Z.leb_spec 0 k); destruct (Z.leb_spec k 10);
        cbn [andb] in Hk; try lia; destruct Hk; discriminate.
Qed.

Lemma calculateNPS_category_table_witness :
  exists r,
    calculateNPS Examples.four_answers None = Ok r
    /\ categoriaPorNota r !! 7%Z = Some NEUTRO.
Proof.
  destruct (calculateNPS Examples.four_answers None) as [r|e] eqn:E;
    [|vm_compute in E; discriminate].
  exists r. split; [reflexivity|].
  destruct (calculateNPS_category_table Examples.four_answers None r E)
    as (_ & H & _).
  apply H. vm_compute in E. injection E as <-. cbn. lia.
Defined.

(** ** When calculateNPS throws *)

Section ForOfOutcome.

Context {A St : Type} (body : St -> A -> result St) (bad : A -> bool).
Hypothesis body_throws : forall s x, bad x = true -> body s x = Throw TypeError.
Hypothesis body_returns : forall s x, bad x = false -> exists s', body s x = Ok s'.

(** A loop whose body throws on the bad elements and on no other. *)
Lemma for_of_outcome (l : list A) :
  forall s,
  if existsb bad l then for_of body l s = Throw TypeError
  else exists s', for_of body l s = Ok s'.
Proof.
  induction l as [|x l IH]; intros s; cbn [existsb for_of]; [eauto|].
  destruct (bad x) eqn:E; cbn [orb].
  - rewrite (body_throws s x E). reflexivity.
  - destruct (body_returns s x E) as [s' ->]. cbn [mbind result_bind]. apply IH.
Qed.

End ForOfOutcome.

Lemma existsb_and_const {A : Type} (f : A -> bool) (b : bool) (l : list A) :
  existsb (fun x => f x && b) l = existsb f l && b.
Proof.
  induction l as [|x l IH]; [reflexivity|].
  cbn [existsb]. rewrite IH. destruct (f x), b, (existsb f l); reflexivity.
Qed.

Lemma existsb_const {A : Type} (b : bool) (l : list A) :
  existsb (fun _ => b) l = nonempty l && b.
Proof.
  destruct l as [|x l]; [reflexivity|]. cbn [existsb nonempty andb].
  destruct b; [reflexivity|]. induction l as [|y l IH]; [reflexivity | exact IH].
Qed.

Lemma existsb_const_and {A : Type} (f : A -> bool) (b : bool) (l : list A) :
  existsb (fun x => b && f x) l = b && existsb f l.
Proof.
  destruct b; cbn [andb]; [reflexivity|].
  induction l as [|x l IH]; [reflexivity | exact IH].
Qed.

Lemma analyzeColumnValues_outcome (data : list Obj.t) (column : string) :
  if shadowed data then analyzeColumnValues data column = Throw TypeError
  else exists st, analyzeColumnValues data column = Ok st.
Proof.
  unfold shadowed, analyzeColumnValues.
  pose proof (for_of_outcome (scan_column column) (Obj.has "hasOwnProperty")) as H.
  specialize (H
    ltac:(intros [[vc sum] values] row Hrow; unfold scan_column, Obj.hasOwnProperty;
          rewrite Hrow; reflexivity)
    ltac:(intros [[vc sum] values] row Hrow; unfold scan_column, Obj.hasOwnProperty;
          rewrite Hrow; cbn [mbind result_bind];
          destruct (Obj.has column row); [|eauto];
          destruct (valid _); [destruct (value _)|]; eauto)
    data (0%nat, Fin 0, @nil Q)).
  destruct (existsb (Obj.has "hasOwnProperty") data).
  - rewrite H. reflexivity.
  - destruct H as [[[vc sum] values] ->]. cbn [mbind result_bind].
    destruct (fold_left scan_ranges values (false, false, false)) as [[lo mid] hi].
    eauto.
Qed.

Lemma identify_loop_untouched (data : list Obj.t) (keys : list string) :
  existsb (fun key => negb (String.eqb key "_rowId")) keys = false ->
  forall acc, for_of (identify_step data) keys acc = Ok acc.
Proof.
  induction keys as [|k keys IH]; intros H acc; [reflexivity|].
  cbn [existsb] in H. apply orb_false_iff in H as [Hk H].
  apply negb_false_iff in Hk. cbn [for_of].
  assert (E : identify_step data acc k = Ok acc).
  { destruct acc as [identified analyzed]. unfold identify_step.
    rewrite Hk. reflexivity. }
  rewrite E. cbn [mbind result_bind]. apply IH, H.
Qed.

Lemma identifyNPSColumns_outcome (data : list Obj.t) :
  if has_column data && shadowed data
  then identifyNPSColumns data = Throw TypeError
  else exists ident,
         identifyNPSColumns data = Ok ident
         /\ (has_column data = false -> columns ident = []).
Proof.
  destruct data as [|firstRow rest]; [cbn; eauto|].
  unfold identifyNPSColumns. cbv zeta.
  destruct (has_column (firstRow :: rest)) eqn:Hc; cbn [andb].
  - pose proof (for_of_outcome (identify_step (firstRow :: rest))
                  (fun key => negb (String.eqb key "_rowId")
                              && shadowed (firstRow :: rest))) as H.
    specialize (H
      ltac:(intros [identified analyzed] key Hkey;
            apply andb_true_iff in Hkey as [Hk Hs];
            apply negb_true_iff in Hk; unfold identify_step; rewrite Hk;
            pose proof (analyzeColumnValues_outcome (firstRow :: rest) key) as Ha;
            rewrite Hs in Ha; rewrite Ha; reflexivity)
      ltac:(intros [identified analyzed] key Hkey; unfold identify_step;
            destruct (String.eqb key "_rowId"); [eauto|];
            cbn [negb andb] in Hkey;
            pose proof (analyzeColumnValues_outcome (firstRow :: rest) key) as Ha;
            rewrite Hkey in Ha; destruct Ha as [st ->]; cbn [mbind result_bind];
            repeat match goal with
                   | |- context [if ?b then _ else _] => destruct b
                   end; eauto)
      (Obj.keys firstRow) (@nil string, @nil string)).
    rewrite existsb_and_const in H. unfold has_column in Hc. rewrite Hc in H.
    cbn [andb] in H. destruct (shadowed (firstRow :: rest)).
    + rewrite H. reflexivity.
    + destruct H as [[identified analyzed] ->]. cbn [mbind result_bind].
      eexists. split; [reflexivity | discriminate].
  - rewrite (identify_loop_untouched (firstRow :: rest) (Obj.keys firstRow) Hc).
    cbn [mbind result_bind]. eexists. split; reflexivity.
Qed.

Lemma score_row_outcome (cols : list string) (t : Tally) (row : Obj.t) :
  if nonempty cols && Obj.has "hasOwnProperty" row
  then score_row cols t row = Throw TypeError
  else exists t', score_row cols t row = Ok t'.
Proof.
  unfold score_row.
  pose proof (for_of_outcome (score_cell row)
                (fun _ : string => Obj.has "hasOwnProperty" row)) as H.
  specialize (H
    ltac:(intros t0 c Hrow; unfold score_cell, Obj.hasOwnProperty;
          rewrite Hrow; reflexivity)
    ltac:(intros t0 c Hrow; unfold score_cell, Obj.hasOwnProperty;
          rewrite Hrow; cbn [mbind result_bind];
          destruct (Obj.has c row); [|eauto];
          destruct (valid _); [destruct (value _)|]; eauto;
          destruct (Obj.get row c) as [raw|]; eauto;
          destruct (negb (Str.blank raw)); eauto)
    cols t).
  rewrite existsb_const in H. exact H.
Qed.

Lemma summarize_outcome (data : list Obj.t) (cols : list string)
  (st : ColumnIdentificationStats) :
  if nonempty cols && shadowed data
  then summarize data cols st = Throw TypeError
  else exists r, summarize data cols st = Ok r.
Proof.
  unfold summarize, shadowed.
  pose proof (for_of_outcome (score_row cols)
                (fun row => nonempty cols && Obj.has "hasOwnProperty" row)) as H.
  specialize (H
    ltac:(intros t row Hrow; pose proof (score_row_outcome cols t row) as Hr;
          rewrite Hrow in Hr; exact Hr)
    ltac:(intros t row Hrow; pose proof (score_row_outcome cols t row) as Hr;
          rewrite Hrow in Hr; exact Hr)
    data initial_tally).
  rewrite existsb_const_and in H.
  destruct (nonempty cols && existsb (Obj.has "hasOwnProperty") data).
  - rewrite H. reflexivity.
  - destruct H as [t ->]. cbn [mbind result_bind].
    destruct (t_totalRespostas t =? 0)%nat; eauto.
Qed.

Lemma calculateNPS_outcome (data : list Obj.t) (given : option (list string)) :
  if shadowed data
     && match given with Some (_ :: _) => true | _ => has_column data end
  then calculateNPS data given = Throw TypeError
  else exists r, calculateNPS data given = Ok r.
Proof.
  destruct data as [|firstRow rest]; [cbn; eauto|].
  assert (Hauto :
    if shadowed (firstRow :: rest) && has_column (firstRow :: rest)
    then (r ← identifyNPSColumns (firstRow :: rest);
          match columns r with
          | [] => Ok (emptyNPSData [] (analyzedColumns (stats r)) [])
          | _ :: _ => summarize (firstRow :: rest) (columns r) (stats r)
          end) = Throw TypeError
    else exists r0,
           (r ← identifyNPSColumns (firstRow :: rest);
            match columns r with
            | [] => Ok (emptyNPSData [] (analyzedColumns (stats r)) [])
            | _ :: _ => summarize (firstRow :: rest) (columns r) (stats r)
            end) = Ok r0).
  { pose proof (identifyNPSColumns_outcome (firstRow :: rest)) as Hi.
    rewrite (andb_comm (shadowed _)).
    destruct (has_column (firstRow :: rest) && shadowed (firstRow :: rest)) eqn:E.
    - rewrite Hi. reflexivity.
    - destruct Hi as (ident & -> & Hcols). cbn [mbind result_bind].
      destruct (columns ident) as [|c cs] eqn:Ec; [eauto|].
      pose proof (summarize_outcome (firstRow :: rest) (c :: cs) (stats ident)) as Hs.
      cbn [nonempty andb] in Hs.
      destruct (shadowed (firstRow :: rest)); [|exact Hs].
      rewrite andb_true_r in E. specialize (Hcols E). discriminate. }
  unfold calculateNPS.
  destruct given as [[|c cs]|]; [exact Hauto | | exact Hauto].
  rewrite andb_true_r.
  pose proof (summarize_outcome (firstRow :: rest) (c :: cs)
                {| analyzedColumns := Obj.keys firstRow |}) as Hs.
  cbn [nonempty andb] in Hs. exact Hs.
Qed.

(** X26.  [calculateNPS] throws in one case only: a record has an own
    property named [hasOwnProperty], which hides the method the loops call,
    and there is a column to look at (columns named by the caller, or a key
    other than [_rowId] in the first record).  On any other input it returns
    a summary. *)
Theorem calculateNPS_throws (data : list Obj.t) (given : option (list string)) :
  (calculateNPS data given = Throw TypeError
   <-> (exists row, In row data /\ Obj.has "hasOwnProperty" row = true)
       /\ match given with
          | Some (_ :: _) => True
          | _ => exists firstRow rest key,
                   data = firstRow :: rest
                   /\ In key (Obj.keys firstRow) /\ key <> "_rowId"
          end)
  /\ (calculateNPS data given <> Throw TypeError ->
      exists r, calculateNPS data given = Ok r).
Proof.
  pose proof (calculateNPS_outcome data given) as H.
  assert (Hs : shadowed data = true
               <-> exists row, In row data /\ Obj.has "hasOwnProperty" row = true)
    by (unfold shadowed; apply existsb_exists).
  assert (Hc : has_column data = true
               <-> exists firstRow rest key,
                     data = firstRow :: rest
                     /\ In key (Obj.keys firstRow) /\ key <> "_rowId").
  { destruct data as [|firstRow rest].
    - split; [discriminate | intros (f & r & k & E & _); discriminate].
    - unfold has_column. rewrite existsb_exists. split.
      + intros (k & Hk & E). exists firstRow, rest, k.
        split; [reflexivity|]. split; [exact Hk|]. intros ->. discriminate.
      + intros (f & r & k & E & Hk & Hne). injection E as <- <-.
        exists k. split; [exact Hk|].
        destruct (String.eqb_spec k "_rowId"); [contradiction | reflexivity]. }
  set (cond := match given with Some (_ :: _) => true | _ => has_column data end)
    in H.
  assert (Hcond : cond = true
                  <-> match given with
                      | Some (_ :: _) => True
                      | _ => exists firstRow rest key,
                               data = firstRow :: rest
                               /\ In key (Obj.keys firstRow) /\ key <> "_rowId"
                      end).
  { subst cond. destruct given as [[|c cs]|]; [exact Hc | tauto | exact Hc]. }
  destruct (shadowed data && cond) eqn:E.
  - split; [|intros Hne; contradiction].
    split; [intros _|intros _; exact H].
    apply andb_true_iff in E as [E1 E2]. split; [apply Hs, E1 | apply Hcond, E2].
  - destruct H as [r Hr]. split; [|intros _; exists r; exact Hr].
    rewrite Hr. split; [discriminate|]. intros [H1 H2].
    apply Hs in H1. apply Hcond in H2. rewrite H1, H2 in E. discriminate.
Qed.

Lemma calculateNPS_throws_witness :
  calculateNPS [[("nota", "9"); ("_rowId", "row_1")];
                [("nota", "7"); ("hasOwnProperty", "x")]] None
  = Throw TypeError.
Proof.
  apply (proj1 (calculateNPS_throws _ None)). split.
  - exists [("nota", "7"); ("hasOwnProperty", "x")].
    split; [right; left; reflexivity | reflexivity].
  - eexists. eexists. exists "nota". split; [reflexivity|].
    split; [left; reflexivity | discriminate].
Defined.
(** X27.  On the records built from a table (a header row that is not
    blank, at least one data row), [calculateNPS] throws exactly when a
    normalized header is [hasOwnProperty], whichever columns the caller
    names; it returns a summary for every other table. *)
Theorem calculateNPS_of_table (headers : list string) (rows : list (list string))
  (given : option (list string)) :
  forallb Str.blank headers = false ->
  rows <> [] ->
  (calculateNPS (cleanSheetData (csvToObjects (headers :: rows))) given
   = Throw TypeError
   <-> In "hasOwnProperty" (normalized_headers headers))
  /\ (~ In "hasOwnProperty" (normalized_headers headers) ->
      exists r,
        calculateNPS (cleanSheetData (csvToObjects (headers :: rows))) given
        = Ok r).
Proof.
  intros Hh Hrows.
  rewrite cleaned_table_values, (csvToObjects_unfold headers rows Hh).
  remember (map (map_values Str.trim) (map_indexed (record_of headers) rows))
    as data eqn:Hdata.
  set (ks := Obj.keys (record_of headers [] 0)).
  assert (Hkeys : forall r, In r data -> Obj.keys r = ks).
  { intros r Hr. rewrite Hdata in Hr. apply in_map_iff in Hr as (r0 & <- & Hr0).
    apply map_indexed_In in Hr0 as (row & i & _ & ->).
    rewrite keys_map_values. apply record_of_keys_congr. }
  destruct (record_of_keys headers [] 0) as [Kin _]. fold ks in Kin.
  assert (Hne : data <> []).
  { intros E. apply (f_equal (@length _)) in E.
    rewrite Hdata, length_map, map_indexed_length in E.
    destruct rows; [contradiction | discriminate E]. }
  clear Hdata.
  assert (Hks : In "hasOwnProperty" ks <-> In "hasOwnProperty" (normalized_headers headers)).
  { rewrite Kin. split.
    - intros [[H _]|H]; [exact H | discriminate].
    - intros H. left. split; [exact H | discriminate]. }
  assert (Hs : shadowed data = true
               <-> In "hasOwnProperty" (normalized_headers headers)).
  { unfold shadowed. rewrite existsb_exists, <- Hks. split.
    - intros (r & Hr & Hhas). apply has_In_keys in Hhas.
      rewrite (Hkeys r Hr) in Hhas. exact Hhas.
    - intros H. destruct data as [|r data]; [contradiction|].
      exists r. split; [left; reflexivity|]. apply has_In_keys.
      rewrite (Hkeys r) by (left; reflexivity). exact H. }
  assert (Hc : shadowed data = true -> has_column data = true).
  { intros H. apply Hs, Hks in H. destruct data as [|r data]; [contradiction|].
    unfold has_column. rewrite (Hkeys r) by (left; reflexivity).
    apply existsb_exists. exists "hasOwnProperty". split; [exact H | reflexivity]. }
  pose proof (calculateNPS_outcome data given) as H.
  destruct (shadowed data) eqn:E.
  - rewrite (Hc eq_refl) in H.
    replace (match given with Some (_ :: _) => true | _ => true end) with true in H
      by (destruct given as [[|c cs]|]; reflexivity).
    cbn [andb] in H. split.
    + split; [intros _; apply Hs; reflexivity | intros _; exact H].
    + intros Hnot. exfalso. apply Hnot, Hs. reflexivity.
  - cbn [andb] in H. destruct H as [r Hr]. split.
    + rewrite Hr. split; [discriminate|]. intros Hin. apply Hs in Hin. discriminate.
    + intros _. exists r. exact Hr.
Qed.

Lemma calculateNPS_of_table_witness :
  calculateNPS (cleanSheetData (csvToObjects
                  [["nota"; " hasOwnProperty "]; ["9"; "x"]; ["10"; "y"]])) None
  = Throw TypeError.
Proof.
  apply (proj1 (calculateNPS_of_table ["nota"; " hasOwnProperty "]
                  [["9"; "x"]; ["10"; "y"]] None eq_refl
                  ltac:(discriminate))).
  right. left. reflexivity.
Defined.

(** ** Grades written in digits *)

(** Rounding onto binary64 does not take a value of at least 11 down to 10:
    the result is within a relative [2^-53] below, or it is infinite. *)
Lemma round64_pos_above (n d : positive) :
  (11 <= Zpos n # d)%Q ->
  Num.round64_pos n d = PInf
  \/ exists y, Num.round64_pos n d = Fin y /\ (10 < y)%Q.
Proof.
  intros Hq. unfold Num.round64_pos.
  set (q := (Zpos n # d)%Q) in *.
  pose proof (ilog2_lower n d) as He. fold q in He.
  set (e := Num.ilog2 n d) in *.
  set (p := Z.max (e - 52) (-1074)).
  destruct (Num.shift_frac n d (- p)) as [a b] eqn:E.
  apply shift_frac_spec in E as (Ha & Hb & E). fold q in E.
  destruct (rne_spec a b ltac:(lia) Hb) as (Hm0 & Hm1 & _).
  set (m := Num.rne a b) in *.
  assert (0 < inject_Z b)%Q as HB by (rewrite <- (Zlt_Qlt 0); exact Hb).
  rewrite Zle_Qle in Hm1.
  rewrite !inject_Z_plus, !inject_Z_mult in Hm1.
  change (inject_Z 2) with 2%Q in Hm1.
  pose proof (pow2_pos p) as Hp. pose proof (pow2_opp p) as Ho.
  assert (- (1 # 2) <= inject_Z m - q * 2 ^ (- p))%Q as Hd1.
  { rewrite E in Hm1. nra. }
  set (v := (inject_Z m * 2 ^ p)%Q).
  assert (v - q == (inject_Z m - q * 2 ^ (- p)) * 2 ^ p)%Q as Hv.
  { unfold v. transitivity (inject_Z m * 2 ^ p - q * (2 ^ (- p) * 2 ^ p))%Q;
      [rewrite Ho; ring | ring]. }
  assert (2 ^ p <= 2 * (q * u64 + eta64))%Q as Hbound.
  { unfold u64, eta64.
    pose proof (pow2_pos (-53)) as Hu. pose proof (pow2_pos (-1075)) as Heta.
    assert (0 < q)%Q as Hq0 by reflexivity.
    destruct (Z.max_spec (e - 52) (-1074)) as [[_ Hmax] | [_ Hmax]]; fold p in Hmax.
    - assert (2 ^ p == 2 * 2 ^ (-1075))%Q as -> by (rewrite Hmax; reflexivity).
      nra.
    - assert (2 ^ p == 2 * (2 ^ e * 2 ^ (-53)))%Q as ->.
      { rewrite Hmax. replace (e - 52)%Z with (1 + (e + -53))%Z by lia.
        rewrite pow2_add, pow2_add. reflexivity. }
      nra. }
  assert (Hlow : (10 < v)%Q).
  { assert (u64 <= 1 # 64)%Q as Hu by (unfold u64; apply (pow2_le (-53) (-6)); lia).
    assert (eta64 <= 1 # 64)%Q as Heta
      by (unfold eta64; apply (pow2_le (-1075) (-6)); lia).
    assert (q - v <= q * u64 + eta64)%Q by nra.
    nra. }
  destruct (Qle_bool (2 ^ 1024) v); [left; reflexivity|].
  right. exists (Qred v). split; [reflexivity|]. rewrite (Qred_correct v).
  exact Hlow.
Qed.

Lemma digits_text_float (ds : list ascii) :
  ds <> [] -> forallb Str.is_digit ds = true ->
  Parse.parseFloat (Str.of_list ds)
  = Num.round64 (inject_Z (Str.digits_val ds) * 10 ^ 0).
Proof.
  intros Hne Hds. destruct ds as [|c r]; [contradiction|].
  pose proof Hds as Hds'. cbn [forallb] in Hds'.
  apply andb_true_iff in Hds' as [Hc _].
  unfold Parse.parseFloat.
  assert (Hstart : Str.trimStart (Str.of_list (c :: r)) = Str.of_list (c :: r)).
  { unfold Str.trimStart. rewrite to_list_of_list, head_ok_fixed; [reflexivity|].
    destruct (solid_not_ws c (digit_solid c Hc)) as (H1 & H2 & H3).
    destruct r as [|c2 [|c3 r3]]; cbn [head_ok].
    - split; [exact H1 | exact I].
    - split; [exact H1|]. split; [apply H2 | exact I].
    - split; [exact H1|]. split; [apply H2 | apply H3]. }
  rewrite Hstart.
  assert (Hsign : Parse.take_sign (Str.of_list (c :: r))
                  = (false, Str.of_list (c :: r))).
  { cbn [Str.of_list string_of_list_ascii Parse.take_sign].
    destruct (Ascii.eqb_spec c "-") as [->|_]; [discriminate Hc|].
    destruct (Ascii.eqb_spec c "+") as [->|_]; [discriminate Hc|].
    reflexivity. }
  rewrite Hsign. unfold Parse.unsigned_literal.
  assert (Hinf : Str.starts_with "Infinity" (Str.of_list (c :: r)) = false).
  { cbn [Str.of_list string_of_list_ascii Str.starts_with].
    destruct (Ascii.eqb_spec "I" c) as [<-|_]; [discriminate Hc | reflexivity]. }
  rewrite Hinf, (span_digits_all (c :: r) Hds). reflexivity.
Qed.

(** X28.  A text that is a run of decimal digits between white space is
    read as the integer the digits denote, leading zeros included: the
    result is valid with that value up to 10, and invalid above. *)
Theorem parseNPSValue_digits (s : string) (ds : list ascii) :
  Str.trim s = Str.of_list ds ->
  ds <> [] ->
  forallb Str.is_digit ds = true ->
  parseNPSValue (JStr s)
  = if (Str.digits_val ds <=? 10)%Z
    then {| valid := true; value := Some (inject_Z (Str.digits_val ds)) |}
    else {| valid := false; value := None |}.
Proof.
  intros Htrim Hne Hds.
  assert (Hs : Str.is_empty s = false).
  { destruct s; [|reflexivity]. exfalso. apply Hne.
    change (Str.trim "") with "" in Htrim.
    destruct ds; [reflexivity | discriminate Htrim]. }
  unfold parseNPSValue. rewrite Hs. cbv zeta. rewrite Htrim.
  rewrite (digits_text_float ds Hne Hds).
  pose proof (digits_val_bound ds Hds) as [Hv0 _].
  set (v := Str.digits_val ds) in *.
  destruct (Z.leb_spec v 10) as [Hle|Hgt].
  - assert (v = 0 \/ v = 1 \/ v = 2 \/ v = 3 \/ v = 4 \/ v = 5 \/ v = 6 \/ v = 7
            \/ v = 8 \/ v = 9 \/ v = 10)%Z as Hcases by lia.
    repeat (destruct Hcases as [->|Hcases]; [vm_compute; reflexivity|]).
    rewrite Hcases. vm_compute. reflexivity.
  - destruct v as [|n|n]; try lia.
    assert (Hr : Num.round64 (inject_Z (Z.pos n) * 10 ^ 0)
                 = Num.round64_pos n 1).
    { unfold Num.round64. cbn [inject_Z Qmult Qnum Qden Qpower].
      change (Qnum 1) with 1%Z. change (Qden 1) with 1%positive.
      rewrite Z.mul_1_r, Pos.mul_1_r. reflexivity. }
    rewrite Hr.
    destruct (round64_pos_above n 1) as [->|(y & -> & Hy)].
    + unfold Qle. cbn. lia.
    + reflexivity.
    + cbn [Num.isNaN]. unfold range_checked. cbn [Num.isNaN negb andb].
      unfold Num.geb, Num.leb, Num.of_Z.
      assert (E : Qle_bool y (inject_Z 10) = false).
      { apply Qle_bool_false. exact Hy. }
      rewrite E, andb_false_r. reflexivity.
Qed.

Lemma parseNPSValue_digits_witness :
  parseNPSValue (JStr " 007 ") = {| valid := true; value := Some 7%Q |}.
Proof.
  exact (parseNPSValue_digits " 007 " ["0"; "0"; "7"]%char
           eq_refl ltac:(discriminate) eq_refl).
Defined.
